(** * mom-brain: the event-analysis batch pipeline

    A shallow embedding of the four components of the pipeline
    - the Analysis Client  ([analyzeCalendarEvent], two variants),
    - the Batch Dispatcher ([analyzeBatchEvents], two variants),
    - the Task Materializer ([saveAnalyzedEvent]),
    - the Task Bucketizer  ([getUpcomingTasks]),
    and of the analyze route ([POST]) that chains them, followed by the
    properties proved about them.

    Conventions of the embedding.
    - A JavaScript [Date] is its time value, an integer number of
      milliseconds since the epoch ([Z]).  Invalid dates and the clipping of
      time values beyond +-8.64e15 ms are outside the model.
    - [new Date()] reads a clock.  The clock is an oracle [clock : nat -> Z]
      giving the value of the k-th reading; the number of readings made so far
      is part of the state.
    - Local time is UTC shifted by a fixed offset [LocalTZA] (a zone without
      daylight-saving transitions).
    - The Prisma tables are lists of rows, in insertion order; primary keys
      are drawn from a counter kept with the tables.  Storage operations are
      taken to succeed.
    - The LLM provider and [JSON.parse] are outside the repository: the
      provider is an oracle giving the outcome of the k-th call, [JSON.parse]
      is a parameter.
    - lib/db/tasks.ts is modelled on events of its declared type.  The
      analyzers are modelled on the objects that reach them at run time,
      whose [start] or [end] may be missing. *)

From Stdlib Require Import ZArith QArith Lia String Ascii List Permutation Sorted.
From stdpp Require Import base option list gmap strings.
Import ListNotations.
Open Scope Z_scope.
Open Scope string_scope.

(* ================================================================== *)
(** * Part I: the program *)
(* ================================================================== *)

(** ** JavaScript dates *)

Module Dates.

Definition msPerDay : Z := 86400000.

(** ECMAScript [Day(t)], [TimeWithinDay(t)] and [MakeDate(day, time)]. *)
Definition Day (t : Z) : Z := t / msPerDay.
Definition TimeWithinDay (t : Z) : Z := t mod msPerDay.
Definition MakeDate (day time : Z) : Z := day * msPerDay + time.

(** What the host supplies: the zone offset, the calendar and the clock.
    [MonthStart d] is the day number of the first day of the month that
    contains day number [d], so that ECMAScript's [DateFromTime(t)] is
    [Day(t) - MonthStart(Day(t)) + 1] and
    [MakeDay(YearFromTime(t), MonthFromTime(t), dt)] is
    [MonthStart(Day(t)) + dt - 1]. *)
Class Host := {
  LocalTZA : Z;
  MonthStart : Z -> Z;
  clock : nat -> Z
}.

Section WithHost.
Context `{Host}.

Definition LocalTime (t : Z) : Z := t + LocalTZA.
Definition UTC (t : Z) : Z := t - LocalTZA.

(** [Date.prototype.getDate]: the day of the month, in local time. *)
Definition getDate (t : Z) : Z :=
  let lt := LocalTime t in
  Day lt - MonthStart (Day lt) + 1.

(** [Date.prototype.setDate(dt)]: same month and time of day, day of the
    month [dt] (days outside the month roll over into the neighbouring
    months). *)
Definition setDate (t : Z) (dt : Z) : Z :=
  let lt := LocalTime t in
  UTC (MakeDate (MonthStart (Day lt) + dt - 1) (TimeWithinDay lt)).

End WithHost.

(** The proleptic Gregorian calendar: day of the month (0-based) of a day
    number counted from 1970-01-01. *)
Definition dayOfMonth0 (d : Z) : Z :=
  let z := d + 719468 in
  let era := z / 146097 in
  let doe := z - era * 146097 in
  let yoe := (doe - doe / 1460 + doe / 36524 - doe / 146096) / 365 in
  let doy := doe - (365 * yoe + yoe / 4 - yoe / 100) in
  let mp := (5 * doy + 2) / 153 in
  doy - (153 * mp + 2) / 5.

Definition gregorianMonthStart (d : Z) : Z := d - dayOfMonth0 d.

(** A host in UTC whose clock is stopped at [now]. *)
Definition frozenUTC (now : Z) : Host :=
  {| LocalTZA := 0; MonthStart := gregorianMonthStart; clock := fun _ => now |}.

End Dates.
Export Dates.

(** ** Calendar events (the shape shared by every source file) *)

(** [start] and [end] carry an ISO string under [dateTime] or [date]; a
    string is represented by the instant [new Date(string)] denotes, an
    absent or empty string by [None]. *)
Record EventTime := {
  dateTime : option Z;
  date : option Z
}.

Record CalendarEvent := {
  ev_id : string;
  summary : option string;
  description : option string;
  location : option string;
  start : EventTime;
  end_ : EventTime
}.

(** [s || fallback] on an optional string: the empty string is falsy. *)
Definition orString (s : option string) (fallback : string) : string :=
  match s with
  | Some x => if String.eqb x "" then fallback else x
  | None => fallback
  end.

(** ** lib/db/tasks.ts *)

Module Tasks.

(** The [EventAnalysis] that tasks.ts imports from lib/ai/event-analyzer.ts.
    [forceReanalysis] is not a declared field: it is the property
    [saveAnalyzedEvent] reads from the object at run time, [false] when the
    object does not carry it. *)
Record SuggestedTask := {
  st_title : string;
  st_type : string;
  daysBeforeEvent : Z;
  st_priority : string;
  st_description : option string
}.

Record EventAnalysis := {
  eventType : string;
  requiresSitter : bool;
  requiresTravel : bool;
  requiresFormalAttire : bool;
  suggestedTasks : list SuggestedTask;
  preparations : list string;
  notes : string;
  forceReanalysis : bool
}.

(** Rows of the [analyzedEvent] table.  [eventData] and [analysisData] hold
    JSON text in the database; a text is represented by the value it
    encodes.  [analyzedAt] is [None] where the code leaves the column to the
    schema. *)
Record AnalyzedEvent := {
  ae_id : nat;
  ae_eventId : string;
  ae_householdId : string;
  eventTitle : string;
  eventStart : Z;
  eventEnd : Z;
  eventData : CalendarEvent;
  ae_eventType : string;
  ae_requiresSitter : bool;
  ae_requiresTravel : bool;
  ae_requiresFormalAttire : bool;
  analysisData : EventAnalysis;
  analyzedAt : option Z
}.

(** Rows of the [suggestedTask] table. *)
Record Task := {
  task_id : nat;
  analyzedEventId : nat;
  householdId : string;
  title : string;
  task_description : option string;
  type : string;
  priority : string;
  dueDate : Z;
  status : string;
  completedAt : option Z;
  dismissedAt : option Z
}.

(** The database, and the number of clock readings made so far. *)
Record World := {
  analyzedEvent : list AnalyzedEvent;
  suggestedTask : list Task;
  nextId : nat;
  ticks : nat
}.

(** Computations over the world. *)
Definition M (A : Type) : Type := World -> A * World.

Definition ret {A} (a : A) : M A := fun w => (a, w).

Definition bind {A B} (m : M A) (k : A -> M B) : M B :=
  fun w => let (a, w') := m w in k a w'.

Notation "'let*' x ':=' m 'in' k" := (bind m (fun x => k))
  (at level 10, x name, m at level 100, k at level 200).

Fixpoint mapM {A B} (f : A -> M B) (l : list A) : M (list B) :=
  match l with
  | [] => ret []
  | a :: l' =>
      let* b := f a in
      let* bs := mapM f l' in
      ret (b :: bs)
  end.

Section WithHost.
Context `{Host}.

(** [new Date()] *)
Definition newDate : M Z :=
  fun w => (clock (ticks w),
            {| analyzedEvent := analyzedEvent w; suggestedTask := suggestedTask w;
               nextId := nextId w; ticks := S (ticks w) |}).

(** [new Date(t.dateTime || t.date || new Date())]: the clock is read only
    when both strings are missing. *)
Definition resolveDate (t : EventTime) : M Z :=
  match dateTime t with
  | Some x => ret x
  | None =>
      match date t with
      | Some x => ret x
      | None => newDate
      end
  end.

(** *** The Prisma operations the file uses *)

Definition hasEventId (eid : string) (r : AnalyzedEvent) : bool :=
  String.eqb (ae_eventId r) eid.

Definition ownedBy (aeid : nat) (t : Task) : bool :=
  Nat.eqb (analyzedEventId t) aeid.

(** [analyzedEvent.findUnique({where: {eventId}, include: {tasks: true}})] *)
Definition findUnique (eid : string) : M (option (AnalyzedEvent * list Task)) :=
  fun w =>
    (match List.find (hasEventId eid) (analyzedEvent w) with
     | Some r => Some (r, List.filter (ownedBy (ae_id r)) (suggestedTask w))
     | None => None
     end, w).

(** The row changes of an upsert, as the code writes them. *)
Definition updateRow (event : CalendarEvent) (startDate endDate : Z)
    (analysis : EventAnalysis) (now : Z) (r : AnalyzedEvent) : AnalyzedEvent :=
  {| ae_id := ae_id r;
     ae_eventId := ae_eventId r;
     ae_householdId := ae_householdId r;
     eventTitle := orString (summary event) "Untitled";
     eventStart := startDate;
     eventEnd := endDate;
     eventData := event;
     ae_eventType := eventType analysis;
     ae_requiresSitter := requiresSitter analysis;
     ae_requiresTravel := requiresTravel analysis;
     ae_requiresFormalAttire := requiresFormalAttire analysis;
     analysisData := analysis;
     analyzedAt := Some now |}.

Definition createRow (newId : nat) (hid : string) (event : CalendarEvent)
    (startDate endDate : Z) (analysis : EventAnalysis) : AnalyzedEvent :=
  {| ae_id := newId;
     ae_eventId := ev_id event;
     ae_householdId := hid;
     eventTitle := orString (summary event) "Untitled";
     eventStart := startDate;
     eventEnd := endDate;
     eventData := event;
     ae_eventType := eventType analysis;
     ae_requiresSitter := requiresSitter analysis;
     ae_requiresTravel := requiresTravel analysis;
     ae_requiresFormalAttire := requiresFormalAttire analysis;
     analysisData := analysis;
     analyzedAt := None |}.

(** Replace the first row that satisfies [p]. *)
Fixpoint updateFirst {A} (p : A -> bool) (f : A -> A) (l : list A) : list A :=
  match l with
  | [] => []
  | x :: l' => if p x then f x :: l' else x :: updateFirst p f l'
  end.

(** [analyzedEvent.upsert({where: {eventId}, update, create})] *)
Definition upsert (eid : string) (update : AnalyzedEvent -> AnalyzedEvent)
    (create : nat -> AnalyzedEvent) : M AnalyzedEvent :=
  fun w =>
    match List.find (hasEventId eid) (analyzedEvent w) with
    | Some r =>
        (update r,
         {| analyzedEvent := updateFirst (hasEventId eid) update (analyzedEvent w);
            suggestedTask := suggestedTask w;
            nextId := nextId w; ticks := ticks w |})
    | None =>
        (create (nextId w),
         {| analyzedEvent := analyzedEvent w ++ [create (nextId w)];
            suggestedTask := suggestedTask w;
            nextId := S (nextId w); ticks := ticks w |})
    end.

(** [suggestedTask.deleteMany({where: {analyzedEventId}})], returning the
    count. *)
Definition deleteMany (aeid : nat) : M nat :=
  fun w =>
    (length (List.filter (ownedBy aeid) (suggestedTask w)),
     {| analyzedEvent := analyzedEvent w;
        suggestedTask := List.filter (fun t => negb (ownedBy aeid t)) (suggestedTask w);
        nextId := nextId w; ticks := ticks w |}).

(** [suggestedTask.create({data})]: the columns not given are empty. *)
Definition create (aeid : nat) (hid : string) (task : SuggestedTask) (due : Z)
    : M Task :=
  fun w =>
    let row := {| task_id := nextId w;
                  analyzedEventId := aeid;
                  householdId := hid;
                  title := st_title task;
                  task_description := st_description task;
                  type := st_type task;
                  priority := st_priority task;
                  dueDate := due;
                  status := "pending";
                  completedAt := None;
                  dismissedAt := None |} in
    (row,
     {| analyzedEvent := analyzedEvent w;
        suggestedTask := suggestedTask w ++ [row];
        nextId := S (nextId w); ticks := ticks w |}).

(** *** saveAnalyzedEvent *)

Definition saveAnalyzedEvent (hid : string) (event : CalendarEvent)
    (analysis : EventAnalysis) : M (AnalyzedEvent * list Task) :=
  let* startDate := resolveDate (start event) in
  let* endDate := resolveDate (end_ event) in
  (* First, check if we already analyzed this event *)
  let* existing := findUnique (ev_id event) in
  match existing, negb (forceReanalysis analysis) with
  | Some cached, true => ret cached
  | _, _ =>
      (* Create or update the analyzed event *)
      let* now := newDate in
      let* analyzedEvent :=
        upsert (ev_id event)
               (updateRow event startDate endDate analysis now)
               (fun newId => createRow newId hid event startDate endDate analysis) in
      (* Delete old tasks for this event (in case of re-analysis) *)
      let* _ := deleteMany (ae_id analyzedEvent) in
      (* Create new suggested tasks *)
      let* tasks :=
        mapM (fun task =>
                let dueDate := setDate startDate (getDate startDate - daysBeforeEvent task) in
                create (ae_id analyzedEvent) hid task dueDate)
             (suggestedTasks analysis) in
      ret (analyzedEvent, tasks)
  end.

(** *** getUpcomingTasks *)

Record Options := {
  daysAhead : option Z;
  includeCompleted : option bool
}.

Definition noOptions : Options := {| daysAhead := None; includeCompleted := None |}.

Record UpcomingTasks := {
  overdue : list Task;
  thisWeek : list Task;
  nextWeek : list Task;
  later : list Task;
  all : list Task
}.

(** The [priority] column holds text; the store compares text byte by
    byte. *)
Definition textLt (a b : string) : bool := String.ltb a b.

(** [orderBy: [{dueDate: 'asc'}, {priority: 'desc'}]]: [a] may stand before
    [b]. *)
Definition orderBy (a b : Task) : bool :=
  (dueDate a <? dueDate b)%Z
  || ((dueDate a =? dueDate b)%Z && negb (textLt (priority a) (priority b))).

Fixpoint insertOrdered (x : Task) (l : list Task) : list Task :=
  match l with
  | [] => [x]
  | y :: l' => if orderBy x y then x :: y :: l' else y :: insertOrdered x l'
  end.

(** Rows that the order does not separate keep their table order. *)
Definition sortRows (l : list Task) : list Task :=
  List.fold_right insertOrdered [] l.

(** The [where] clause of the query. *)
Definition whereClause (hid : string) (includeCompleted : bool) (gte lte : Z)
    (t : Task) : bool :=
  String.eqb (householdId t) hid
  && (if includeCompleted then true else String.eqb (status t) "pending")
  && (dueDate t <=? lte)%Z
  && (gte <=? dueDate t)%Z.

(** [suggestedTask.findMany({where, include, orderBy})].  The [include] only
    attaches the parent row to each task; it is left out. *)
Definition findMany (p : Task -> bool) : M (list Task) :=
  fun w => (sortRows (List.filter p (suggestedTask w)), w).

Definition getUpcomingTasks (hid : string) (options : Options) : M UpcomingTasks :=
  let daysAhead := default 30%Z (daysAhead options) in
  let includeCompleted := default false (includeCompleted options) in
  let* endDate0 := newDate in
  let endDate := setDate endDate0 (getDate endDate0 + daysAhead) in
  let* gte := newDate in (* Don't show past-due tasks by default *)
  let* tasks := findMany (whereClause hid includeCompleted gte endDate) in
  (* Group tasks by time period *)
  let* today := newDate in
  let* thisWeek0 := newDate in
  let thisWeek := setDate thisWeek0 (getDate thisWeek0 + 7) in
  let* nextWeek0 := newDate in
  let nextWeek := setDate nextWeek0 (getDate nextWeek0 + 14) in
  ret {| overdue := List.filter (fun t => (dueDate t <? today)%Z) tasks;
         thisWeek := List.filter (fun t => (today <=? dueDate t)%Z && (dueDate t <? thisWeek)%Z) tasks;
         nextWeek := List.filter (fun t => (thisWeek <=? dueDate t)%Z && (dueDate t <? nextWeek)%Z) tasks;
         later := List.filter (fun t => (nextWeek <=? dueDate t)%Z) tasks;
         all := tasks |}.

End WithHost.

End Tasks.

(** ** JavaScript values and completions *)

Module Js.

(** A value as [JSON.parse] can produce it, and [undefined].  A number is
    represented by the rational its text denotes. *)
#[warnings="-register-all"]
Inductive Value :=
| JUndefined
| JNull
| JBool (b : bool)
| JNum (q : Q)
| JStr (s : string)
| JArr (items : list Value)
| JObj (fields : list (string * Value)).

(** What a [throw] carries: an [Error] object with its message, or something
    that is not an [Error]. *)
Inductive Thrown :=
| ErrorObject (message : string)
| NotAnError.

(** How an evaluation ends. *)
Inductive Completion (A : Type) :=
| Normal (a : A)
| Throw (e : Thrown).
Arguments Normal {A} a.
Arguments Throw {A} e.

Definition andThen {A B} (c : Completion A) (k : A -> Completion B) : Completion B :=
  match c with
  | Normal a => k a
  | Throw e => Throw e
  end.

Notation "'try*' x ':=' c 'in' k" := (andThen c (fun x => k))
  (at level 10, x name, c at level 100, k at level 200).

(** [ToBoolean] *)
Definition truthy (v : Value) : bool :=
  match v with
  | JUndefined | JNull => false
  | JBool b => b
  | JNum q => negb (Qeq_bool q 0)
  | JStr s => negb (String.eqb s "")
  | JArr _ | JObj _ => true
  end.

(** [a || b] *)
Definition or (a b : Value) : Value := if truthy a then a else b.

Fixpoint lookupField (name : string) (fields : list (string * Value)) : Value :=
  match fields with
  | [] => JUndefined
  | (k, v) :: rest => if String.eqb k name then v else lookupField name rest
  end.

(** [v.name], for the names the analyzers read ([eventType], [tasks], ...),
    none of which is a built-in property of a string, number, boolean or
    array: reading from [null] or [undefined] throws a [TypeError], an object
    gives its field, every other value gives [undefined]. *)
Definition getProp (v : Value) (name : string) : Completion Value :=
  match v with
  | JUndefined | JNull =>
      Throw (ErrorObject ("Cannot read properties of null or undefined (reading '" ++ name ++ "')"))
  | JObj fields => Normal (lookupField name fields)
  | _ => Normal JUndefined
  end.

(** [Array.isArray] *)
Definition isArray (v : Value) : bool :=
  match v with
  | JArr _ => true
  | _ => false
  end.

(** [s.includes(sub)] *)
Definition includes (s sub : string) : bool :=
  match String.index 0 sub s with
  | Some _ => true
  | None => false
  end.

(** [text.match(/\{[\s\S]*\}/)]: the span from the first opening brace to the
    last closing brace after it. *)
Fixpoint fromFirstOpen (s : string) : option string :=
  match s with
  | EmptyString => None
  | String c rest =>
      if Ascii.eqb c "{"%char then Some s else fromFirstOpen rest
  end.

Fixpoint toLastClose (s : string) : option string :=
  match s with
  | EmptyString => None
  | String c rest =>
      match toLastClose rest with
      | Some span => Some (String c span)
      | None => if Ascii.eqb c "}"%char then Some (String c EmptyString) else None
      end
  end.

Definition jsonMatch (text : string) : option string :=
  match fromFirstOpen text with
  | Some tail => toLastClose tail
  | None => None
  end.

End Js.
Export Js.

(** ** Events as the analyzers receive them *)

(** Both analyzers declare their [event] parameter with a [start] and an
    [end], but the value comes from the body of a request and nothing checks
    it: the analyze route keeps the array elements whose
    [start?.dateTime || start?.date] is recent and never looks at [end], and
    the dispatcher without settings declares [events: any[]].  An
    [EventObject] is such a value: an object with a string [id] whose
    [start] and [end] may be missing ([None] stands for [undefined] or
    [null]). *)
Record EventObject := {
  obj_id : string;
  obj_summary : option string;
  obj_description : option string;
  obj_location : option string;
  obj_start : option EventTime;
  obj_end : option EventTime
}.

(** An event of the declared type, as an object. *)
Definition asObject (event : CalendarEvent) : EventObject :=
  {| obj_id := ev_id event;
     obj_summary := summary event;
     obj_description := description event;
     obj_location := location event;
     obj_start := Some (start event);
     obj_end := Some (end_ event) |}.

(** [new Date(t.dateTime || t.date || '')] for [t = event.start] and for
    [t = event.end], the first two statements of both analyzers.  Reading
    [dateTime] from a missing [t] throws a [TypeError]; otherwise the result
    is a date, invalid ([None]) when both strings are missing. *)
Definition dateOf (t : option EventTime) : Completion (option Z) :=
  match t with
  | None =>
      Throw (ErrorObject "Cannot read properties of undefined (reading 'dateTime')")
  | Some t =>
      Normal (match dateTime t with
              | Some x => Some x
              | None => date t
              end)
  end.

(** ** The provider, the console and the timers *)

Module Provider.

(** One block of [response.content]. *)
Inductive ContentBlock :=
| TextBlock (text : string)
| OtherBlock.

(** How [anthropic.messages.create] settles. *)
Inductive CreateOutcome :=
| Resolves (content : list ContentBlock)
| Rejects (e : Thrown).

(** What lies outside the repository: the outcome of the k-th provider call
    and [JSON.parse] ([None] when it throws a [SyntaxError]). *)
Class Services := {
  messages_create : nat -> CreateOutcome;
  JSON_parse : string -> option Value
}.

(** Lines written to the console. *)
Inductive LogLine :=
| LogProcessing (n : nat) (delay : Z)
| LogAnalyzing (i n : nat) (title : string)
| ErrAnalyzing (e : Thrown)
| ErrFailed (eventId : string) (e : Thrown)
| LogRateLimited.

(** The state the analyzers work on: provider calls made so far, the
    console, and the durations (ms) of the [setTimeout] pauses taken. *)
Record State := {
  calls : nat;
  console : list LogLine;
  sleeps : list Z
}.

Definition initial : State := {| calls := 0; console := []; sleeps := [] |}.

Definition log (l : LogLine) (st : State) : State :=
  {| calls := calls st; console := console st ++ [l]; sleeps := sleeps st |}.

Definition sleep (ms : Z) (st : State) : State :=
  {| calls := calls st; console := console st; sleeps := sleeps st ++ [ms] |}.

Definition called (st : State) : State :=
  {| calls := S (calls st); console := console st; sleeps := sleeps st |}.

End Provider.
Export Provider.

(** ** lib/ai/event-analyzer.ts, the version with settings *)

Module Enhanced.

(** Each field is whatever value the reply carried, or the fallback. *)
Record EventAnalysis := {
  eventType : Value;
  requiresSitter : Value;
  requiresTravel : Value;
  requiresFormalAttire : Value;
  tasks : Value;
  reasoning : Value;
  confidence : Value
}.

(** The object returned from the [catch] of [analyzeCalendarEvent]. *)
Definition defaultAnalysis : EventAnalysis :=
  {| eventType := JStr "other";
     requiresSitter := JBool false;
     requiresTravel := JBool false;
     requiresFormalAttire := JBool false;
     tasks := JArr [];
     reasoning := JStr "Analysis failed - using defaults";
     confidence := JNum (1 # 10)%Q |}.

(** The object recorded from the [catch] of [analyzeBatchEvents]. *)
Definition dispatcherDefault : EventAnalysis :=
  {| eventType := JStr "other";
     requiresSitter := JBool false;
     requiresTravel := JBool false;
     requiresFormalAttire := JBool false;
     tasks := JArr [];
     reasoning := JStr "Analysis failed due to error";
     confidence := JNum (1 # 10)%Q |}.

Section WithServices.
Context `{Services}.

(** The object built from a parsed reply. *)
Definition fromReply (analysis : Value) : Completion EventAnalysis :=
  try* eventType := getProp analysis "eventType" in
  try* requiresSitter := getProp analysis "requiresSitter" in
  try* requiresTravel := getProp analysis "requiresTravel" in
  try* requiresFormalAttire := getProp analysis "requiresFormalAttire" in
  try* tasks := getProp analysis "tasks" in
  try* reasoning := getProp analysis "reasoning" in
  try* confidence := getProp analysis "confidence" in
  Normal {| eventType := or eventType (JStr "other");
            requiresSitter := or requiresSitter (JBool false);
            requiresTravel := or requiresTravel (JBool false);
            requiresFormalAttire := or requiresFormalAttire (JBool false);
            tasks := or tasks (JArr []);
            reasoning := or reasoning (JStr "");
            confidence := or confidence (JNum (8 # 10)%Q) |}.

(** The text handed to [JSON.parse]: the matched span, or the whole reply
    when nothing matches. *)
Definition analysisTextOf (text : string) : string :=
  match jsonMatch text with
  | Some span => span
  | None => text
  end.

(** The [try] block, from the settled provider call on. *)
Definition tryBlock (outcome : CreateOutcome) : Completion EventAnalysis :=
  match outcome with
  | Rejects e => Throw e
  | Resolves [] =>
      Throw (ErrorObject "Cannot read properties of undefined (reading 'type')")
  | Resolves (OtherBlock :: _) =>
      Throw (ErrorObject "Unexpected response type from Claude")
  | Resolves (TextBlock text :: _) =>
      (* Try to parse JSON from the response *)
      let analysisText := analysisTextOf text in
      match JSON_parse analysisText with
      | None => Throw (ErrorObject "Unexpected token in JSON")
      | Some analysis => fromReply analysis
      end
  end.

(** [analyzeCalendarEvent], with [settings] and [knowledgeBase] of their
    declared types (the analyze route passes [undefined] for both).  The two
    dates are computed before the [try]: a [TypeError] raised there rejects
    the call, and the provider is not called.  The rest of the prompt is
    built from the dates, the event and the settings by string formatting,
    which does not throw (an invalid date prints as text); the provider's
    answer to the prompt is the oracle's. *)
Definition analyzeCalendarEvent (event : EventObject) (st : State)
    : Completion EventAnalysis * State :=
  match (try* startDate := dateOf (obj_start event) in
         try* endDate := dateOf (obj_end event) in
         Normal (startDate, endDate)) with
  | Throw error => (Throw error, st)
  | Normal _ =>
      let outcome := messages_create (calls st) in
      let st := called st in
      match tryBlock outcome with
      | Normal analysis => (Normal analysis, st)
      | Throw error =>
          (* Return default analysis if AI fails *)
          (Normal defaultAnalysis, log (ErrAnalyzing error) st)
      end
  end.

End WithServices.

(** *** analyzeBatchEvents, over any client *)

Section Dispatcher.
Variable client : EventObject -> State -> Completion EventAnalysis * State.

Definition delayBetweenRequests : Z := 1500.

(** [error instanceof Error && error.message.includes('429')] *)
Definition isRateLimit (error : Thrown) : bool :=
  match error with
  | ErrorObject message => includes message "429"
  | NotAnError => false
  end.

(** One pass through the body of the [for] loop at index [i]; the result
    carries the index of the next pass. *)
Definition iteration (n i : nat) (event : EventObject)
    (results : gmap string EventAnalysis) (st : State)
    : nat * gmap string EventAnalysis * State :=
  let st := log (LogAnalyzing (i + 1) n (orString (obj_summary event) "Untitled")) st in
  match client event st with
  | (Normal analysis, st) =>
      let results := <[obj_id event := analysis]> results in
      (* Add delay between requests to respect rate limits *)
      let st := if (S i <? n)%nat then sleep delayBetweenRequests st else st in
      (S i, results, st)
  | (Throw error, st) =>
      let st := log (ErrFailed (obj_id event) error) st in
      (* If it's a rate limit error, wait longer *)
      if isRateLimit error then
        let st := sleep 60000 (log LogRateLimited st) in
        (* Retry this event *)
        (i, results, st)
      else
        (* For other errors, use default analysis *)
        (S i, <[obj_id event := dispatcherDefault]> results, st)
  end.

(** The [for] loop.  It need not end, so the embedding counts passes:
    [None] when [fuel] passes were not enough. *)
Fixpoint loop (fuel : nat) (events : list EventObject) (i : nat)
    (results : gmap string EventAnalysis) (st : State)
    : option (gmap string EventAnalysis * State) :=
  match events !! i with
  | None => Some (results, st)
  | Some event =>
      match fuel with
      | O => None
      | S fuel' =>
          let '(i', results', st') := iteration (length events) i event results st in
          loop fuel' events i' results' st'
      end
  end.

Definition dispatch (fuel : nat) (events : list EventObject) (st : State)
    : option (gmap string EventAnalysis * State) :=
  loop fuel events 0 ∅ (log (LogProcessing (length events) delayBetweenRequests) st).

End Dispatcher.

(** [analyzeBatchEvents]: the dispatcher over [analyzeCalendarEvent]. *)
Definition analyzeBatchEvents `{Services} (fuel : nat) (events : list EventObject)
    (st : State) : option (gmap string EventAnalysis * State) :=
  dispatch analyzeCalendarEvent fuel events st.

End Enhanced.

(** ** lib/ai/event-analyzer.ts, the version without settings *)

Module Simple.

(** [analyzeCalendarEvent] returns the parsed reply itself, cast to
    [EventAnalysis], or this object. *)
Definition defaultAnalysis : Value :=
  JObj [ ("eventType", JStr "other");
         ("requiresSitter", JBool false);
         ("requiresTravel", JBool false);
         ("requiresFormalAttire", JBool false);
         ("suggestedTasks", JArr []);
         ("preparations", JArr []);
         ("notes", JStr "Analysis failed - manual review recommended") ].

Section WithServices.
Context `{Services}.

(** The [try] block, from the settled provider call on. *)
Definition tryBlock (outcome : CreateOutcome) : Completion Value :=
  match outcome with
  | Rejects e => Throw e
  | Resolves [] =>
      Throw (ErrorObject "Cannot read properties of undefined (reading 'type')")
  | Resolves (OtherBlock :: _) =>
      Throw (ErrorObject "Unexpected response type from Claude")
  | Resolves (TextBlock text :: _) =>
      (* Extract JSON from the response *)
      match jsonMatch text with
      | None => Throw (ErrorObject "No JSON found in response")
      | Some span =>
          match JSON_parse span with
          | None => Throw (ErrorObject "Unexpected token in JSON")
          | Some analysis =>
              (* Validate the response has required fields *)
              try* eventType := getProp analysis "eventType" in
              if negb (truthy eventType) then
                Throw (ErrorObject "Invalid analysis structure")
              else
                try* suggestedTasks := getProp analysis "suggestedTasks" in
                if negb (isArray suggestedTasks) then
                  Throw (ErrorObject "Invalid analysis structure")
                else Normal analysis
          end
      end
  end.

(** [analyzeCalendarEvent].  As in the version with settings, the two
    dates are computed before the [try], and a [TypeError] raised there
    rejects the call without a provider call; the weekday, the time of day
    and the prompt are then obtained by formatting, which does not throw. *)
Definition analyzeCalendarEvent (event : EventObject) (st : State)
    : Completion Value * State :=
  match (try* startDate := dateOf (obj_start event) in
         try* endDate := dateOf (obj_end event) in
         Normal (startDate, endDate)) with
  | Throw error => (Throw error, st)
  | Normal _ =>
      let outcome := messages_create (calls st) in
      let st := called st in
      match tryBlock outcome with
      | Normal analysis => (Normal analysis, st)
      | Throw error =>
          (* Return a safe default if analysis fails *)
          (Normal defaultAnalysis, log (ErrAnalyzing error) st)
      end
  end.

(** The callback mapped over one batch: [Some (eventId, analysis)], or
    [None] for the [null] of the [catch]. *)
Definition analyzeOne (event : EventObject) (st : State)
    : option (string * Value) * State :=
  match analyzeCalendarEvent event st with
  | (Normal analysis, st) => (Some (obj_id event, analysis), st)
  | (Throw error, st) => (None, log (ErrFailed (obj_id event) error) st)
  end.

(** [Promise.all(batch.map(...))].  The provider calls of a batch are issued
    in the order of the batch; the callbacks are run here in that order. *)
Fixpoint analyzeAll (batch : list EventObject) (st : State)
    : list (option (string * Value)) * State :=
  match batch with
  | [] => ([], st)
  | event :: rest =>
      let (r, st) := analyzeOne event st in
      let (rs, st) := analyzeAll rest st in
      (r :: rs, st)
  end.

(** [batchResults.forEach(result => { if (result) results.set(...) })] *)
Definition store (results : gmap string Value)
    (batchResults : list (option (string * Value))) : gmap string Value :=
  List.fold_left
    (fun acc result =>
       match result with
       | Some (eventId, analysis) => <[eventId := analysis]> acc
       | None => acc
       end)
    batchResults results.

(** [events.slice(i, i + maxConcurrent)] *)
Definition slice (events : list EventObject) (i maxConcurrent : nat)
    : list EventObject :=
  firstn maxConcurrent (skipn i events).

(** The [for] loop over batches, with a count of passes as in the other
    dispatcher ([maxConcurrent = 0] never advances). *)
Fixpoint loop (fuel : nat) (events : list EventObject) (maxConcurrent i : nat)
    (results : gmap string Value) (st : State)
    : option (gmap string Value * State) :=
  if (i <? length events)%nat then
    match fuel with
    | O => None
    | S fuel' =>
        let batch := slice events i maxConcurrent in
        let (batchResults, st) := analyzeAll batch st in
        loop fuel' events maxConcurrent (i + maxConcurrent)
             (store results batchResults) st
    end
  else Some (results, st).

Definition analyzeBatchEvents (fuel : nat) (events : list EventObject)
    (maxConcurrent : option nat) (st : State)
    : option (gmap string Value * State) :=
  let maxConcurrent := default 3%nat maxConcurrent in
  loop fuel events maxConcurrent 0 ∅ st.

End WithServices.

End Simple.

(** ** app/api/calendar/analyze/route.ts *)

Module Route.
Import Tasks.

(** The body of the request: [events] is [None] when the field is missing
    or not an array, [skipCache] is [None] when the field is missing. *)
Record Request := {
  events : option (list CalendarEvent);
  skipCache : option bool
}.

Record Summary := {
  totalAnalyzed : nat;
  tasksThisWeek : nat;
  tasksNextWeek : nat;
  highPriorityTasks : nat
}.

Inductive Response :=
| NotAuthenticated
| InvalidRequest
| Analyzed (analyzed : nat) (tasks : UpcomingTasks) (summary : Summary).

(** Lines the route writes to the console. *)
Inductive RouteLog :=
| LogSkipCache
| LogAnalyzingCount (n total : nat).

Fixpoint filterM {A} (p : A -> M bool) (l : list A) : M (list A) :=
  match l with
  | [] => ret []
  | a :: l' =>
      let* keep := p a in
      let* rest := filterM p l' in
      ret (if keep then a :: rest else rest)
  end.

Section WithImports.
Context `{Host}.

(** The two imports the route calls and this development does not expand:
    [analyzeBatchEvents] from lib/ai/event-analyzer, at the result type
    lib/db/tasks.ts gives it, and [getOrCreateHousehold], which works on the
    user and household tables only and is taken as the function from a user
    id to the id of the user's household. *)
Variable analyzeBatchEvents : list CalendarEvent -> gmap string EventAnalysis.
Variable getOrCreateHousehold : string -> string.

(** The callback of [events.filter]: future events and events of the last
    week.  An event without a start string has an invalid date, which
    compares false. *)
Definition isRelevant (event : CalendarEvent) : M bool :=
  let eventDate :=
    match dateTime (start event) with
    | Some x => Some x
    | None => date (start event)
    end in
  let* weekAgo0 := newDate in
  let weekAgo := setDate weekAgo0 (getDate weekAgo0 - 7) in
  ret (match eventDate with
       | Some d => (weekAgo <=? d)%Z
       | None => false
       end).

(** The loop that saves to the database. *)
Fixpoint saveAll (hid : string) (analysisResults : gmap string EventAnalysis)
    (eventsToAnalyze : list CalendarEvent) : M (list (AnalyzedEvent * list Task)) :=
  match eventsToAnalyze with
  | [] => ret []
  | event :: rest =>
      match analysisResults !! ev_id event with
      | Some analysis =>
          let* saved := saveAnalyzedEvent hid event analysis in
          let* savedEvents := saveAll hid analysisResults rest in
          ret (saved :: savedEvents)
      | None => saveAll hid analysisResults rest
      end
  end.

Definition isHigh (t : Task) : bool := String.eqb (priority t) "high".

(** [POST]: [session] is the id of the signed-in user, [nodeEnv] the value of
    [process.env.NODE_ENV]. *)
Definition POST (session : option string) (nodeEnv : string) (request : Request)
    : M (Response * list RouteLog) :=
  match session with
  | None => ret (NotAuthenticated, [])
  | Some userId =>
      let skipCache := default false (skipCache request) in
      (* If skipCache is true and in development, delete existing analyses first *)
      let console1 :=
        if skipCache && String.eqb nodeEnv "development"
        then [LogSkipCache]  (* The existing upsert will handle updates automatically *)
        else [] in
      match events request with
      | None => ret (InvalidRequest, console1)
      | Some events =>
          let hid := getOrCreateHousehold userId in
          let* relevantEvents := filterM isRelevant events in
          (* Limit to 10 events to avoid rate limiting issues *)
          let eventsToAnalyze := firstn 10 relevantEvents in
          let console2 :=
            [LogAnalyzingCount (length eventsToAnalyze) (length relevantEvents)] in
          let analysisResults := analyzeBatchEvents eventsToAnalyze in
          let* savedEvents := saveAll hid analysisResults eventsToAnalyze in
          let* upcomingTasks := getUpcomingTasks hid noOptions in
          ret (Analyzed (length savedEvents) upcomingTasks
                 {| totalAnalyzed := length savedEvents;
                    tasksThisWeek := length (thisWeek upcomingTasks);
                    tasksNextWeek := length (nextWeek upcomingTasks);
                    highPriorityTasks := length (List.filter isHigh (all upcomingTasks)) |},
               (console1 ++ console2)%list)
      end
  end.

End WithImports.

End Route.

(** ** lib/db/tasks.ts: updateTaskStatus *)

Module TaskUpdates.
Import Tasks.

(** The two values the [status] parameter admits. *)
Inductive NewStatus :=
| completed
| dismissed.

Definition statusText (s : NewStatus) : string :=
  match s with
  | completed => "completed"
  | dismissed => "dismissed"
  end.

(** A task id is represented by the primary key it denotes. *)
Definition hasTaskId (taskId : nat) (t : Task) : bool :=
  Nat.eqb (task_id t) taskId.

(** The [data] of the update: the status and one of the two timestamps. *)
Definition updateData (status : NewStatus) (now : Z) (t : Task) : Task :=
  {| task_id := task_id t;
     analyzedEventId := analyzedEventId t;
     householdId := householdId t;
     title := title t;
     task_description := task_description t;
     type := type t;
     priority := priority t;
     dueDate := dueDate t;
     status := statusText status;
     completedAt :=
       match status with
       | completed => Some now
       | dismissed => completedAt t
       end;
     dismissedAt :=
       match status with
       | completed => dismissedAt t
       | dismissed => Some now
       end |}.

(** [suggestedTask.update({where: {id}, data})]: Prisma rejects when no row
    has the key. *)
Definition update (taskId : nat) (change : Task -> Task) : M (Completion Task) :=
  fun w =>
    match List.find (hasTaskId taskId) (suggestedTask w) with
    | Some t =>
        (Normal (change t),
         {| analyzedEvent := analyzedEvent w;
            suggestedTask := updateFirst (hasTaskId taskId) change (suggestedTask w);
            nextId := nextId w; ticks := ticks w |})
    | None => (Throw (ErrorObject "Record to update not found."), w)
    end.

Section WithHost.
Context `{Host}.

Definition updateTaskStatus (taskId : nat) (status : NewStatus)
    : M (Completion Task) :=
  let* now := newDate in
  update taskId (updateData status now).

End WithHost.

End TaskUpdates.

(** ** app/api/tasks/[taskId]/complete/route.ts and .../dismiss/route.ts *)

Module TaskRoutes.
Import Tasks TaskUpdates.

Inductive Response :=
| NotAuthenticated
| Success (task : Task)
| Failed.

Section WithHost.
Context `{Host}.

(** [POST] of either route; [status] is 'completed' in the one and
    'dismissed' in the other.  [session] is the id of the signed-in user. *)
Definition POST (status : NewStatus) (session : option string) (taskId : nat)
    : M Response :=
  match session with
  | None => ret NotAuthenticated
  | Some _ =>
      let* task := updateTaskStatus taskId status in
      match task with
      | Normal task => ret (Success task)
      | Throw _ => ret Failed
      end
  end.

End WithHost.

End TaskRoutes.

(** ** lib/db/tasks.ts: getOrCreateHousehold *)

Module Households.

Record User := {
  user_id : string;
  user_name : option string;
  user_householdId : option string
}.

Record Household := {
  household_id : string;
  household_name : string
}.

(** The [user] and [household] tables, and the number of household ids the
    store has issued. *)
Record Directory := {
  user : list User;
  household : list Household;
  issued : nat
}.

(** The key the store gives the k-th household it creates. *)
Class IdSource := { newId : nat -> string }.

Definition hasUserId (uid : string) (u : User) : bool :=
  String.eqb (user_id u) uid.

Definition hasHouseholdId (hid : string) (h : Household) : bool :=
  String.eqb (household_id h) hid.

(** [user.findUnique({where: {id}, include: {household: true}})] *)
Definition findUser (uid : string) (d : Directory)
    : option (User * option Household) :=
  match List.find (hasUserId uid) (user d) with
  | Some u =>
      Some (u,
            match user_householdId u with
            | Some hid => List.find (hasHouseholdId hid) (household d)
            | None => None
            end)
  | None => None
  end.

Definition connect (hid : string) (u : User) : User :=
  {| user_id := user_id u;
     user_name := user_name u;
     user_householdId := Some hid |}.

Section WithIds.
Context `{IdSource}.

(** [household.create({data: {name, users: {connect: {id}}}})]: the nested
    connect rejects, and nothing is created, when no user has the id. *)
Definition createHousehold (name : string) (uid : string) (d : Directory)
    : Completion Household * Directory :=
  match List.find (hasUserId uid) (user d) with
  | Some _ =>
      let h := {| household_id := newId (issued d); household_name := name |} in
      (Normal h,
       {| user := Tasks.updateFirst (hasUserId uid) (connect (household_id h)) (user d);
          household := household d ++ [h];
          issued := S (issued d) |})
  | None => (Throw (ErrorObject "Record to connect not found."), d)
  end.

Definition getOrCreateHousehold (userId : string) (d : Directory)
    : Completion Household * Directory :=
  (* First check if user has a household *)
  let found := findUser userId d in
  match found with
  | Some (_, Some h) => (Normal h, d)
  | _ =>
      (* Create a new household for the user *)
      let name :=
        match found with
        | Some (u, _) => orString (user_name u) "My"
        | None => "My"
        end in
      createHousehold (name ++ " Household") userId d
  end.

End WithIds.

End Households.

(** ** app/api/dev/flush/route.ts *)

Module Flush.
Import Tasks Households.

Inductive Response :=
| Forbidden
| NotAuthenticated
| NoHousehold
| Flushed (tasks events : nat).

Definition inHousehold (hid : string) (t : Task) : bool :=
  String.eqb (householdId t) hid.

Definition eventInHousehold (hid : string) (r : AnalyzedEvent) : bool :=
  String.eqb (ae_householdId r) hid.

(** [suggestedTask.deleteMany({where: {householdId}})] *)
Definition deleteTasks (hid : string) : M nat :=
  fun w =>
    (length (List.filter (inHousehold hid) (suggestedTask w)),
     {| analyzedEvent := analyzedEvent w;
        suggestedTask := List.filter (fun t => negb (inHousehold hid t)) (suggestedTask w);
        nextId := nextId w; ticks := ticks w |}).

(** [analyzedEvent.deleteMany({where: {householdId}})].  What the store does
    with a task of another household that still points at a deleted record
    depends on the schema, which is not among the sources; here such a task
    is left in place. *)
Definition deleteEvents (hid : string) : M nat :=
  fun w =>
    (length (List.filter (eventInHousehold hid) (analyzedEvent w)),
     {| analyzedEvent := List.filter (fun r => negb (eventInHousehold hid r)) (analyzedEvent w);
        suggestedTask := suggestedTask w;
        nextId := nextId w; ticks := ticks w |}).

(** [POST]: [nodeEnv] is [process.env.NODE_ENV], [session] the id of the
    signed-in user, [d] the user and household tables, which the route only
    reads. *)
Definition POST (nodeEnv : string) (session : option string) (d : Directory)
    : M Response :=
  (* Only allow in development *)
  if negb (String.eqb nodeEnv "development") then ret Forbidden
  else
    match session with
    | None => ret NotAuthenticated
    | Some userId =>
        (* Get user's household *)
        match findUser userId d with
        | Some (_, Some h) =>
            (* Delete all tasks for this household *)
            let* deletedTasks := deleteTasks (household_id h) in
            (* Delete all analyzed events for this household *)
            let* deletedEvents := deleteEvents (household_id h) in
            ret (Flushed deletedTasks deletedEvents)
        | _ => ret NoHousehold
        end
    end.

End Flush.

(** ** components/TaskList.tsx *)

Module TaskList.

Inductive DateLabel :=
| Today
| Tomorrow
| ShortDate (t : Z).

Section WithHost.
Context `{Host}.

(** [a.toDateString() === b.toDateString()]: the text names the weekday,
    month, day and year of the local date, so two instants give the same text
    exactly when they fall on the same local day. *)
Definition sameDateString (a b : Z) : bool :=
  (Day (LocalTime a) =? Day (LocalTime b))%Z.

(** [formatDate]; [k] is the number of clock readings made before the call.
    The text of the last case (weekday, month and day in en-US) is
    represented by the instant it renders. *)
Definition formatDate (date : Z) (k : nat) : DateLabel :=
  let today := clock k in
  let tomorrow := setDate today (getDate today + 1) in
  if sameDateString date today then Today
  else if sameDateString date tomorrow then Tomorrow
  else ShortDate date.

End WithHost.

End TaskList.

(** ** Vocabulary of the properties *)

Module Spec.
Import Tasks.

(** The start of an event: the instant its [start.dateTime] denotes, or else
    the one its [start.date] denotes.  An event with neither has no start of
    its own; it is taken to start at the moment it is saved, the clock
    reading due in world [w]. *)
Definition startOf `{Host} (event : CalendarEvent) (w : World) : Z :=
  match dateTime (start event), date (start event) with
  | Some instant, _ => instant
  | None, Some day => day
  | None, None => clock (ticks w)
  end.

(** Task row [t] is the materialization of suggestion [s] for an event that
    starts at [startDate], owned by analyzed event [aeid]. *)
Definition materializes (aeid : nat) (hid : string) (startDate : Z)
    (s : SuggestedTask) (t : Task) : Prop :=
  dueDate t = startDate - daysBeforeEvent s * msPerDay
  /\ status t = "pending"
  /\ analyzedEventId t = aeid
  /\ householdId t = hid
  /\ title t = st_title s
  /\ task_description t = st_description s
  /\ type t = st_type s
  /\ priority t = st_priority s.

(** The tasks an analyzed event owns, and the rows cached for an event id. *)
Definition ownedTasks (aeid : nat) (w : World) : list Task :=
  List.filter (ownedBy aeid) (suggestedTask w).

Definition rowsFor (eid : string) (w : World) : list AnalyzedEvent :=
  List.filter (hasEventId eid) (analyzedEvent w).

(** The invariant of the database: the unique index on [eventId], and
    primary keys below the counter they are drawn from. *)
Record wellFormed (w : World) : Prop := {
  wf_unique : NoDup (map ae_eventId (analyzedEvent w));
  wf_tasks : Forall (fun t => (task_id t < nextId w)%nat) (suggestedTask w);
  wf_events : Forall (fun r => (ae_id r < nextId w)%nat) (analyzedEvent w)
}.

(** World [w] with its count of clock readings set to [k]: the same
    database. *)
Definition atTick (k : nat) (w : World) : World :=
  {| analyzedEvent := analyzedEvent w; suggestedTask := suggestedTask w;
     nextId := nextId w; ticks := k |}.

(** The event already has a cached record in [w]. *)
Definition cached (event : CalendarEvent) (w : World) : Prop :=
  exists r, List.find (hasEventId (ev_id event)) (analyzedEvent w) = Some r.

Definition emptyWorld : World :=
  {| analyzedEvent := []; suggestedTask := []; nextId := 0; ticks := 0 |}.

(** Orders on task rows: by due date, and the order of the query. *)
Definition dueLe (a b : Task) : Prop := dueDate a <= dueDate b.
Definition mayPrecede (a b : Task) : Prop := orderBy a b = true.

(** The order of priorities the specification words: high before medium
    before low. *)
Definition priorityRank (p : string) : nat :=
  if String.eqb p "high" then 0
  else if String.eqb p "medium" then 1
  else if String.eqb p "low" then 2
  else 3.

(** [a] may stand before [b] in the specification's order: earlier due date,
    or the same due date and a priority at least as high. *)
Definition specBefore (a b : Task) : Prop :=
  dueDate a < dueDate b
  \/ (dueDate a = dueDate b /\ (priorityRank (priority a) <= priorityRank (priority b))%nat).

End Spec.

Module ClientSpec.

(** The event has a [start] and an [end]. *)
Definition complete (event : EventObject) : bool :=
  match obj_start event, obj_end event with
  | Some _, Some _ => true
  | _, _ => false
  end.

(** What reading [dateTime] from a missing [start] or [end] throws. *)
Definition missingTime : Thrown :=
  ErrorObject "Cannot read properties of undefined (reading 'dateTime')".

(** The number of provider calls a run over [events] makes: one for each
    event that has a start and an end. *)
Definition callsFor (events : list EventObject) : nat :=
  length (List.filter complete events).

(** The mapping built by going through the events in order.  For an event
    with a start and an end the entry of its id is set to the result of the
    provider call made for it, the call for the first such event being call
    number [k]; for an event without, no call is made and the entry is set
    to [fallback], or left alone when there is no fallback. *)
Fixpoint collect {V} (result : nat -> V) (fallback : option V) (k : nat)
    (events : list EventObject) (results : gmap string V) : gmap string V :=
  match events with
  | [] => results
  | event :: rest =>
      if complete event
      then collect result fallback (S k) rest (<[obj_id event := result k]> results)
      else collect result fallback k rest
             match fallback with
             | Some d => <[obj_id event := d]> results
             | None => results
             end
  end.

Section WithServices.
Context `{Services}.

(** The ways an analysis fails in the client with settings: the provider
    call rejects, the reply has no first block or a first block that is not
    text, or the text handed to [JSON.parse] is not JSON or is the JSON
    [null]. *)
Inductive analysisFails : CreateOutcome -> Prop :=
| fails_provider e :
    analysisFails (Rejects e)
| fails_no_block :
    analysisFails (Resolves [])
| fails_not_text rest :
    analysisFails (Resolves (OtherBlock :: rest))
| fails_unparseable text rest :
    JSON_parse (Enhanced.analysisTextOf text) = None ->
    analysisFails (Resolves (TextBlock text :: rest))
| fails_null text rest v :
    JSON_parse (Enhanced.analysisTextOf text) = Some v ->
    v = JNull \/ v = JUndefined ->
    analysisFails (Resolves (TextBlock text :: rest)).

(** The ways an analysis fails in the client without settings: as above,
    and also when the reply holds no brace-delimited span, or the parsed
    value lacks a truthy [eventType] or an array [suggestedTasks]. *)
Inductive simpleFails : CreateOutcome -> Prop :=
| sfails_provider e :
    simpleFails (Rejects e)
| sfails_no_block :
    simpleFails (Resolves [])
| sfails_not_text rest :
    simpleFails (Resolves (OtherBlock :: rest))
| sfails_no_json text rest :
    jsonMatch text = None ->
    simpleFails (Resolves (TextBlock text :: rest))
| sfails_unparseable text rest span :
    jsonMatch text = Some span ->
    JSON_parse span = None ->
    simpleFails (Resolves (TextBlock text :: rest))
| sfails_no_eventType text rest span fields :
    jsonMatch text = Some span ->
    JSON_parse span = Some (JObj fields) ->
    truthy (lookupField "eventType" fields) = false ->
    simpleFails (Resolves (TextBlock text :: rest))
| sfails_no_tasks text rest span fields :
    jsonMatch text = Some span ->
    JSON_parse span = Some (JObj fields) ->
    isArray (lookupField "suggestedTasks" fields) = false ->
    simpleFails (Resolves (TextBlock text :: rest)).

(** The value [analyzeCalendarEvent] (with settings) returns when its
    provider call is the [k]-th. *)
Definition clientResult (k : nat) : Enhanced.EventAnalysis :=
  match Enhanced.tryBlock (messages_create k) with
  | Normal analysis => analysis
  | Throw _ => Enhanced.defaultAnalysis
  end.

Definition simpleResult (k : nat) : Value :=
  match Simple.tryBlock (messages_create k) with
  | Normal analysis => analysis
  | Throw _ => Simple.defaultAnalysis
  end.

(** The mappings the two dispatchers are expected to build, the first
    provider call being call number [k]: the one with settings records its
    own default for an event without start or end, the one without settings
    records nothing for it. *)
Definition expected (k : nat) (events : list EventObject)
    (results : gmap string Enhanced.EventAnalysis)
    : gmap string Enhanced.EventAnalysis :=
  collect clientResult (Some Enhanced.dispatcherDefault) k events results.

Definition expectedSimple (k : nat) (events : list EventObject)
    (results : gmap string Value) : gmap string Value :=
  collect simpleResult None k events results.

End WithServices.

(** Console lines that do not come from a [catch] of the dispatcher. *)
Definition quiet (l : LogLine) : Prop :=
  match l with
  | ErrFailed _ _ | LogRateLimited => False
  | _ => True
  end.

(** Console lines written by the [catch] of the dispatcher. *)
Definition fromCatch (l : LogLine) : bool :=
  match l with
  | ErrFailed _ _ | LogRateLimited => true
  | _ => false
  end.

(** The "Failed to analyze" lines a run over [events] is expected to write:
    one for each event without start or end, in order. *)
Definition failures (events : list EventObject) : list LogLine :=
  map (fun event => ErrFailed (obj_id event) missingTime)
      (List.filter (fun event => negb (complete event)) events).

(** The pauses a run over [events] is expected to take: the delay between
    requests after each event that has a start and an end, unless it is the
    last of the list. *)
Definition pausesFor (events : list EventObject) : list Z :=
  map (fun _ => Enhanced.delayBetweenRequests)
      (List.filter complete (removelast events)).

(** From [st] to [st']: [m] more provider calls, no line from a [catch] of
    the dispatcher, and no pause other than the delay between requests. *)
Definition advanced (m : nat) (st st' : State) : Prop :=
  calls st' = (calls st + m)%nat
  /\ (exists extra, console st' = (console st ++ extra)%list /\ Forall quiet extra)
  /\ (exists pauses, sleeps st' = (sleeps st ++ pauses)%list
                     /\ Forall (fun ms => ms = Enhanced.delayBetweenRequests) pauses).

(** From [st] to [st']: [m] more provider calls, console lines of which
    those written by a [catch] of the dispatcher are [caught], and the pauses
    [pauses]. *)
Definition ran (m : nat) (caught : list LogLine) (pauses : list Z)
    (st st' : State) : Prop :=
  calls st' = (calls st + m)%nat
  /\ (exists lines, console st' = (console st ++ lines)%list
                    /\ List.filter fromCatch lines = caught)
  /\ sleeps st' = (sleeps st ++ pauses)%list.

End ClientSpec.

(** ** Further vocabulary *)

Module MoreSpec.
Import Tasks.

(** Character [c] occurs in [s]. *)
Fixpoint occurs (c : ascii) (s : string) : Prop :=
  match s with
  | EmptyString => False
  | String d rest => d = c \/ occurs c rest
  end.

(** Primary keys are not repeated within a table. *)
Record keysDistinct (w : World) : Prop := {
  kd_events : NoDup (map ae_id (analyzedEvent w));
  kd_tasks : NoDup (map task_id (suggestedTask w))
}.

(** The rows [saveAnalyzedEvent] inserts for a list of suggestions, the
    first of them under key [base]. *)
Fixpoint materialized (aeid : nat) (hid : string) (startDate : Z) (base : nat)
    (sts : list SuggestedTask) : list Task :=
  match sts with
  | [] => []
  | s :: rest =>
      {| task_id := base;
         analyzedEventId := aeid;
         householdId := hid;
         title := st_title s;
         task_description := st_description s;
         type := st_type s;
         priority := st_priority s;
         dueDate := startDate - daysBeforeEvent s * msPerDay;
         status := "pending";
         completedAt := None;
         dismissedAt := None |}
      :: materialized aeid hid startDate (S base) rest
  end.

(** Every task belongs to the household of the record that owns it. *)
Definition tenantConsistent (w : World) : Prop :=
  forall t r,
    In t (suggestedTask w) -> In r (analyzedEvent w) ->
    analyzedEventId t = ae_id r -> householdId t = ae_householdId r.

(** The event has a start, [start.dateTime] or else [start.date], and it is
    not before [bound]. *)
Definition startsNoEarlierThan (bound : Z) (event : CalendarEvent) : Prop :=
  exists d,
    match dateTime (start event) with
    | Some x => Some x
    | None => date (start event)
    end = Some d
    /\ bound <= d.

(** A clock that never runs backwards. *)
Definition monotone `{Host} : Prop :=
  forall i j, (i <= j)%nat -> clock i <= clock j.

End MoreSpec.

(** ** Sample data *)

Module Examples.
Import Tasks.

(** 2026-11-02T18:00:00Z *)
Definition now0 : Z := 1793642400000.

Definition utc0 : Host := frozenUTC now0.

(** An event titled "Birthday Party" that starts in ten days at 18:00, with no
    description. *)
Definition birthdayParty : CalendarEvent :=
  {| ev_id := "evt-party";
     summary := Some "Birthday Party";
     description := None;
     location := None;
     start := {| dateTime := Some (now0 + 10 * msPerDay); date := None |};
     end_ := {| dateTime := Some (now0 + 10 * msPerDay + 3 * 3600000); date := None |} |}.

(** The party as the analyzers receive it, and as a request may carry it:
    with a start and no end. *)
Definition party : EventObject := asObject birthdayParty.

Definition partyWithoutEnd : EventObject :=
  {| obj_id := "evt-party";
     obj_summary := Some "Birthday Party";
     obj_description := None;
     obj_location := None;
     obj_start := Some (start birthdayParty);
     obj_end := None |}.

Definition bookBabysitter : SuggestedTask :=
  {| st_title := "Book babysitter";
     st_type := "booking";
     daysBeforeEvent := 7;
     st_priority := "high";
     st_description := None |}.

Definition buyGift : SuggestedTask :=
  {| st_title := "Buy a gift";
     st_type := "shopping";
     daysBeforeEvent := 3;
     st_priority := "medium";
     st_description := None |}.

Definition partyAnalysis : EventAnalysis :=
  {| eventType := "social";
     requiresSitter := true;
     requiresTravel := false;
     requiresFormalAttire := false;
     suggestedTasks := [bookBabysitter];
     preparations := [];
     notes := "";
     forceReanalysis := false |}.

(** A second, different analysis of the same event, with the re-analysis
    flag on the object. *)
Definition partyReanalysis : EventAnalysis :=
  {| eventType := "family";
     requiresSitter := false;
     requiresTravel := false;
     requiresFormalAttire := false;
     suggestedTasks := [buyGift];
     preparations := [];
     notes := "";
     forceReanalysis := true |}.

(** The database after the first analysis of the party has been saved. *)
Definition partySaved : World :=
  snd (@saveAnalyzedEvent utc0 "household-1" birthdayParty partyAnalysis
         {| analyzedEvent := []; suggestedTask := []; nextId := 0; ticks := 0 |}).

Definition pendingTask (i : nat) (p : string) (due : Z) : Task :=
  {| task_id := i;
     analyzedEventId := 0;
     householdId := "household-1";
     title := "task";
     task_description := None;
     type := "reminder";
     priority := p;
     dueDate := due;
     status := "pending";
     completedAt := None;
     dismissedAt := None |}.

(** One pending task that was due yesterday. *)
Definition dueYesterday : Task := pendingTask 1 "high" (now0 - msPerDay).

Definition worldWithOverdue : World :=
  {| analyzedEvent := []; suggestedTask := [dueYesterday]; nextId := 2; ticks := 0 |}.

(** Two pending tasks due at the same instant, one of high and one of medium
    priority. *)
Definition highTask : Task := pendingTask 1 "high" (now0 + 2 * msPerDay).
Definition mediumTask : Task := pendingTask 2 "medium" (now0 + 2 * msPerDay).

Definition worldWithTie : World :=
  {| analyzedEvent := []; suggestedTask := [highTask; mediumTask]; nextId := 3; ticks := 0 |}.

(** Tasks due at now-1d, now+2d, now+10d and now+20d. *)
Definition worldWithFour : World :=
  {| analyzedEvent := [];
     suggestedTask := [ pendingTask 1 "high" (now0 - msPerDay);
                        pendingTask 2 "high" (now0 + 2 * msPerDay);
                        pendingTask 3 "low" (now0 + 10 * msPerDay);
                        pendingTask 4 "medium" (now0 + 20 * msPerDay) ];
     nextId := 5; ticks := 0 |}.

(** What a fresh analysis of the party would be, as an analyzer returns it:
    without the re-analysis property. *)
Definition partySecondOpinion : EventAnalysis :=
  {| eventType := "family";
     requiresSitter := false;
     requiresTravel := false;
     requiresFormalAttire := false;
     suggestedTasks := [buyGift];
     preparations := [];
     notes := "";
     forceReanalysis := false |}.

Definition mockAnalyzer (events : list CalendarEvent) : gmap string EventAnalysis :=
  {[ "evt-party" := partySecondOpinion ]}.

Definition mockHousehold (userId : string) : string := "household-1".

(** The development request that asks to skip the cache. *)
Definition skipCacheRequest : Route.Request :=
  {| Route.events := Some [birthdayParty]; Route.skipCache := Some true |}.

(** [JSON.parse] on the texts the samples use: the empty object, a number,
    and texts that are not JSON. *)
Definition sampleParse (s : string) : option Value :=
  if String.eqb s "{}" then Some (JObj [])
  else if String.eqb s "42" then Some (JNum 42)
  else None.

Definition rateLimited : Thrown := ErrorObject "429 rate_limit_error".
Definition overloaded : Thrown := ErrorObject "529 overloaded_error".

(** A provider whose first call is rate limited, whose second call answers
    with an empty object, whose third call answers in prose, and which
    answers with a bare number from then on. *)
Definition sampleServices : Services :=
  {| messages_create := fun k =>
       match k with
       | O => Rejects rateLimited
       | 1%nat => Resolves [TextBlock "Here is the analysis: {} I hope it helps."]
       | 2%nat => Resolves [TextBlock "I could not analyze this event."]
       | _ => Resolves [TextBlock "42"]
       end;
     JSON_parse := sampleParse |}.

Definition afterCalls (k : nat) : State :=
  {| calls := k; console := []; sleeps := [] |}.

Definition socialAnalysis : Enhanced.EventAnalysis :=
  {| Enhanced.eventType := JStr "social";
     Enhanced.requiresSitter := JBool true;
     Enhanced.requiresTravel := JBool false;
     Enhanced.requiresFormalAttire := JBool false;
     Enhanced.tasks := JArr [];
     Enhanced.reasoning := JStr "An evening party";
     Enhanced.confidence := JNum (9 # 10)%Q |}.

(** Clients that let errors through, to exercise the dispatcher's [catch]:
    one that is rate limited on the first call and succeeds afterwards, one
    that is always rate limited, and one that fails with another error. *)
Definition flakyClient (event : EventObject) (st : State)
    : Completion Enhanced.EventAnalysis * State :=
  match calls st with
  | O => (Throw rateLimited, called st)
  | _ => (Normal socialAnalysis, called st)
  end.

Definition limitedClient (event : EventObject) (st : State)
    : Completion Enhanced.EventAnalysis * State :=
  (Throw rateLimited, called st).

Definition brokenClient (event : EventObject) (st : State)
    : Completion Enhanced.EventAnalysis * State :=
  (Throw overloaded, called st).

End Examples.

(** ** Further sample data *)

Module MoreExamples.
Import Tasks Examples.

(** A host in UTC whose clock advances one millisecond per reading. *)
Definition tickingUTC : Host :=
  {| LocalTZA := 0; MonthStart := gregorianMonthStart;
     clock := fun k => now0 + Z.of_nat k |}.

(** The party delivered twice by the calendar source, the second time with
    another title. *)
Definition partyAgain : CalendarEvent :=
  {| ev_id := "evt-party";
     summary := Some "Birthday Party (moved)";
     description := None;
     location := None;
     start := {| dateTime := Some (now0 + 11 * msPerDay); date := None |};
     end_ := {| dateTime := Some (now0 + 11 * msPerDay + 3 * 3600000); date := None |} |}.

(** An event that starts tomorrow, with a task to book a sitter seven days
    ahead. *)
Definition dinnerTomorrow : CalendarEvent :=
  {| ev_id := "evt-dinner";
     summary := Some "Dinner";
     description := None;
     location := None;
     start := {| dateTime := Some (now0 + msPerDay); date := None |};
     end_ := {| dateTime := Some (now0 + msPerDay + 7200000); date := None |} |}.

(** An event that started ten days ago. *)
Definition oldMeeting : CalendarEvent :=
  {| ev_id := "evt-old";
     summary := Some "Meeting";
     description := None;
     location := None;
     start := {| dateTime := Some (now0 - 10 * msPerDay); date := None |};
     end_ := {| dateTime := Some (now0 - 10 * msPerDay + 3600000); date := None |} |}.

(** The key of the task stored for the party. *)
Definition sampleTaskKey : nat :=
  match suggestedTask partySaved with
  | t :: _ => task_id t
  | [] => O
  end.

Definition ids : Households.IdSource :=
  {| Households.newId := fun k => String "h" (String (ascii_of_nat (48 + k)) EmptyString) |}.

(** One signed-up user who has no household yet. *)
Definition oneUser : Households.Directory :=
  {| Households.user :=
       [ {| Households.user_id := "user-1";
            Households.user_name := Some "Erin";
            Households.user_householdId := None |} ];
     Households.household := [];
     Households.issued := 0 |}.

(** The directory in which user-1 belongs to household-1. *)
Definition householdOne : Households.Directory :=
  {| Households.user :=
       [ {| Households.user_id := "user-1";
            Households.user_name := Some "Erin";
            Households.user_householdId := Some "household-1" |} ];
     Households.household :=
       [ {| Households.household_id := "household-1";
            Households.household_name := "Erin Household" |} ];
     Households.issued := 1 |}.

End MoreExamples.

(* ================================================================== *)
(** * Part II: properties *)
(* ================================================================== *)

Import Tasks Spec.
Open Scope list_scope.
Open Scope Z_scope.

(** ** Dates *)

Section DateFacts.
Context `{Host}.

Lemma Day_TimeWithinDay (t : Z) : MakeDate (Day t) (TimeWithinDay t) = t.
Proof.
  unfold MakeDate, Day, TimeWithinDay, msPerDay.
  pose proof (Z.div_mod t 86400000). lia.
Qed.

(** Moving the day of the month by [n] moves the instant by [n] days. *)
Lemma setDate_getDate_plus (t n : Z) :
  setDate t (getDate t + n) = t + n * msPerDay.
Proof.
  unfold setDate, getDate, UTC, LocalTime.
  pose proof (Day_TimeWithinDay (t + LocalTZA)) as E.
  unfold MakeDate in *. lia.
Qed.

Lemma setDate_getDate_minus (t n : Z) :
  setDate t (getDate t - n) = t - n * msPerDay.
Proof.
  replace (getDate t - n) with (getDate t + - n) by lia.
  rewrite setDate_getDate_plus. lia.
Qed.

End DateFacts.

(** ** The Task Materializer *)

Lemma bind_run {A B} (m : M A) (k : A -> M B) (w w' : World) (a : A) :
  m w = (a, w') -> bind m k w = k a w'.
Proof. intros E. unfold bind. rewrite E. reflexivity. Qed.

Section MaterializerFacts.
Context `{Host}.

(** Reading the clock leaves the tables alone. *)
Lemma resolveDate_tables (t : EventTime) (w : World) :
  exists k,
    resolveDate t w =
    (fst (resolveDate t w),
     {| analyzedEvent := analyzedEvent w; suggestedTask := suggestedTask w;
        nextId := nextId w; ticks := k |}).
Proof.
  unfold resolveDate, ret, newDate.
  destruct (dateTime t); [|destruct (date t)]; destruct w; simpl; eauto.
Qed.

(** The instant [saveAnalyzedEvent] computes as [startDate] is the start of
    the event. *)
Lemma resolveDate_start (event : CalendarEvent) (w : World) :
  fst (resolveDate (start event) w) = startOf event w.
Proof.
  unfold resolveDate, startOf, ret, newDate.
  destruct (dateTime (start event)); [|destruct (date (start event))];
    reflexivity.
Qed.

(** Creating the rows of a list of suggestions, one after the other. *)
Lemma mapM_create (aeid : nat) (hid : string) (startDate : Z)
    (sts : list SuggestedTask) (w : World) :
  exists rows,
    mapM (fun task =>
            create aeid hid task
              (setDate startDate (getDate startDate - daysBeforeEvent task)))
         sts w =
    (rows,
     {| analyzedEvent := analyzedEvent w;
        suggestedTask := suggestedTask w ++ rows;
        nextId := nextId w + length sts;
        ticks := ticks w |})
    /\ Forall2 (materializes aeid hid startDate) sts rows
    /\ Forall (fun t => (nextId w <= task_id t < nextId w + length sts)%nat) rows.
Proof.
  revert w. induction sts as [|s sts IH]; intros w.
  - exists []. simpl. unfold ret. destruct w; simpl.
    rewrite app_nil_r, Nat.add_0_r. auto.
  - simpl. erewrite bind_run by (unfold create; reflexivity).
    match goal with |- context [bind (mapM ?f sts) _ ?w1] =>
      destruct (IH w1) as (rows & E & F2 & Fid) end.
    eexists. erewrite bind_run by exact E. unfold ret. simpl in *.
    split; [|split].
    + rewrite <- app_assoc. simpl. f_equal. f_equal. lia.
    + constructor; [|exact F2].
      unfold materializes. simpl. rewrite setDate_getDate_minus. tauto.
    + constructor; [simpl; lia|].
      eapply Forall_impl; [exact Fid|]. simpl. intros; lia.
Qed.

(** The cache-hit path: nothing is written, the stored record is returned
    with the tasks it owns. *)
Lemma save_cached (hid : string) (event : CalendarEvent)
    (analysis : EventAnalysis) (w : World) (r : AnalyzedEvent) :
  List.find (hasEventId (ev_id event)) (analyzedEvent w) = Some r ->
  forceReanalysis analysis = false ->
  exists k,
    saveAnalyzedEvent hid event analysis w =
    ((r, ownedTasks (ae_id r) w),
     {| analyzedEvent := analyzedEvent w; suggestedTask := suggestedTask w;
        nextId := nextId w; ticks := k |}).
Proof.
  intros Hfind Hforce. unfold saveAnalyzedEvent.
  destruct (resolveDate_tables (start event) w) as [k1 E1].
  rewrite (bind_run _ _ _ _ _ E1).
  match goal with |- context [bind (resolveDate (end_ event)) _ ?w1] =>
    destruct (resolveDate_tables (end_ event) w1) as [k2 E2] end.
  rewrite (bind_run _ _ _ _ _ E2). simpl.
  erewrite bind_run by (unfold findUnique; simpl; rewrite Hfind; reflexivity).
  rewrite Hforce. simpl. unfold ret. eauto.
Qed.

(** The write path: the record is created or overwritten, the tasks it owned
    are deleted, and one task is created for each suggestion. *)
Lemma save_write (hid : string) (event : CalendarEvent)
    (analysis : EventAnalysis) (w : World) :
  List.find (hasEventId (ev_id event)) (analyzedEvent w) = None
  \/ forceReanalysis analysis = true ->
  exists ae rows endDate now k,
    saveAnalyzedEvent hid event analysis w =
    ((ae, rows),
     {| analyzedEvent :=
          match List.find (hasEventId (ev_id event)) (analyzedEvent w) with
          | Some _ =>
              updateFirst (hasEventId (ev_id event))
                (updateRow event (startOf event w) endDate analysis now)
                (analyzedEvent w)
          | None => analyzedEvent w ++ [ae]
          end;
        suggestedTask :=
          List.filter (fun t => negb (ownedBy (ae_id ae) t)) (suggestedTask w) ++ rows;
        nextId :=
          match List.find (hasEventId (ev_id event)) (analyzedEvent w) with
          | Some _ => nextId w
          | None => S (nextId w)
          end + length (suggestedTasks analysis);
        ticks := k |})
    /\ ae = match List.find (hasEventId (ev_id event)) (analyzedEvent w) with
            | Some r => updateRow event (startOf event w) endDate analysis now r
            | None => createRow (nextId w) hid event (startOf event w) endDate analysis
            end
    /\ Forall2 (materializes (ae_id ae) hid (startOf event w))
               (suggestedTasks analysis) rows
    /\ Forall (fun t =>
                 (match List.find (hasEventId (ev_id event)) (analyzedEvent w) with
                  | Some _ => nextId w
                  | None => S (nextId w)
                  end <= task_id t
                  < match List.find (hasEventId (ev_id event)) (analyzedEvent w) with
                    | Some _ => nextId w
                    | None => S (nextId w)
                    end + length (suggestedTasks analysis))%nat) rows.
Proof.
  intros Hwrite. unfold saveAnalyzedEvent.
  destruct (resolveDate_tables (start event) w) as [k1 E1].
  rewrite (bind_run _ _ _ _ _ E1). rewrite (resolveDate_start event w).
  match goal with |- context [bind (resolveDate (end_ event)) _ ?w1] =>
    destruct (resolveDate_tables (end_ event) w1) as [k2 E2];
    set (endDate := fst (resolveDate (end_ event) w1)) in * end.
  rewrite (bind_run _ _ _ _ _ E2). simpl.
  erewrite bind_run by (unfold findUnique; simpl; reflexivity).
  set (now := clock k2).
  destruct (List.find (hasEventId (ev_id event)) (analyzedEvent w)) as [r|] eqn:Hfind.
  - destruct Hwrite as [Hw | Hw]; [discriminate|]. rewrite Hw. simpl.
    erewrite bind_run by (unfold newDate; simpl; reflexivity).
    erewrite bind_run by (unfold upsert; simpl; rewrite Hfind; reflexivity).
    erewrite bind_run by (unfold deleteMany; simpl; reflexivity).
    match goal with |- context [bind (mapM ?f ?l) _ ?w1] =>
      destruct (mapM_create (ae_id r) hid (startOf event w) l w1)
        as (rows & E & F2 & Fid) end.
    simpl in E. erewrite bind_run by exact E. unfold ret. simpl in *.
    exists (updateRow event (startOf event w) endDate analysis now r), rows,
      endDate, now, (S k2).
    repeat split; auto.
  - erewrite bind_run by (unfold newDate; simpl; reflexivity).
    erewrite bind_run by (unfold upsert; simpl; rewrite Hfind; reflexivity).
    erewrite bind_run by (unfold deleteMany; simpl; reflexivity).
    match goal with |- context [bind (mapM ?f ?l) _ ?w1] =>
      destruct (mapM_create (nextId w) hid (startOf event w) l w1)
        as (rows & E & F2 & Fid) end.
    simpl in E. erewrite bind_run by exact E. unfold ret. simpl in *.
    exists (createRow (nextId w) hid event (startOf event w) endDate analysis),
      rows, endDate, now, (S k2).
    repeat split; auto.
Qed.

(** Facts about the list operations behind the tables. *)

Lemma find_updateFirst {A} (p : A -> bool) (f : A -> A) (l : list A) (r : A) :
  List.find p l = Some r -> p (f r) = true ->
  List.find p (updateFirst p f l) = Some (f r).
Proof.
  induction l as [|x l IH]; simpl; [discriminate|].
  destruct (p x) eqn:Px.
  - intros [= ->] Pf. simpl. rewrite Pf. reflexivity.
  - intros Hf Pf. simpl. rewrite Px. auto.
Qed.

Lemma find_none_filter {A} (p : A -> bool) (l : list A) :
  List.find p l = None -> List.filter p l = [].
Proof.
  induction l as [|x l IH]; simpl; [reflexivity|].
  destruct (p x); [discriminate|auto].
Qed.

Lemma find_app_new {A} (p : A -> bool) (l : list A) (x : A) :
  List.find p l = None -> p x = true -> List.find p (l ++ [x]) = Some x.
Proof.
  induction l as [|y l IH]; simpl.
  - intros _ ->. reflexivity.
  - destruct (p y); [discriminate|auto].
Qed.

Lemma hasEventId_true (eid : string) (r : AnalyzedEvent) :
  hasEventId eid r = true <-> ae_eventId r = eid.
Proof. unfold hasEventId. apply String.eqb_eq. Qed.

Lemma map_eventId_updateFirst (p : AnalyzedEvent -> bool)
    (f : AnalyzedEvent -> AnalyzedEvent) (l : list AnalyzedEvent) :
  (forall r, ae_eventId (f r) = ae_eventId r) ->
  map ae_eventId (updateFirst p f l) = map ae_eventId l.
Proof.
  intros Hf. induction l as [|x l IH]; simpl; [reflexivity|].
  destruct (p x); simpl; [rewrite Hf|rewrite IH]; reflexivity.
Qed.

(** Under the unique index, the row found for an event id is the only row
    with that id. *)
Lemma unique_rows (eid : string) (l : list AnalyzedEvent) (r : AnalyzedEvent) :
  NoDup (map ae_eventId l) ->
  List.find (hasEventId eid) l = Some r ->
  List.filter (hasEventId eid) l = [r].
Proof.
  induction l as [|x l IH]; simpl; [discriminate|].
  intros Hnd Hfind. apply NoDup_cons in Hnd as [Hx Hnd].
  destruct (hasEventId eid x) eqn:Px.
  - injection Hfind as ->. f_equal.
    apply hasEventId_true in Px.
    destruct (List.filter (hasEventId eid) l) as [|y ys] eqn:Hfl; [reflexivity|].
    exfalso. apply Hx.
    assert (Hy : In y (List.filter (hasEventId eid) l)) by (rewrite Hfl; left; reflexivity).
    apply filter_In in Hy as [Hy Py]. apply hasEventId_true in Py.
    apply list_elem_of_In. rewrite Px, <- Py. apply in_map. exact Hy.
  - auto.
Qed.

Lemma unique_rows_updated (eid : string) (f : AnalyzedEvent -> AnalyzedEvent)
    (l : list AnalyzedEvent) (r : AnalyzedEvent) :
  (forall x, ae_eventId (f x) = ae_eventId x) ->
  NoDup (map ae_eventId l) ->
  List.find (hasEventId eid) l = Some r ->
  List.filter (hasEventId eid) (updateFirst (hasEventId eid) f l) = [f r].
Proof.
  intros Hf Hnd Hfind. apply unique_rows.
  - rewrite map_eventId_updateFirst; assumption.
  - apply find_updateFirst; [assumption|].
    apply hasEventId_true. rewrite Hf. apply hasEventId_true.
    apply find_some in Hfind. tauto.
Qed.

(** After the delete and the inserts, the record owns the new rows only. *)
Lemma owned_after_replace (aeid : nat) (old rows : list Task) :
  Forall (fun t => analyzedEventId t = aeid) rows ->
  List.filter (ownedBy aeid)
    (List.filter (fun t => negb (ownedBy aeid t)) old ++ rows) = rows.
Proof.
  intros Hrows. rewrite List.filter_app.
  assert (E1 : List.filter (ownedBy aeid)
                 (List.filter (fun t => negb (ownedBy aeid t)) old) = []).
  { induction old as [|t old IH]; simpl; [reflexivity|].
    destruct (ownedBy aeid t) eqn:Ot; simpl; [exact IH|].
    rewrite Ot. exact IH. }
  rewrite E1. simpl.
  induction Hrows as [|t rows Ht _ IH]; simpl; [reflexivity|].
  unfold ownedBy at 1. rewrite Ht, Nat.eqb_refl. f_equal. exact IH.
Qed.

Lemma materializes_owned (aeid : nat) (hid : string) (startDate : Z)
    (sts : list SuggestedTask) (rows : list Task) :
  Forall2 (materializes aeid hid startDate) sts rows ->
  Forall (fun t => analyzedEventId t = aeid) rows.
Proof.
  induction 1 as [|s t sts rows Hm _ IH]; constructor; [|exact IH].
  unfold materializes in Hm. tauto.
Qed.

Lemma updateRow_eventId (event : CalendarEvent) (s e : Z)
    (analysis : EventAnalysis) (now : Z) (r : AnalyzedEvent) :
  ae_eventId (updateRow event s e analysis now r) = ae_eventId r.
Proof. reflexivity. Qed.

(** The invariant of the database holds initially and is kept by
    [saveAnalyzedEvent]. *)
Lemma emptyWorld_wellFormed : wellFormed emptyWorld.
Proof. split; simpl; constructor. Qed.

Lemma save_wellFormed (hid : string) (event : CalendarEvent)
    (analysis : EventAnalysis) (w : World) :
  wellFormed w -> wellFormed (snd (saveAnalyzedEvent hid event analysis w)).
Proof.
  intros [Hu Ht He].
  destruct (List.find (hasEventId (ev_id event)) (analyzedEvent w)) as [r|] eqn:Hfind;
    [destruct (forceReanalysis analysis) eqn:Hforce|].
  - destruct (save_write hid event analysis w (or_intror Hforce))
      as (ae & rows & endDate & now & k & E & Hae & F2 & Fid).
    rewrite Hfind in E, Hae, Fid. rewrite E. simpl. split; simpl.
    + rewrite map_eventId_updateFirst; [assumption|reflexivity].
    + apply Forall_app. split.
      * apply List.Forall_forall. intros t Hin. apply filter_In in Hin as [Hin _].
        rewrite List.Forall_forall in Ht. specialize (Ht t Hin). lia.
      * eapply Forall_impl; [exact Fid|]. simpl. intros; lia.
    + apply List.Forall_forall. intros x Hin.
      assert (Hx : exists y, In y (analyzedEvent w) /\ ae_id x = ae_id y).
      { clear - Hin. induction (analyzedEvent w) as [|y l IH]; simpl in *; [tauto|].
        destruct (hasEventId (ev_id event) y).
        - destruct Hin as [E | Hin]; [exists y; rewrite <- E; simpl; auto|exists x; auto].
        - destruct Hin as [E | Hin]; [exists y; rewrite E; auto|].
          destruct (IH Hin) as (z & Hz & Ez). exists z; auto. }
      destruct Hx as (y & Hy & ->).
      rewrite List.Forall_forall in He. specialize (He y Hy). lia.
  - destruct (save_cached hid event analysis w r Hfind Hforce) as [k E].
    rewrite E. simpl. split; simpl; assumption.
  - destruct (save_write hid event analysis w (or_introl Hfind))
      as (ae & rows & endDate & now & k & E & Hae & F2 & Fid).
    rewrite Hfind in E, Hae, Fid. rewrite E. simpl. subst ae. split; simpl.
    + rewrite map_app. simpl. apply NoDup_app. split; [assumption|]. split.
      * intros x Hx Hin. apply list_elem_of_In in Hin. simpl in Hin.
        destruct Hin as [<- | []].
        apply list_elem_of_In, in_map_iff in Hx as (y & Ey & Hy).
        apply (find_none _ _ Hfind) in Hy.
        apply hasEventId_true in Ey. congruence.
      * apply NoDup_singleton.
    + apply Forall_app. split.
      * apply List.Forall_forall. intros t Hin. apply filter_In in Hin as [Hin _].
        rewrite List.Forall_forall in Ht. specialize (Ht t Hin). lia.
      * eapply Forall_impl; [exact Fid|]. simpl. intros; lia.
    + apply Forall_app. split.
      * eapply Forall_impl; [exact He|]. simpl. intros; lia.
      * constructor; [simpl; lia|constructor].
Qed.

End MaterializerFacts.

Section MaterializerClaims.
Context `{Host}.


(** C6.  Saving the same event and analysis a second time without the
    re-analysis flag changes nothing: the second call returns the record and
    tasks the first call returned, the tables are the same, the table holds
    exactly one analyzed event for the event id, and that record owns exactly
    the tasks of the first call. *)
Theorem save_twice_is_idempotent (hid : string) (event : CalendarEvent)
    (analysis : EventAnalysis) (w : World) :
  wellFormed w ->
  forceReanalysis analysis = false ->
  let '(r1, w1) := saveAnalyzedEvent hid event analysis w in
  let '(r2, w2) := saveAnalyzedEvent hid event analysis w1 in
  r2 = r1
  /\ analyzedEvent w2 = analyzedEvent w1
  /\ suggestedTask w2 = suggestedTask w1
  /\ rowsFor (ev_id event) w2 = [fst r1]
  /\ ownedTasks (ae_id (fst r1)) w2 = snd r1.
Proof.
  intros [Hu Ht He] Hforce.
  destruct (List.find (hasEventId (ev_id event)) (analyzedEvent w)) as [r|] eqn:Hfind.
  - destruct (save_cached hid event analysis w r Hfind Hforce) as [k E].
    rewrite E.
    match goal with |- context [saveAnalyzedEvent hid event analysis ?w1] =>
      destruct (save_cached hid event analysis w1 r Hfind Hforce) as [k' E'] end.
    rewrite E'. simpl. unfold rowsFor, ownedTasks. simpl.
    repeat split; auto using unique_rows.
  - destruct (save_write hid event analysis w (or_introl Hfind))
      as (ae & rows & endDate & now & k & E & Hae & F2 & Fid).
    rewrite Hfind in E, Hae. rewrite E.
    assert (Hown : List.filter (ownedBy (ae_id ae))
                     (List.filter (fun t => negb (ownedBy (ae_id ae) t)) (suggestedTask w)
                      ++ rows) = rows).
    { apply owned_after_replace. eapply materializes_owned. exact F2. }
    assert (Hid : hasEventId (ev_id event) ae = true).
    { subst ae. apply hasEventId_true. reflexivity. }
    match goal with |- context [saveAnalyzedEvent hid event analysis ?w1] =>
      destruct (save_cached hid event analysis w1 ae
                  (find_app_new _ _ _ Hfind Hid) Hforce) as [k' E'] end.
    rewrite E'. simpl. unfold rowsFor, ownedTasks. simpl.
    rewrite Hown. repeat split; auto.
    rewrite List.filter_app, (find_none_filter _ _ Hfind). simpl.
    rewrite Hid. reflexivity.
Qed.

(** C7.  Saving a second analysis for an event that already has a record,
    with the re-analysis flag set, overwrites that record in place (same
    primary key, still the only record for the event id, now caching the new
    analysis), and leaves it owning exactly the tasks materialized from the
    new analysis's suggestions; none of the tasks it owned before is in the
    task table any more. *)
Theorem forced_reanalysis_replaces_tasks (hid : string) (event : CalendarEvent)
    (analysis : EventAnalysis) (w : World) (r : AnalyzedEvent) :
  wellFormed w ->
  List.find (hasEventId (ev_id event)) (analyzedEvent w) = Some r ->
  forceReanalysis analysis = true ->
  let '((ae, tasks), w') := saveAnalyzedEvent hid event analysis w in
  ae_id ae = ae_id r
  /\ analysisData ae = analysis
  /\ rowsFor (ev_id event) w' = [ae]
  /\ ownedTasks (ae_id ae) w' = tasks
  /\ Forall2 (materializes (ae_id ae) hid (startOf event w))
             (suggestedTasks analysis) tasks
  /\ (forall t, In t (ownedTasks (ae_id r) w) -> ~ In t (suggestedTask w')).
Proof.
  intros [Hu Ht He] Hfind Hforce.
  destruct (save_write hid event analysis w (or_intror Hforce))
    as (ae & rows & endDate & now & k & E & Hae & F2 & Fid).
  rewrite Hfind in E, Hae, Fid. rewrite E. subst ae.
  unfold rowsFor, ownedTasks. simpl.
  split; [reflexivity|]. split; [reflexivity|]. split.
  { apply unique_rows_updated; auto. }
  split.
  { apply owned_after_replace. eapply materializes_owned. exact F2. }
  split; [exact F2|].
  intros t Hin Hin'. apply filter_In in Hin as [Hin Hown].
  apply in_app_or in Hin' as [Hold | Hnew].
  - apply filter_In in Hold as [_ Hneg]. simpl in Hneg.
    rewrite Hown in Hneg. discriminate.
  - rewrite List.Forall_forall in Ht, Fid.
    specialize (Ht t Hin). specialize (Fid t Hnew). lia.
Qed.

End MaterializerClaims.


Lemma save_twice_is_idempotent_witness :
  let '(r1, w1) :=
    @saveAnalyzedEvent Examples.utc0 "household-1" Examples.birthdayParty
      Examples.partyAnalysis emptyWorld in
  let '(r2, w2) :=
    @saveAnalyzedEvent Examples.utc0 "household-1" Examples.birthdayParty
      Examples.partyAnalysis w1 in
  r2 = r1
  /\ analyzedEvent w2 = analyzedEvent w1
  /\ suggestedTask w2 = suggestedTask w1
  /\ rowsFor (ev_id Examples.birthdayParty) w2 = [fst r1]
  /\ ownedTasks (ae_id (fst r1)) w2 = snd r1.
Proof.
  apply (@save_twice_is_idempotent Examples.utc0 "household-1"
           Examples.birthdayParty Examples.partyAnalysis emptyWorld).
  - exact emptyWorld_wellFormed.
  - reflexivity.
Defined.

Lemma partySaved_wellFormed : wellFormed Examples.partySaved.
Proof. apply save_wellFormed. exact emptyWorld_wellFormed. Qed.

Lemma forced_reanalysis_replaces_tasks_witness :
  exists r,
    List.find (hasEventId (ev_id Examples.birthdayParty))
      (analyzedEvent Examples.partySaved) = Some r
    /\ let '((ae, tasks), w') :=
         @saveAnalyzedEvent Examples.utc0 "household-1" Examples.birthdayParty
           Examples.partyReanalysis Examples.partySaved in
       ae_id ae = ae_id r
       /\ analysisData ae = Examples.partyReanalysis
       /\ rowsFor (ev_id Examples.birthdayParty) w' = [ae]
       /\ ownedTasks (ae_id ae) w' = tasks
       /\ Forall2 (materializes (ae_id ae) "household-1"
                     (@startOf Examples.utc0 Examples.birthdayParty Examples.partySaved))
                  (suggestedTasks Examples.partyReanalysis) tasks
       /\ (forall t, In t (ownedTasks (ae_id r) Examples.partySaved) ->
                     ~ In t (suggestedTask w')).
Proof.
  eexists. split; [reflexivity|].
  apply (@forced_reanalysis_replaces_tasks Examples.utc0 "household-1"
           Examples.birthdayParty Examples.partyReanalysis Examples.partySaved).
  - exact partySaved_wellFormed.
  - reflexivity.
  - reflexivity.
Defined.

(** The specification's end-to-end scenario: the party starts in ten days,
    the analysis suggests booking a babysitter seven days before.  One task
    is stored, pending, due three days from now, that is, seven days before
    the party. *)
Example birthday_party_end_to_end :
  let '((ae, tasks), w') :=
    @saveAnalyzedEvent Examples.utc0 "household-1" Examples.birthdayParty
      Examples.partyAnalysis emptyWorld in
  map title tasks = ["Book babysitter"]
  /\ map status tasks = ["pending"]
  /\ map dueDate tasks = [Examples.now0 + 3 * msPerDay]
  /\ map dueDate tasks = [eventStart ae - 7 * msPerDay]
  /\ suggestedTask w' = tasks
  /\ eventTitle ae = "Birthday Party"
  /\ ae_requiresSitter ae = true.
Proof. vm_compute. repeat split. Qed.

(** ** The Task Bucketizer *)

Section SortFacts.

Lemma insertOrdered_perm (x : Task) (l : list Task) :
  Permutation (insertOrdered x l) (x :: l).
Proof.
  induction l as [|y l IH]; simpl; [reflexivity|].
  destruct (orderBy x y); [reflexivity|].
  rewrite IH. apply perm_swap.
Qed.

Lemma sortRows_perm (l : list Task) : Permutation (sortRows l) l.
Proof.
  induction l as [|x l IH]; simpl; [reflexivity|].
  rewrite insertOrdered_perm. constructor. exact IH.
Qed.

Lemma sortRows_In (l : list Task) (t : Task) : In t (sortRows l) <-> In t l.
Proof.
  split; apply Permutation_in; [|symmetry]; apply sortRows_perm.
Qed.

(** What the order says about due dates. *)
Lemma orderBy_due (a b : Task) : orderBy a b = true -> dueDate a <= dueDate b.
Proof. unfold orderBy. lia. Qed.

Lemma not_orderBy_due (a b : Task) : orderBy a b = false -> dueDate b <= dueDate a.
Proof. unfold orderBy. lia. Qed.

Lemma textLt_asym (a b : string) : textLt a b = true -> textLt b a = false.
Proof.
  unfold textLt, String.ltb. rewrite (String.compare_antisym a b).
  destruct (String.compare b a); simpl; congruence.
Qed.

(** The order is total: of two rows, one may stand before the other. *)
Lemma orderBy_total (a b : Task) : orderBy a b = false -> orderBy b a = true.
Proof.
  unfold orderBy. intros Hab.
  destruct (Z.ltb_spec (dueDate a) (dueDate b)); [discriminate|].
  destruct (Z.eqb_spec (dueDate a) (dueDate b)) as [E|NE]; simpl in Hab.
  - rewrite E, Z.ltb_irrefl, Z.eqb_refl. simpl.
    destruct (textLt (priority a) (priority b)) eqn:Hlt; [|discriminate].
    rewrite (textLt_asym _ _ Hlt). reflexivity.
  - destruct (Z.ltb_spec (dueDate b) (dueDate a)); [reflexivity|lia].
Qed.

Lemma insertOrdered_dueSorted (x : Task) (l : list Task) :
  StronglySorted dueLe l -> StronglySorted dueLe (insertOrdered x l).
Proof.
  induction 1 as [|y l Hs IH Hy]; simpl.
  - repeat constructor.
  - destruct (orderBy x y) eqn:Oxy.
    + constructor; [constructor; assumption|].
      apply orderBy_due in Oxy. constructor; [exact Oxy|].
      eapply Forall_impl; [exact Hy|]. unfold dueLe. intros; lia.
    + constructor; [exact IH|].
      apply not_orderBy_due in Oxy.
      apply List.Forall_forall. intros z Hz.
      apply (Permutation_in _ (insertOrdered_perm x l)) in Hz.
      destruct Hz as [<- | Hz]; [exact Oxy|].
      rewrite List.Forall_forall in Hy. auto.
Qed.

Lemma sortRows_dueSorted (l : list Task) : StronglySorted dueLe (sortRows l).
Proof.
  induction l as [|x l IH]; simpl; [constructor|].
  apply insertOrdered_dueSorted. exact IH.
Qed.

Lemma insertOrdered_sorted (x : Task) (l : list Task) :
  Sorted mayPrecede l -> Sorted mayPrecede (insertOrdered x l).
Proof.
  induction 1 as [|y l Hs IH Hy]; simpl.
  - repeat constructor.
  - destruct (orderBy x y) eqn:Oxy.
    + constructor; [constructor; assumption|]. constructor. exact Oxy.
    + constructor; [exact IH|].
      destruct l as [|z l]; simpl.
      * constructor. apply orderBy_total. exact Oxy.
      * destruct (orderBy x z); constructor.
        -- apply orderBy_total. exact Oxy.
        -- inversion Hy; assumption.
Qed.

Lemma sortRows_sorted (l : list Task) : Sorted mayPrecede (sortRows l).
Proof.
  induction l as [|x l IH]; simpl; [constructor|].
  apply insertOrdered_sorted. exact IH.
Qed.

(** A list in ascending order of due date splits at any instant. *)
Lemma filter_none_below (a : Z) (l : list Task) :
  Forall (fun t => a <= dueDate t) l ->
  List.filter (fun t => dueDate t <? a) l = [].
Proof.
  induction 1 as [|t l Ht _ IH]; simpl; [reflexivity|].
  destruct (Z.ltb_spec (dueDate t) a); [lia|exact IH].
Qed.

Lemma filter_all_above (a : Z) (l : list Task) :
  Forall (fun t => a <= dueDate t) l ->
  List.filter (fun t => a <=? dueDate t) l = l.
Proof.
  induction 1 as [|t l Ht _ IH]; simpl; [reflexivity|].
  destruct (Z.leb_spec a (dueDate t)); [f_equal; exact IH|lia].
Qed.

Lemma sorted_split (a : Z) (l : list Task) :
  StronglySorted dueLe l ->
  List.filter (fun t => dueDate t <? a) l ++ List.filter (fun t => a <=? dueDate t) l = l.
Proof.
  induction 1 as [|t l Hs IH Ht]; simpl; [reflexivity|].
  destruct (Z.ltb_spec (dueDate t) a) as [Hlt|Hge].
  - destruct (Z.leb_spec a (dueDate t)); [lia|].
    simpl. f_equal. exact IH.
  - destruct (Z.leb_spec a (dueDate t)); [|lia].
    assert (Hall : Forall (fun y => a <= dueDate y) l).
    { eapply Forall_impl; [exact Ht|]. unfold dueLe. intros; lia. }
    rewrite (filter_none_below a l Hall), (filter_all_above a l Hall).
    reflexivity.
Qed.

Lemma filter_dueSorted (p : Task -> bool) (l : list Task) :
  StronglySorted dueLe l -> StronglySorted dueLe (List.filter p l).
Proof.
  induction 1 as [|t l Hs IH Ht]; simpl; [constructor|].
  destruct (p t); [|exact IH].
  constructor; [exact IH|].
  apply List.Forall_forall. intros y Hy. apply filter_In in Hy as [Hy _].
  rewrite List.Forall_forall in Ht. auto.
Qed.

Lemma filter_filter (p q : Task -> bool) (l : list Task) :
  List.filter p (List.filter q l) = List.filter (fun t => q t && p t) l.
Proof.
  induction l as [|t l IH]; simpl; [reflexivity|].
  destruct (q t); simpl; [destruct (p t)|]; rewrite ?IH; reflexivity.
Qed.

(** Three consecutive ranges of due dates cut an ascending list into three
    consecutive segments. *)
Lemma sorted_three_way (a b : Z) (l : list Task) :
  a <= b ->
  StronglySorted dueLe l ->
  l = List.filter (fun t => dueDate t <? a) l
      ++ List.filter (fun t => (a <=? dueDate t) && (dueDate t <? b)) l
      ++ List.filter (fun t => b <=? dueDate t) l.
Proof.
  intros Hab Hs.
  rewrite <- (sorted_split a l Hs) at 1. f_equal.
  rewrite <- (sorted_split b _ (filter_dueSorted (fun t => a <=? dueDate t) l Hs)).
  rewrite !filter_filter. f_equal.
  apply filter_ext. intros t.
  destruct (Z.leb_spec a (dueDate t)), (Z.leb_spec b (dueDate t)); simpl; lia.
Qed.

End SortFacts.

Section BucketizerFacts.
Context `{Host}.

(** The result of [getUpcomingTasks], with the five clock readings it makes
    named: [c0] for the end of the window, [c1] for its start, [c2] for
    [today], [c3] and [c4] for the two week marks. *)
Lemma getUpcomingTasks_readings (hid : string) (options : Options) (w : World) :
  let c := fun i => clock (ticks w + i)%nat in
  let tasks :=
    sortRows
      (List.filter
         (whereClause hid (default false (includeCompleted options)) (c 1%nat)
            (c 0%nat + default 30 (daysAhead options) * msPerDay))
         (suggestedTask w)) in
  fst (getUpcomingTasks hid options w) =
  {| overdue := List.filter (fun t => dueDate t <? c 2%nat) tasks;
     thisWeek :=
       List.filter (fun t => (c 2%nat <=? dueDate t)
                             && (dueDate t <? c 3%nat + 7 * msPerDay)) tasks;
     nextWeek :=
       List.filter (fun t => (c 3%nat + 7 * msPerDay <=? dueDate t)
                             && (dueDate t <? c 4%nat + 14 * msPerDay)) tasks;
     later := List.filter (fun t => c 4%nat + 14 * msPerDay <=? dueDate t) tasks;
     all := tasks |}.
Proof.
  unfold getUpcomingTasks, bind, newDate, findMany, ret. simpl.
  rewrite !setDate_getDate_plus.
  rewrite Nat.add_0_r.
  replace (ticks w + 1)%nat with (S (ticks w)) by lia.
  replace (ticks w + 2)%nat with (S (S (ticks w))) by lia.
  replace (ticks w + 3)%nat with (S (S (S (ticks w)))) by lia.
  replace (ticks w + 4)%nat with (S (S (S (S (ticks w))))) by lia.
  reflexivity.
Qed.

(** It is a pure read. *)
Lemma getUpcomingTasks_reads_only (hid : string) (options : Options) (w : World) :
  let w' := snd (getUpcomingTasks hid options w) in
  analyzedEvent w' = analyzedEvent w
  /\ suggestedTask w' = suggestedTask w
  /\ nextId w' = nextId w.
Proof.
  unfold getUpcomingTasks, bind, newDate, findMany, ret. simpl. auto.
Qed.

Lemma whereClause_spec (hid : string) (gte lte : Z) (t : Task) :
  whereClause hid false gte lte t = true <->
  householdId t = hid /\ status t = "pending" /\ gte <= dueDate t <= lte.
Proof.
  unfold whereClause. rewrite !andb_true_iff, !String.eqb_eq, !Z.leb_le. tauto.
Qed.

(** Whatever the clock does, the list returned is in ascending order of due
    date, and any two neighbours are in the order of the query: earlier due
    date first, and on equal due dates the priority text not smaller. *)
Lemma upcoming_sorted (hid : string) (options : Options) (w : World) :
  let r := fst (getUpcomingTasks hid options w) in
  StronglySorted dueLe (all r) /\ Sorted mayPrecede (all r).
Proof.
  pose proof (getUpcomingTasks_readings hid options w) as E.
  cbv zeta in *. rewrite E. simpl.
  split; [apply sortRows_dueSorted|apply sortRows_sorted].
Qed.

(** Whatever the clock does, no returned task is due before the reading
    taken for the start of the window; a task lands in the overdue bucket only
    if it falls due between that reading and the later reading taken for
    [today], that is, while the call is running. *)
Lemma overdue_only_during_the_call (hid : string) (options : Options) (w : World) :
  let r := fst (getUpcomingTasks hid options w) in
  (forall t, In t (all r) -> clock (ticks w + 1)%nat <= dueDate t)
  /\ (forall t, In t (overdue r) ->
                clock (ticks w + 1)%nat <= dueDate t < clock (ticks w + 2)%nat).
Proof.
  pose proof (getUpcomingTasks_readings hid options w) as E.
  cbv zeta in *. rewrite E. clear E. simpl.
  assert (Hall : forall t,
            In t (sortRows
                    (List.filter
                       (whereClause hid (default false (includeCompleted options))
                          (clock (ticks w + 1)%nat)
                          (clock (ticks w + 0)%nat
                           + default 30 (daysAhead options) * msPerDay))
                       (suggestedTask w))) ->
            clock (ticks w + 1)%nat <= dueDate t).
  { intros t Ht. apply sortRows_In, filter_In in Ht as [_ Ht].
    unfold whereClause in Ht. rewrite !andb_true_iff, !Z.leb_le in Ht. tauto. }
  split; [exact Hall|].
  intros t Ht. apply filter_In in Ht as [Ht Hlt].
  apply Z.ltb_lt in Hlt. specialize (Hall t Ht). lia.
Qed.

(** C1 (amended).  With the clock held at [now], and completed tasks not
    asked for, [getUpcomingTasks] returns exactly the household's pending
    tasks with [now <= due <= now + window] (the window is 30 days unless
    given).  Tasks due before [now] are not returned, so the overdue bucket
    is empty, and the list returned is the this-week bucket
    ([now <= due < now+7d]) followed by the next-week bucket
    ([now+7d <= due < now+14d]) followed by the later bucket
    ([due >= now+14d]). *)
Theorem upcoming_tasks_window_and_buckets (hid : string) (window : option Z)
    (w : World) (now : Z) :
  (forall k, clock k = now) ->
  let r := fst (getUpcomingTasks hid
                  {| daysAhead := window; includeCompleted := None |} w) in
  (forall t, In t (all r) <->
             In t (suggestedTask w)
             /\ householdId t = hid
             /\ status t = "pending"
             /\ now <= dueDate t <= now + default 30 window * msPerDay)
  /\ Permutation (all r)
       (List.filter (whereClause hid false now (now + default 30 window * msPerDay))
          (suggestedTask w))
  /\ overdue r = []
  /\ (forall t, In t (thisWeek r) <->
                In t (all r) /\ now <= dueDate t < now + 7 * msPerDay)
  /\ (forall t, In t (nextWeek r) <->
                In t (all r) /\ now + 7 * msPerDay <= dueDate t < now + 14 * msPerDay)
  /\ (forall t, In t (later r) <->
                In t (all r) /\ now + 14 * msPerDay <= dueDate t)
  /\ all r = thisWeek r ++ nextWeek r ++ later r.
Proof.
  intros Hclock.
  pose proof (getUpcomingTasks_readings hid
                {| daysAhead := window; includeCompleted := None |} w) as E.
  cbv zeta in *. rewrite E. clear E. simpl.
  rewrite !Hclock.
  set (tasks := sortRows _).
  assert (Hin : forall t, In t tasks <->
                  In t (suggestedTask w) /\ householdId t = hid
                  /\ status t = "pending"
                  /\ now <= dueDate t <= now + default 30 window * msPerDay).
  { intros t. unfold tasks. rewrite sortRows_In, filter_In, whereClause_spec.
    tauto. }
  assert (Hge : Forall (fun t => now <= dueDate t) tasks).
  { apply List.Forall_forall. intros t Ht. apply Hin in Ht. lia. }
  assert (Hover : List.filter (fun t => dueDate t <? now) tasks = [])
    by (apply filter_none_below; exact Hge).
  split; [exact Hin|]. split; [apply sortRows_perm|]. split; [exact Hover|].
  split; [|split; [|split]].
  - intros t. rewrite filter_In, andb_true_iff, Z.leb_le, Z.ltb_lt. tauto.
  - intros t. rewrite filter_In, andb_true_iff, Z.leb_le, Z.ltb_lt. tauto.
  - intros t. rewrite filter_In, Z.leb_le. tauto.
  - assert (Hs : StronglySorted dueLe tasks) by apply sortRows_dueSorted.
    assert (H3 := sorted_three_way (now + 7 * msPerDay) (now + 14 * msPerDay)
                    tasks ltac:(unfold msPerDay; lia) Hs).
    rewrite H3 at 1. f_equal.
    apply filter_ext_in. intros t Ht.
    rewrite List.Forall_forall in Hge. specialize (Hge t Ht).
    destruct (Z.leb_spec now (dueDate t)); [reflexivity|lia].
Qed.

End BucketizerFacts.

Lemma upcoming_tasks_window_and_buckets_witness :
  let r := fst (@getUpcomingTasks Examples.utc0 "household-1"
                  {| daysAhead := None; includeCompleted := None |}
                  Examples.worldWithFour) in
  (forall k, @clock Examples.utc0 k = Examples.now0)
  /\ map task_id (thisWeek r) = [2%nat]
  /\ all r = thisWeek r ++ nextWeek r ++ later r.
Proof.
  assert (Hclock : forall k, @clock Examples.utc0 k = Examples.now0)
    by (intros k; reflexivity).
  split; [exact Hclock|]. split; [reflexivity|].
  apply (@upcoming_tasks_window_and_buckets Examples.utc0 "household-1" None
           Examples.worldWithFour Examples.now0 Hclock).
Defined.

(** C1, as worded, fails: a pending task of the household that was due one
    day ago is filtered out by the query, and is in neither the overdue
    bucket nor the list returned. *)
Lemma overdue_task_is_not_returned :
  let r := fst (@getUpcomingTasks Examples.utc0 "household-1" noOptions
                  Examples.worldWithOverdue) in
  In Examples.dueYesterday (suggestedTask Examples.worldWithOverdue)
  /\ householdId Examples.dueYesterday = "household-1"
  /\ status Examples.dueYesterday = "pending"
  /\ dueDate Examples.dueYesterday = Examples.now0 - msPerDay
  /\ ~ In Examples.dueYesterday (overdue r)
  /\ ~ In Examples.dueYesterday (all r).
Proof.
  vm_compute. repeat split; auto.
Qed.

(** The specification's four tasks, due at now-1d, now+2d, now+10d and
    now+20d: the first is dropped, the other three land in this-week,
    next-week and later. *)
Example four_tasks_bucketed :
  let r := fst (@getUpcomingTasks Examples.utc0 "household-1" noOptions
                  Examples.worldWithFour) in
  map task_id (overdue r) = []
  /\ map task_id (thisWeek r) = [2%nat]
  /\ map task_id (nextWeek r) = [3%nat]
  /\ map task_id (later r) = [4%nat].
Proof. vm_compute. auto. Qed.

(** C5, at the failing input: two pending tasks due at the same instant, the
    high-priority one first in the table.  The query orders the priority
    column as text, descending, so "medium" comes out before "high". *)
Theorem equal_due_medium_before_high :
  all (fst (@getUpcomingTasks Examples.utc0 "household-1" noOptions
              Examples.worldWithTie))
  = [Examples.mediumTask; Examples.highTask]
  /\ dueDate Examples.mediumTask = dueDate Examples.highTask
  /\ specBefore Examples.highTask Examples.mediumTask
  /\ ~ specBefore Examples.mediumTask Examples.highTask.
Proof.
  split; [reflexivity|]. split; [reflexivity|]. split.
  - right. split; [reflexivity|]. vm_compute. auto.
  - intros [Hlt | [_ Hle]]; vm_compute in *; [discriminate|].
    repeat match goal with H : (S _ <= _)%nat |- _ => inversion H; clear H end.
Qed.

(** ** The Analysis Client *)

Import ClientSpec.

Section ClientFacts.
Context `{Services}.

Lemma complete_times (event : EventObject) :
  complete event = true ->
  exists s e, obj_start event = Some s /\ obj_end event = Some e.
Proof.
  unfold complete. destruct (obj_start event), (obj_end event); try discriminate.
  eauto.
Qed.

Lemma incomplete_times (event : EventObject) :
  complete event = false -> obj_start event = None \/ obj_end event = None.
Proof.
  unfold complete. destruct (obj_start event), (obj_end event); try discriminate;
    auto.
Qed.

(** For an event with a start and an end the client with settings returns,
    and what it returns is determined by the provider call it makes. *)
Lemma enhanced_client_returns (event : EventObject) (st : State) :
  complete event = true ->
  exists st',
    Enhanced.analyzeCalendarEvent event st = (Normal (clientResult (calls st)), st')
    /\ advanced 1 st st'
    /\ sleeps st' = sleeps st.
Proof.
  intros Hc. destruct (complete_times event Hc) as (s & e & Hs & He).
  unfold Enhanced.analyzeCalendarEvent, clientResult. rewrite Hs, He. simpl.
  destruct (Enhanced.tryBlock (messages_create (calls st))) as [a|err];
    eexists; (split; [reflexivity|]); unfold advanced; simpl.
  - repeat split; [lia| |].
    + exists []. rewrite app_nil_r. auto.
    + exists []. rewrite app_nil_r. auto.
  - repeat split; [lia| |].
    + eexists. split; [reflexivity|]. repeat constructor.
    + exists []. rewrite app_nil_r. auto.
Qed.

(** For an event without start or end it rejects before its [try], and
    makes no provider call. *)
Lemma enhanced_client_rejects (event : EventObject) (st : State) :
  complete event = false ->
  Enhanced.analyzeCalendarEvent event st = (Throw missingTime, st).
Proof.
  intros Hc. unfold Enhanced.analyzeCalendarEvent, complete in *.
  destruct (obj_start event), (obj_end event); try discriminate; reflexivity.
Qed.

Lemma enhanced_failure_default (outcome : CreateOutcome) :
  analysisFails outcome -> exists e, Enhanced.tryBlock outcome = Throw e.
Proof.
  intros [e | | rest | text rest Hp | text rest v Hp Hv]; simpl; eauto.
  - rewrite Hp. eauto.
  - rewrite Hp. destruct Hv as [-> | ->]; simpl; eauto.
Qed.

Lemma enhanced_object_reply (text : string) (rest : list ContentBlock)
    (fields : list (string * Value)) :
  JSON_parse (Enhanced.analysisTextOf text) = Some (JObj fields) ->
  Enhanced.tryBlock (Resolves (TextBlock text :: rest)) =
  Normal
    {| Enhanced.eventType := or (lookupField "eventType" fields) (JStr "other");
       Enhanced.requiresSitter := or (lookupField "requiresSitter" fields) (JBool false);
       Enhanced.requiresTravel := or (lookupField "requiresTravel" fields) (JBool false);
       Enhanced.requiresFormalAttire :=
         or (lookupField "requiresFormalAttire" fields) (JBool false);
       Enhanced.tasks := or (lookupField "tasks" fields) (JArr []);
       Enhanced.reasoning := or (lookupField "reasoning" fields) (JStr "");
       Enhanced.confidence := or (lookupField "confidence" fields) (JNum (8 # 10)%Q) |}.
Proof. intros Hp. simpl. rewrite Hp. reflexivity. Qed.

(** The client without settings: the same two cases. *)
Lemma simple_client_returns (event : EventObject) (st : State) :
  complete event = true ->
  exists st',
    Simple.analyzeCalendarEvent event st = (Normal (simpleResult (calls st)), st')
    /\ calls st' = S (calls st).
Proof.
  intros Hc. destruct (complete_times event Hc) as (s & e & Hs & He).
  unfold Simple.analyzeCalendarEvent, simpleResult. rewrite Hs, He. simpl.
  destruct (Simple.tryBlock (messages_create (calls st))) as [a|err];
    eexists; split; reflexivity.
Qed.

Lemma simple_client_rejects (event : EventObject) (st : State) :
  complete event = false ->
  Simple.analyzeCalendarEvent event st = (Throw missingTime, st).
Proof.
  intros Hc. unfold Simple.analyzeCalendarEvent, complete in *.
  destruct (obj_start event), (obj_end event); try discriminate; reflexivity.
Qed.

Lemma simple_failure_default (outcome : CreateOutcome) :
  simpleFails outcome -> exists e, Simple.tryBlock outcome = Throw e.
Proof.
  intros [e | | rest | text rest Hm | text rest span Hm Hp
          | text rest span fields Hm Hp Ht | text rest span fields Hm Hp Ht];
    simpl; eauto.
  - rewrite Hm. eauto.
  - rewrite Hm, Hp. eauto.
  - rewrite Hm, Hp. simpl. rewrite Ht. simpl. eauto.
  - rewrite Hm, Hp. simpl.
    destruct (truthy (lookupField "eventType" fields)); simpl; eauto.
    rewrite Ht. simpl. eauto.
Qed.

(** C2 (amended).  What [analyzeCalendarEvent] does depends first on the
    event.  For an event without [start] or without [end] both clients
    reject with a [TypeError], raised before their [try]; the provider is
    not called and nothing is logged.  For an event that has both, both
    clients return normally, whatever the provider does.
    The client with settings then returns its default (eventType "other",
    the three flags false, no tasks, reasoning "Analysis failed - using
    defaults", confidence 0.1) when the provider call fails, the reply is
    not text, or the text handed to [JSON.parse] is not JSON or is [null].
    A parsed object with fields missing is not a failure there: each
    missing or falsy field gets its own fallback, which for the reasoning is
    the empty string and for the confidence is 0.8.
    The client without settings returns its default (eventType "other", the
    three flags false, no suggested tasks, no preparations, a note that the
    analysis failed) on each of those failures, and also when the reply
    holds no brace-delimited span or the parsed object lacks [eventType] or
    an array [suggestedTasks]. *)
Theorem analysis_client_failure_policy (event : EventObject) (st : State) :
  match obj_start event, obj_end event with
  | Some _, Some _ =>
      (exists a,
         fst (Enhanced.analyzeCalendarEvent event st) = Normal a
         /\ calls (snd (Enhanced.analyzeCalendarEvent event st)) = S (calls st)
         /\ (analysisFails (messages_create (calls st)) ->
             a = {| Enhanced.eventType := JStr "other";
                    Enhanced.requiresSitter := JBool false;
                    Enhanced.requiresTravel := JBool false;
                    Enhanced.requiresFormalAttire := JBool false;
                    Enhanced.tasks := JArr [];
                    Enhanced.reasoning := JStr "Analysis failed - using defaults";
                    Enhanced.confidence := JNum (1 # 10)%Q |})
         /\ (forall text rest fields,
               messages_create (calls st) = Resolves (TextBlock text :: rest) ->
               JSON_parse (Enhanced.analysisTextOf text) = Some (JObj fields) ->
               a = {| Enhanced.eventType :=
                        or (lookupField "eventType" fields) (JStr "other");
                      Enhanced.requiresSitter :=
                        or (lookupField "requiresSitter" fields) (JBool false);
                      Enhanced.requiresTravel :=
                        or (lookupField "requiresTravel" fields) (JBool false);
                      Enhanced.requiresFormalAttire :=
                        or (lookupField "requiresFormalAttire" fields) (JBool false);
                      Enhanced.tasks := or (lookupField "tasks" fields) (JArr []);
                      Enhanced.reasoning := or (lookupField "reasoning" fields) (JStr "");
                      Enhanced.confidence :=
                        or (lookupField "confidence" fields) (JNum (8 # 10)%Q) |}))
      /\ (exists v,
            fst (Simple.analyzeCalendarEvent event st) = Normal v
            /\ calls (snd (Simple.analyzeCalendarEvent event st)) = S (calls st)
            /\ (simpleFails (messages_create (calls st)) ->
                v = JObj [ ("eventType", JStr "other");
                           ("requiresSitter", JBool false);
                           ("requiresTravel", JBool false);
                           ("requiresFormalAttire", JBool false);
                           ("suggestedTasks", JArr []);
                           ("preparations", JArr []);
                           ("notes", JStr "Analysis failed - manual review recommended") ]))
  | _, _ =>
      Enhanced.analyzeCalendarEvent event st
      = (Throw (ErrorObject "Cannot read properties of undefined (reading 'dateTime')"),
         st)
      /\ Simple.analyzeCalendarEvent event st
         = (Throw (ErrorObject "Cannot read properties of undefined (reading 'dateTime')"),
            st)
  end.
Proof.
  destruct (complete event) eqn:Hc.
  - destruct (complete_times event Hc) as (s & e & Hs & He). rewrite Hs, He.
    split.
    + destruct (enhanced_client_returns event st Hc) as (st' & E & (Hcalls & _) & _).
      exists (clientResult (calls st)). rewrite E. split; [reflexivity|].
      split; [simpl; lia|]. split.
      * intros Hf. apply enhanced_failure_default in Hf as [err Herr].
        unfold clientResult. rewrite Herr. reflexivity.
      * intros text rest fields Ho Hp. unfold clientResult. rewrite Ho.
        rewrite (enhanced_object_reply text rest fields Hp). reflexivity.
    + destruct (simple_client_returns event st Hc) as (st' & E & Hcalls).
      exists (simpleResult (calls st)). rewrite E. split; [reflexivity|].
      split; [exact Hcalls|].
      intros Hf. apply simple_failure_default in Hf as [err Herr].
      unfold simpleResult. rewrite Herr. reflexivity.
  - pose proof (enhanced_client_rejects event st Hc) as E1.
    pose proof (simple_client_rejects event st Hc) as E2.
    unfold complete in Hc.
    destruct (obj_start event), (obj_end event); try discriminate; split; assumption.
Qed.

End ClientFacts.

Lemma analysis_client_failure_policy_witness :
  analysisFails (H := Examples.sampleServices)
    (@messages_create Examples.sampleServices (calls initial))
  /\ fst (@Enhanced.analyzeCalendarEvent Examples.sampleServices
            Examples.party initial)
     = Normal Enhanced.defaultAnalysis
  /\ @Enhanced.analyzeCalendarEvent Examples.sampleServices
       Examples.partyWithoutEnd initial
     = (Throw missingTime, initial).
Proof.
  assert (Hf : analysisFails (H := Examples.sampleServices)
                 (@messages_create Examples.sampleServices (calls initial)))
    by (simpl; constructor).
  split; [exact Hf|]. split.
  - destruct (@analysis_client_failure_policy Examples.sampleServices
                Examples.party initial) as [(a & E & _ & Hdef & _) _].
    rewrite E. f_equal. exact (Hdef Hf).
  - exact (proj1 (@analysis_client_failure_policy Examples.sampleServices
                    Examples.partyWithoutEnd initial)).
Defined.

(** C2, as worded, fails for the client with settings: a reply whose JSON
    object has none of the fields is not turned into the default.  The
    object returned has confidence 0.8 and an empty reasoning. *)
Lemma missing_fields_reply_is_not_the_default :
  @messages_create Examples.sampleServices 1
    = Resolves [TextBlock "Here is the analysis: {} I hope it helps."]
  /\ jsonMatch "Here is the analysis: {} I hope it helps." = Some "{}"
  /\ @JSON_parse Examples.sampleServices "{}" = Some (JObj [])
  /\ fst (@Enhanced.analyzeCalendarEvent Examples.sampleServices
            Examples.party (Examples.afterCalls 1))
     = Normal {| Enhanced.eventType := JStr "other";
                 Enhanced.requiresSitter := JBool false;
                 Enhanced.requiresTravel := JBool false;
                 Enhanced.requiresFormalAttire := JBool false;
                 Enhanced.tasks := JArr [];
                 Enhanced.reasoning := JStr "";
                 Enhanced.confidence := JNum (8 # 10)%Q |}
  /\ fst (@Enhanced.analyzeCalendarEvent Examples.sampleServices
            Examples.party (Examples.afterCalls 1))
     <> Normal Enhanced.defaultAnalysis.
Proof.
  repeat split; try reflexivity.
  vm_compute. intros E. discriminate E.
Qed.

(** A reply with no brace-delimited span is parsed whole by the client with
    settings, so a bare number is not a failure either; prose is. *)
Example bare_number_reply :
  fst (@Enhanced.analyzeCalendarEvent Examples.sampleServices
         Examples.party (Examples.afterCalls 3))
  = Normal {| Enhanced.eventType := JStr "other";
              Enhanced.requiresSitter := JBool false;
              Enhanced.requiresTravel := JBool false;
              Enhanced.requiresFormalAttire := JBool false;
              Enhanced.tasks := JArr [];
              Enhanced.reasoning := JStr "";
              Enhanced.confidence := JNum (8 # 10)%Q |}
  /\ fst (@Enhanced.analyzeCalendarEvent Examples.sampleServices
            Examples.party (Examples.afterCalls 2))
     = Normal Enhanced.defaultAnalysis.
Proof. split; reflexivity. Qed.

(** The default of the client without settings has no [confidence] and no
    [reasoning]. *)
Example simple_default_fields :
  lookupField "confidence" [ ("eventType", JStr "other");
                             ("requiresSitter", JBool false);
                             ("requiresTravel", JBool false);
                             ("requiresFormalAttire", JBool false);
                             ("suggestedTasks", JArr []);
                             ("preparations", JArr []);
                             ("notes", JStr "Analysis failed - manual review recommended") ]
  = JUndefined
  /\ Simple.defaultAnalysis
     = JObj [ ("eventType", JStr "other");
              ("requiresSitter", JBool false);
              ("requiresTravel", JBool false);
              ("requiresFormalAttire", JBool false);
              ("suggestedTasks", JArr []);
              ("preparations", JArr []);
              ("notes", JStr "Analysis failed - manual review recommended") ].
Proof. split; reflexivity. Qed.

(** An event without an end: both clients reject, and neither calls the
    provider or writes to the console. *)
Example clients_reject_event_without_end :
  @Enhanced.analyzeCalendarEvent Examples.sampleServices
    Examples.partyWithoutEnd initial
  = (Throw missingTime, initial)
  /\ @Simple.analyzeCalendarEvent Examples.sampleServices
       Examples.partyWithoutEnd initial
     = (Throw missingTime, initial)
  /\ Enhanced.isRateLimit missingTime = false.
Proof. repeat split. Qed.

(** ** The Batch Dispatcher *)

Section RunFacts.

Lemma ran_refl (st : State) : ran 0 [] [] st st.
Proof.
  unfold ran. repeat split; [lia| |rewrite app_nil_r; reflexivity].
  exists []. rewrite app_nil_r. auto.
Qed.

Lemma ran_trans (m m' : nat) (c c' : list LogLine) (p p' : list Z)
    (st st' st'' : State) :
  ran m c p st st' -> ran m' c' p' st' st'' ->
  ran (m + m') (c ++ c') (p ++ p') st st''.
Proof.
  intros (Hc & (x & Hx & Qx) & Hp) (Hc' & (x' & Hx' & Qx') & Hp').
  unfold ran. repeat split.
  - lia.
  - exists (x ++ x'). rewrite Hx', Hx, app_assoc. split; [reflexivity|].
    rewrite List.filter_app, Qx, Qx'. reflexivity.
  - rewrite Hp', Hp, app_assoc. reflexivity.
Qed.

Lemma ran_log (l : LogLine) (st : State) :
  ran 0 (if fromCatch l then [l] else []) [] st (log l st).
Proof.
  unfold ran, log. simpl. repeat split; [lia| |rewrite app_nil_r; reflexivity].
  exists [l]. split; [reflexivity|]. simpl. destruct (fromCatch l); reflexivity.
Qed.

Lemma ran_sleep (ms : Z) (st : State) : ran 0 [] [ms] st (sleep ms st).
Proof.
  unfold ran, sleep. simpl. repeat split; [lia|].
  exists []. rewrite app_nil_r. auto.
Qed.

Lemma quiet_not_caught (lines : list LogLine) :
  Forall quiet lines <-> List.filter fromCatch lines = [].
Proof.
  induction lines as [|l lines IH]; simpl.
  - split; auto.
  - split.
    + intros Hall. inversion Hall as [|? ? Hl Hrest]; subst.
      destruct l; simpl in *; try contradiction; apply IH; exact Hrest.
    + intros Hf. destruct l; simpl in *; try discriminate;
        constructor; try exact I; apply IH; exact Hf.
Qed.

Lemma advanced_ran (m : nat) (st st' : State) :
  advanced m st st' -> sleeps st' = sleeps st -> ran m [] [] st st'.
Proof.
  intros (Hc & (x & Hx & Qx) & _) Hs. unfold ran. repeat split.
  - exact Hc.
  - exists x. split; [exact Hx|]. apply quiet_not_caught. exact Qx.
  - rewrite app_nil_r. exact Hs.
Qed.

Lemma failures_complete (events : list EventObject) :
  Forall (fun event => complete event = true) events -> failures events = [].
Proof.
  unfold failures. induction 1 as [|event events Hc _ IH]; simpl; [reflexivity|].
  rewrite Hc. simpl. exact IH.
Qed.

Lemma callsFor_complete (events : list EventObject) :
  Forall (fun event => complete event = true) events ->
  callsFor events = length events.
Proof.
  unfold callsFor. induction 1 as [|event events Hc _ IH]; simpl; [reflexivity|].
  rewrite Hc. simpl. rewrite IH. reflexivity.
Qed.

(** Events of the declared type all have a start and an end: a run over
    them calls the provider once per event and never enters the [catch]. *)
Lemma typed_events_complete (events : list CalendarEvent) :
  Forall (fun event => complete event = true) (map asObject events)
  /\ callsFor (map asObject events) = length events
  /\ failures (map asObject events) = [].
Proof.
  assert (Hall : Forall (fun event => complete event = true) (map asObject events)).
  { apply List.Forall_forall. intros e He.
    apply in_map_iff in He as (x & <- & _). reflexivity. }
  split; [exact Hall|]. split.
  - rewrite (callsFor_complete _ Hall). apply length_map.
  - apply failures_complete. exact Hall.
Qed.

Lemma pausesFor_delay (events : list EventObject) :
  pausesFor events = replicate (callsFor (removelast events)) 1500.
Proof.
  unfold pausesFor, callsFor.
  induction (List.filter complete (removelast events)) as [|e l IH]; simpl;
    [reflexivity|].
  rewrite IH. reflexivity.
Qed.

Lemma pausesFor_cons (event : EventObject) (events : list EventObject) :
  pausesFor (event :: events)
  = ((if complete event
      then match events with [] => [] | _ :: _ => [Enhanced.delayBetweenRequests] end
      else [])
     ++ pausesFor events)%list.
Proof.
  unfold pausesFor. destruct events as [|e events].
  - simpl. destruct (complete event); reflexivity.
  - change (removelast (event :: e :: events))
      with (event :: removelast (e :: events)).
    simpl List.filter at 1. destruct (complete event); reflexivity.
Qed.

End RunFacts.

Section DispatcherFacts.
Context `{Services}.

(** A pass of the loop over the client of the repository.  For an event
    with a start and an end the [try] branch is taken to its end... *)
Lemma iteration_real (n i : nat) (event : EventObject)
    (results : gmap string Enhanced.EventAnalysis) (st : State) :
  complete event = true ->
  exists st',
    Enhanced.iteration Enhanced.analyzeCalendarEvent n i event results st =
    (S i, <[obj_id event := clientResult (calls st)]> results, st')
    /\ ran 1 [] (if (S i <? n)%nat then [Enhanced.delayBetweenRequests] else [])
           st st'.
Proof.
  intros Hc. unfold Enhanced.iteration.
  set (st0 := log _ st).
  destruct (enhanced_client_returns event st0 Hc) as (st1 & E & Hadv & Hs).
  rewrite E.
  pose proof (ran_log (LogAnalyzing (i + 1) n
                         (orString (obj_summary event) "Untitled")) st) as H0.
  simpl in H0. fold st0 in H0.
  pose proof (ran_trans _ _ _ _ _ _ _ _ _ H0 (advanced_ran _ _ _ Hadv Hs)) as H1.
  simpl in H1.
  destruct (S i <? n)%nat.
  - eexists. split; [reflexivity|].
    exact (ran_trans _ _ _ _ _ _ _ _ _ H1 (ran_sleep _ st1)).
  - eexists. split; [reflexivity|]. exact H1.
Qed.

(** ... and for an event without, the [catch] is entered with an error that
    is not a rate limit: the dispatcher records its own default and goes on
    without a pause. *)
Lemma iteration_rejected (n i : nat) (event : EventObject)
    (results : gmap string Enhanced.EventAnalysis) (st : State) :
  complete event = false ->
  exists st',
    Enhanced.iteration Enhanced.analyzeCalendarEvent n i event results st =
    (S i, <[obj_id event := Enhanced.dispatcherDefault]> results, st')
    /\ ran 0 [ErrFailed (obj_id event) missingTime] [] st st'.
Proof.
  intros Hc. unfold Enhanced.iteration.
  set (st0 := log _ st).
  rewrite (enhanced_client_rejects event st0 Hc).
  change (Enhanced.isRateLimit missingTime) with false. cbv iota.
  eexists. split; [reflexivity|].
  pose proof (ran_log (LogAnalyzing (i + 1) n
                         (orString (obj_summary event) "Untitled")) st) as H0.
  simpl in H0. fold st0 in H0.
  exact (ran_trans _ _ _ _ _ _ _ _ _ H0
           (ran_log (ErrFailed (obj_id event) missingTime) st0)).
Qed.

Lemma lookup_of_drop (events suffix : list EventObject) (i : nat)
    (event : EventObject) :
  drop i events = event :: suffix ->
  events !! i = Some event /\ drop (S i) events = suffix.
Proof.
  intros Hd.
  assert (Hl : events !! i = Some event).
  { rewrite <- (Nat.add_0_r i), <- lookup_drop, Hd. reflexivity. }
  split; [exact Hl|].
  pose proof (drop_S _ _ _ Hl) as Hs. rewrite Hd in Hs. congruence.
Qed.

Lemma lookup_of_drop_nil (events : list EventObject) (i : nat) :
  drop i events = [] -> events !! i = None.
Proof.
  intros Hd. apply lookup_ge_None_2.
  pose proof (length_drop events i) as Hl. rewrite Hd in Hl. simpl in Hl. lia.
Qed.

Lemma drop_length_cons (events suffix : list EventObject) (i : nat)
    (event : EventObject) :
  drop i events = event :: suffix ->
  length events = (i + S (length suffix))%nat.
Proof.
  intros Hd. pose proof (length_drop events i) as Hl. rewrite Hd in Hl.
  simpl in Hl.
  destruct (Nat.lt_ge_cases i (length events)); [lia|].
  rewrite drop_ge in Hd by assumption. discriminate.
Qed.

(** The loop over the events from index [i] on: it ends within as many
    passes as events are left, builds the expected mapping, calls the
    provider once for each event that has a start and an end, writes one
    "Failed to analyze" line for each event that has not, and pauses only
    for the delay between requests. *)
Lemma loop_real (events : list EventObject) (suffix : list EventObject) :
  forall (i fuel : nat) (results : gmap string Enhanced.EventAnalysis) (st : State),
    drop i events = suffix ->
    (length suffix <= fuel)%nat ->
    exists st',
      Enhanced.loop Enhanced.analyzeCalendarEvent fuel events i results st =
      Some (expected (calls st) suffix results, st')
      /\ ran (callsFor suffix) (failures suffix) (pausesFor suffix) st st'.
Proof.
  induction suffix as [|event suffix IH]; intros i fuel results st Hd Hf.
  - apply lookup_of_drop_nil in Hd.
    exists st. split; [|apply ran_refl].
    destruct fuel; simpl; rewrite Hd; reflexivity.
  - pose proof (drop_length_cons _ _ _ _ Hd) as Hlen.
    apply lookup_of_drop in Hd as [Hl Hd].
    destruct fuel as [|fuel]; [simpl in Hf; lia|].
    simpl Enhanced.loop. rewrite Hl.
    rewrite pausesFor_cons. unfold expected, callsFor, failures. simpl.
    destruct (complete event) eqn:Hc; simpl.
    + destruct (iteration_real (length events) i event results st Hc)
        as (st1 & E & Hran).
      rewrite E.
      destruct (IH (S i) fuel (<[obj_id event := clientResult (calls st)]> results)
                  st1 Hd) as (st2 & E2 & Hran2); [simpl in Hf; lia|].
      exists st2. rewrite E2.
      assert (Hcalls : calls st1 = S (calls st)) by (destruct Hran as [Hx _]; lia).
      rewrite Hcalls. split; [reflexivity|].
      pose proof (ran_trans _ _ _ _ _ _ _ _ _ Hran Hran2) as Hall.
      simpl in Hall.
      destruct suffix as [|e2 suffix].
      * destruct (Nat.ltb_spec (S i) (length events)); [simpl in Hlen; lia|].
        exact Hall.
      * destruct (Nat.ltb_spec (S i) (length events)); [|simpl in Hlen; lia].
        exact Hall.
    + destruct (iteration_rejected (length events) i event results st Hc)
        as (st1 & E & Hran).
      rewrite E.
      destruct (IH (S i) fuel (<[obj_id event := Enhanced.dispatcherDefault]> results)
                  st1 Hd) as (st2 & E2 & Hran2); [simpl in Hf; lia|].
      exists st2. rewrite E2.
      assert (Hcalls : calls st1 = calls st) by (destruct Hran as [Hx _]; lia).
      rewrite Hcalls. split; [reflexivity|].
      exact (ran_trans _ _ _ _ _ _ _ _ _ Hran Hran2).
Qed.

Lemma dispatch_real (events : list EventObject) (fuel : nat) (st : State) :
  (length events <= fuel)%nat ->
  exists st',
    Enhanced.analyzeBatchEvents fuel events st =
    Some (expected (calls st) events ∅, st')
    /\ ran (callsFor events) (failures events) (pausesFor events) st st'.
Proof.
  intros Hf. unfold Enhanced.analyzeBatchEvents, Enhanced.dispatch.
  set (st0 := log _ st).
  destruct (loop_real events events 0 fuel ∅ st0 eq_refl Hf) as (st' & E & Hran).
  exists st'. split; [exact E|].
  pose proof (ran_log (LogProcessing (length events) Enhanced.delayBetweenRequests)
                st) as H0.
  simpl in H0. fold st0 in H0.
  exact (ran_trans _ _ _ _ _ _ _ _ _ H0 Hran).
Qed.

(** The mapping collected: its keys, and what stands under each key. *)
Lemma collect_dom_fallback {V} (result : nat -> V) (d : V)
    (events : list EventObject) :
  forall (k : nat) (results : gmap string V),
    dom (collect result (Some d) k events results)
    = (list_to_set (map obj_id events) ∪ dom results : gset string).
Proof.
  induction events as [|event events IH]; intros k results; simpl.
  - symmetry. apply (left_id_L ∅ (∪)).
  - destruct (complete event); rewrite IH, dom_insert_L;
      rewrite (assoc_L (∪)); f_equal; apply (comm_L (∪)).
Qed.

Lemma collect_dom_skipping {V} (result : nat -> V) (events : list EventObject) :
  forall (k : nat) (results : gmap string V),
    dom (collect result None k events results)
    = (list_to_set (map obj_id (List.filter complete events)) ∪ dom results
       : gset string).
Proof.
  induction events as [|event events IH]; intros k results; simpl.
  - symmetry. apply (left_id_L ∅ (∪)).
  - destruct (complete event); simpl.
    + rewrite IH, dom_insert_L.
      rewrite (assoc_L (∪)). f_equal. apply (comm_L (∪)).
    + apply IH.
Qed.

Lemma collect_lookup {V} (result : nat -> V) (fallback : option V)
    (events : list EventObject) :
  forall (k : nat) (results : gmap string V) (eid : string) (a : V),
    collect result fallback k events results !! eid = Some a ->
    (exists j event,
        events !! j = Some event /\ obj_id event = eid
        /\ if complete event
           then a = result (k + callsFor (take j events))%nat
           else fallback = Some a)
    \/ results !! eid = Some a.
Proof.
  induction events as [|event events IH]; intros k results eid a Hl; simpl in Hl.
  - right. exact Hl.
  - destruct (complete event) eqn:Hc.
    + apply IH in Hl as [(j & e & Hj & He & Ha) | Hl].
      * left. exists (S j), e. simpl. repeat split; auto.
        destruct (complete e); [|exact Ha].
        rewrite Ha. f_equal. unfold callsFor. simpl. rewrite Hc. simpl. lia.
      * destruct (decide (obj_id event = eid)) as [Heq | Hne].
        -- rewrite Heq, lookup_insert_eq in Hl. injection Hl as <-.
           left. exists 0%nat, event. simpl. repeat split; auto.
           rewrite Hc. unfold callsFor. simpl. f_equal. lia.
        -- rewrite lookup_insert_ne in Hl by exact Hne. right. exact Hl.
    + apply IH in Hl as [(j & e & Hj & He & Ha) | Hl].
      * left. exists (S j), e. simpl. repeat split; auto.
        destruct (complete e); [|exact Ha].
        rewrite Ha. f_equal. unfold callsFor. simpl. rewrite Hc. reflexivity.
      * destruct fallback as [d|]; [|right; exact Hl].
        destruct (decide (obj_id event = eid)) as [Heq | Hne].
        -- rewrite Heq, lookup_insert_eq in Hl. injection Hl as <-.
           left. exists 0%nat, event. simpl. repeat split; auto.
           rewrite Hc. reflexivity.
        -- rewrite lookup_insert_ne in Hl by exact Hne. right. exact Hl.
Qed.

Lemma collect_app {V} (result : nat -> V) (fallback : option V)
    (l1 l2 : list EventObject) :
  forall (k : nat) (results : gmap string V),
    collect result fallback k (l1 ++ l2) results
    = collect result fallback (k + callsFor l1) l2
        (collect result fallback k l1 results).
Proof.
  induction l1 as [|event l1 IH]; intros k results; simpl.
  - unfold callsFor. simpl. rewrite Nat.add_0_r. reflexivity.
  - unfold callsFor in *. simpl. destruct (complete event); simpl; rewrite IH.
    + f_equal. lia.
    + reflexivity.
Qed.

Lemma callsFor_app (l1 l2 : list EventObject) :
  callsFor (l1 ++ l2) = (callsFor l1 + callsFor l2)%nat.
Proof.
  unfold callsFor. rewrite List.filter_app, length_app. reflexivity.
Qed.

Lemma clientResult_cases (k : nat) :
  Enhanced.tryBlock (messages_create k) = Normal (clientResult k)
  \/ (exists e, Enhanced.tryBlock (messages_create k) = Throw e)
     /\ clientResult k = Enhanced.defaultAnalysis.
Proof.
  unfold clientResult.
  destruct (Enhanced.tryBlock (messages_create k)) as [a|e]; eauto.
Qed.

Lemma simpleResult_cases (k : nat) :
  Simple.tryBlock (messages_create k) = Normal (simpleResult k)
  \/ (exists e, Simple.tryBlock (messages_create k) = Throw e)
     /\ simpleResult k = Simple.defaultAnalysis.
Proof.
  unfold simpleResult.
  destruct (Simple.tryBlock (messages_create k)) as [a|e]; eauto.
Qed.

(** One batch of the dispatcher without settings: the callback returns an
    entry for an event with a start and an end, and the [null] of its
    [catch] for an event without. *)
Lemma analyzeAll_collects (batch : list EventObject) :
  forall st : State,
    exists rs st',
      Simple.analyzeAll batch st = (rs, st')
      /\ calls st' = (calls st + callsFor batch)%nat
      /\ sleeps st' = sleeps st
      /\ forall results,
           Simple.store results rs = expectedSimple (calls st) batch results.
Proof.
  induction batch as [|event batch IH]; intros st; simpl.
  - exists [], st. split; [reflexivity|]. split; [unfold callsFor; simpl; lia|].
    split; [reflexivity|]. intros results. reflexivity.
  - unfold Simple.analyzeOne, expectedSimple, callsFor. simpl.
    destruct (complete event) eqn:Hc.
    + destruct (simple_client_returns event st Hc) as (st1 & E & Hcalls).
      rewrite E.
      assert (Hs1 : sleeps st1 = sleeps st).
      { destruct (complete_times event Hc) as (s & e & Hs & He).
        unfold Simple.analyzeCalendarEvent in E. rewrite Hs, He in E. simpl in E.
        destruct (Simple.tryBlock _); injection E as _ <-; reflexivity. }
      destruct (IH st1) as (rs & st2 & E2 & Hc2 & Hs2 & Hstore). rewrite E2.
      eexists _, st2. split; [reflexivity|].
      split; [unfold callsFor in Hc2; simpl; lia|].
      split; [congruence|].
      intros results. unfold Simple.store in *. simpl.
      rewrite Hstore, Hcalls. reflexivity.
    + rewrite (simple_client_rejects event st Hc).
      destruct (IH (log (ErrFailed (obj_id event) missingTime) st))
        as (rs & st2 & E2 & Hc2 & Hs2 & Hstore).
      rewrite E2.
      eexists _, st2. split; [reflexivity|].
      split; [unfold callsFor in Hc2; simpl in *; lia|].
      split; [exact Hs2|].
      intros results. unfold Simple.store in *. simpl.
      rewrite Hstore. reflexivity.
Qed.

(** The loop over batches ends within as many passes as events are left,
    provided a batch holds at least one event. *)
Lemma simple_loop_collects (events : list EventObject) (maxConcurrent : nat) :
  (0 < maxConcurrent)%nat ->
  forall (fuel i : nat) (results : gmap string Value) (st : State),
    (length (drop i events) <= fuel)%nat ->
    exists st',
      Simple.loop fuel events maxConcurrent i results st =
      Some (expectedSimple (calls st) (drop i events) results, st')
      /\ calls st' = (calls st + callsFor (drop i events))%nat
      /\ sleeps st' = sleeps st.
Proof.
  intros Hmc. induction fuel as [|fuel IH]; intros i results st Hf.
  - rewrite length_drop in Hf.
    assert (Hge : (length events <= i)%nat) by lia.
    simpl. destruct (Nat.ltb_spec i (length events)); [lia|].
    rewrite (drop_ge _ _ Hge). simpl. exists st.
    split; [reflexivity|]. split; [unfold callsFor; simpl; lia|reflexivity].
  - simpl. destruct (Nat.ltb_spec i (length events)) as [Hlt|Hge].
    + unfold Simple.slice.
      assert (Hsplit : drop i events
                       = take maxConcurrent (drop i events)
                         ++ drop (i + maxConcurrent) events).
      { rewrite <- drop_drop. symmetry. apply take_drop. }
      assert (Hshort : (length (drop (i + maxConcurrent) events) <= fuel)%nat).
      { rewrite length_drop in *. lia. }
      remember (take maxConcurrent (drop i events)) as batch eqn:Hbatch.
      remember (drop (i + maxConcurrent) events) as tail eqn:Htail.
      destruct (analyzeAll_collects batch st) as (rs & st1 & E & Hc & Hs & Hstore).
      rewrite E.
      destruct (IH (i + maxConcurrent)%nat (Simple.store results rs) st1)
        as (st2 & E2 & Hc2 & Hs2).
      { rewrite <- Htail. exact Hshort. }
      rewrite <- Htail in E2, Hc2.
      exists st2. rewrite E2, Hstore, Hc, Hsplit. split; [|split].
      * unfold expectedSimple. rewrite collect_app. reflexivity.
      * rewrite Hc2, Hc, callsFor_app. lia.
      * congruence.
    + rewrite (drop_ge _ _ Hge). simpl. exists st.
      split; [reflexivity|]. split; [unfold callsFor; simpl; lia|reflexivity].
Qed.

(** C3 (amended).  Whatever the provider answers, and for any bound on the
    passes that is at least the number of events, both dispatchers end.
    The dispatcher with settings returns a mapping whose keys are exactly
    the ids of the input events: the entry under a key belongs to an input
    event with that id and is the analysis the client built from the
    provider's reply to the call made for that event, or the client's
    default when that call failed, or, for an event without start or end
    (whose call rejects), the dispatcher's own no-task default.
    The dispatcher without settings, with its default batch size or any
    positive one, skips an event whose call rejects: the keys of its mapping
    are the ids of the input events that have a start and an end, and each
    entry is the validated reply or the client's default for such an event. *)
Theorem batch_results_are_complete (events : list EventObject) (st : State)
    (extra : nat) (size : option nat) :
  (exists results st',
     Enhanced.analyzeBatchEvents (length events + extra) events st
     = Some (results, st')
     /\ dom results = (list_to_set (map obj_id events) : gset string)
     /\ forall eid a,
          results !! eid = Some a ->
          exists j event,
            events !! j = Some event /\ obj_id event = eid
            /\ if complete event
               then
                 let k := (calls st + callsFor (take j events))%nat in
                 Enhanced.tryBlock (messages_create k) = Normal a
                 \/ (exists e, Enhanced.tryBlock (messages_create k) = Throw e)
                    /\ a = Enhanced.defaultAnalysis
               else
                 a = Enhanced.dispatcherDefault
                 /\ Enhanced.tasks a = JArr [])
  /\ (exists results st',
        Simple.analyzeBatchEvents (length events + extra) events
          (option_map S size) st
        = Some (results, st')
        /\ dom results
           = (list_to_set (map obj_id (List.filter complete events)) : gset string)
        /\ forall eid v,
             results !! eid = Some v ->
             exists j event,
               events !! j = Some event /\ obj_id event = eid
               /\ complete event = true
               /\ let k := (calls st + callsFor (take j events))%nat in
                  Simple.tryBlock (messages_create k) = Normal v
                  \/ (exists e, Simple.tryBlock (messages_create k) = Throw e)
                     /\ v = Simple.defaultAnalysis).
Proof.
  split.
  - destruct (dispatch_real events (length events + extra) st) as (st' & E & _);
      [lia|].
    eexists _, st'. split; [exact E|]. split.
    + unfold expected. rewrite collect_dom_fallback, dom_empty_L.
      apply (right_id_L ∅ (∪)).
    + intros eid a Hl. unfold expected in Hl.
      apply collect_lookup in Hl as [(j & event & Hj & He & Ha) | Hl];
        [|rewrite lookup_empty in Hl; discriminate].
      exists j, event. repeat split; auto.
      destruct (complete event).
      * cbv zeta. subst a.
        destruct (clientResult_cases (calls st + callsFor (take j events)))
          as [Hn | [Ht Hd]]; auto.
      * injection Ha as <-. split; reflexivity.
  - unfold Simple.analyzeBatchEvents.
    assert (Hpos : (0 < default 3 (option_map S size))%nat)
      by (destruct size; simpl; lia).
    destruct (simple_loop_collects events _ Hpos
                (length events + extra)%nat 0%nat ∅ st) as (st' & E & _).
    { rewrite drop_0. lia. }
    rewrite drop_0 in E. eexists _, st'. split; [exact E|]. split.
    + unfold expectedSimple. rewrite collect_dom_skipping, dom_empty_L.
      apply (right_id_L ∅ (∪)).
    + intros eid v Hl. unfold expectedSimple in Hl.
      apply collect_lookup in Hl as [(j & event & Hj & He & Ha) | Hl];
        [|rewrite lookup_empty in Hl; discriminate].
      exists j, event. repeat split; auto.
      * destruct (complete event); [reflexivity|discriminate].
      * destruct (complete event); [|discriminate].
        cbv zeta. subst v.
        destruct (simpleResult_cases (calls st + callsFor (take j events)))
          as [Hn | [Ht Hd]]; auto.
Qed.


(** C4, on the code.  A rate-limit error of the provider never reaches the
    dispatcher: the client catches it and returns its default.  For a batch
    of one event whose provider call is rejected with an [Error] whose
    message contains "429", the run ends after that single call, takes no
    pause at all (no 60000 ms cooldown), and records the client's default
    for the event; the event is not retried. *)
Theorem rate_limited_call_is_not_retried (event : CalendarEvent) (st : State)
    (error : Thrown) (extra : nat) :
  messages_create (calls st) = Rejects error ->
  Enhanced.isRateLimit error = true ->
  exists st',
    Enhanced.analyzeBatchEvents (1 + extra) [asObject event] st
    = Some ({[ ev_id event := Enhanced.defaultAnalysis ]}, st')
    /\ calls st' = S (calls st)
    /\ sleeps st' = sleeps st.
Proof.
  intros Hrej _.
  unfold Enhanced.analyzeBatchEvents, Enhanced.dispatch. simpl.
  unfold Enhanced.iteration, Enhanced.analyzeCalendarEvent. simpl.
  rewrite Hrej. simpl.
  destruct extra; simpl; rewrite insert_empty; eauto.
Qed.

End DispatcherFacts.

Section AnyClient.
Variable client : EventObject -> State -> Completion Enhanced.EventAnalysis * State.

Lemma loop_stuck_while_limited (events : list EventObject) (i : nat)
    (event : EventObject) :
  events !! i = Some event ->
  (forall st0, exists error st1,
      client event st0 = (Throw error, st1)
      /\ Enhanced.isRateLimit error = true) ->
  forall fuel results st,
    Enhanced.loop client fuel events i results st = None.
Proof.
  intros Hl Hlim. induction fuel as [|fuel IH]; intros results st; simpl;
    rewrite Hl; [reflexivity|].
  unfold Enhanced.iteration.
  match goal with |- context [client event ?s] =>
    destruct (Hlim s) as (error & st1 & E & Hr) end.
  rewrite E, Hr. apply IH.
Qed.

Lemma iteration_index (n i : nat) (event : EventObject)
    (results : gmap string Enhanced.EventAnalysis) (st : State) :
  let j := fst (fst (Enhanced.iteration client n i event results st)) in
  j = i \/ j = S i.
Proof.
  unfold Enhanced.iteration.
  destruct (client event _) as [[a|error] st1]; simpl; auto.
  destruct (Enhanced.isRateLimit error); simpl; auto.
Qed.

Lemma loop_never_passes (events : list EventObject) (i : nat)
    (event : EventObject) :
  events !! i = Some event ->
  (forall st0, exists error st1,
      client event st0 = (Throw error, st1)
      /\ Enhanced.isRateLimit error = true) ->
  forall fuel j results st,
    (j <= i)%nat ->
    Enhanced.loop client fuel events j results st = None.
Proof.
  intros Hl Hlim. induction fuel as [|fuel IH]; intros j results st Hj.
  - destruct (lookup_lt_is_Some_2 events j) as [e He].
    { apply lookup_lt_Some in Hl. lia. }
    simpl. rewrite He. reflexivity.
  - destruct (decide (j = i)) as [-> | Hne].
    + apply (loop_stuck_while_limited events i event Hl Hlim).
    + destruct (lookup_lt_is_Some_2 events j) as [e He].
      { apply lookup_lt_Some in Hl. lia. }
      simpl. rewrite He.
      pose proof (iteration_index (length events) j e results st) as Hidx.
      destruct (Enhanced.iteration client (length events) j e results st)
        as [[j' results'] st'].
      simpl in Hidx. apply IH. lia.
Qed.

(** The [catch] of the dispatcher with settings, for a client that lets an
    error through at index [i]: if the error is an [Error] whose message
    contains "429", the dispatcher pauses 60000 ms and the next pass is again
    at index [i], with nothing recorded; for any other error it records its
    default for the event, takes no pause, and the next pass is at [i+1].
    The retries are not bounded: while the client keeps failing with such an
    error on one of the events, no number of passes ends the run. *)
Lemma catch_branch_behaviour :
  (forall n i event results st error st1,
      client event
        (log (LogAnalyzing (i + 1) n (orString (obj_summary event) "Untitled")) st)
      = (Throw error, st1) ->
      Enhanced.iteration client n i event results st =
      if Enhanced.isRateLimit error
      then (i, results,
            sleep 60000 (log LogRateLimited (log (ErrFailed (obj_id event) error) st1)))
      else (S i, <[obj_id event := Enhanced.dispatcherDefault]> results,
            log (ErrFailed (obj_id event) error) st1))
  /\ (forall events i event,
        events !! i = Some event ->
        (forall st0, exists error st1,
            client event st0 = (Throw error, st1)
            /\ Enhanced.isRateLimit error = true) ->
        forall fuel st, Enhanced.dispatch client fuel events st = None).
Proof.
  split.
  - intros n i event results st error st1 E.
    unfold Enhanced.iteration. rewrite E.
    destruct (Enhanced.isRateLimit error); reflexivity.
  - intros events i event Hl Hlim fuel st. unfold Enhanced.dispatch.
    apply (loop_never_passes events i event Hl Hlim). lia.
Qed.

End AnyClient.

Example catch_branch_on_sample_clients :
  (@Enhanced.iteration Examples.flakyClient 1 0 Examples.party ∅ initial
   = (0%nat, ∅,
      sleep 60000
        (log LogRateLimited
           (log (ErrFailed "evt-party" Examples.rateLimited)
              (called (log (LogAnalyzing 1 1 "Birthday Party") initial))))))
  /\ (@Enhanced.iteration Examples.brokenClient 1 0 Examples.party ∅ initial
      = (1%nat, {[ "evt-party" := Enhanced.dispatcherDefault ]},
         log (ErrFailed "evt-party" Examples.overloaded)
           (called (log (LogAnalyzing 1 1 "Birthday Party") initial))))
  /\ (forall fuel,
        Enhanced.dispatch Examples.limitedClient fuel [Examples.party] initial
        = None).
Proof.
  split; [|split].
  - exact (proj1 (catch_branch_behaviour Examples.flakyClient)
             1%nat 0%nat Examples.party ∅ initial Examples.rateLimited _
             eq_refl).
  - exact (proj1 (catch_branch_behaviour Examples.brokenClient)
             1%nat 0%nat Examples.party ∅ initial Examples.overloaded _
             eq_refl).
  - intros fuel.
    apply (proj2 (catch_branch_behaviour Examples.limitedClient)
             [Examples.party] 0%nat Examples.party eq_refl).
    intros st0. exists Examples.rateLimited, (called st0). split; reflexivity.
Qed.

(** The specification's rate-limit scenario, for a client that lets the
    error through: the call for an event is rate limited on the first
    attempt and succeeds on the second.  The run ends after two passes with
    one entry for the event, the successful analysis, after one pause of
    60000 ms. *)
Example rate_limited_once_then_success :
  exists results st',
    Enhanced.dispatch Examples.flakyClient 2 [Examples.party] initial
    = Some (results, st')
    /\ results = {[ "evt-party" := Examples.socialAnalysis ]}
    /\ sleeps st' = [60000]
    /\ calls st' = 2%nat.
Proof.
  eexists _, _. split; [reflexivity|]. repeat split.
Qed.

Lemma rate_limited_call_is_not_retried_witness :
  @messages_create Examples.sampleServices (calls initial)
    = Rejects Examples.rateLimited
  /\ Enhanced.isRateLimit Examples.rateLimited = true
  /\ exists st',
       @Enhanced.analyzeBatchEvents Examples.sampleServices 1
         [Examples.party] initial
       = Some ({[ "evt-party" := Enhanced.defaultAnalysis ]}, st')
       /\ calls st' = 1%nat
       /\ sleeps st' = [].
Proof.
  split; [reflexivity|]. split; [reflexivity|].
  exact (@rate_limited_call_is_not_retried Examples.sampleServices
           Examples.birthdayParty initial Examples.rateLimited 0
           eq_refl eq_refl).
Defined.

(** C3, as worded, fails for the dispatcher without settings: an event whose
    call rejects leaves a gap.  For the party without an end the callback's
    [catch] returns [null], nothing is stored, and the mapping returned is
    empty; the provider is never called. *)
Lemma event_without_end_leaves_a_gap :
  complete Examples.partyWithoutEnd = false
  /\ @Simple.analyzeCalendarEvent Examples.sampleServices
       Examples.partyWithoutEnd initial
     = (Throw missingTime, initial)
  /\ @Simple.analyzeBatchEvents Examples.sampleServices 1
       [Examples.partyWithoutEnd] None initial
     = Some (∅, log (ErrFailed "evt-party" missingTime) initial)
  /\ (forall results st',
        @Simple.analyzeBatchEvents Examples.sampleServices 1
          [Examples.partyWithoutEnd] None initial = Some (results, st') ->
        results !! "evt-party" = None /\ calls st' = 0%nat).
Proof.
  split; [reflexivity|]. split; [reflexivity|]. split; [reflexivity|].
  intros results st' E. vm_compute in E. injection E as <- <-.
  split; reflexivity.
Qed.


(** ** The analyze route *)

Section RouteFacts.
Context `{Host}.
Variable analyzeBatchEvents : list CalendarEvent -> gmap string EventAnalysis.
Variable getOrCreateHousehold : string -> string.

Lemma isRelevant_reads_only (event : CalendarEvent) (w : World) :
  exists b k, Route.isRelevant event w = (b, atTick k w).
Proof.
  unfold Route.isRelevant, bind, newDate, ret, atTick. simpl. eauto.
Qed.

Lemma filterM_reads_only (events : list CalendarEvent) :
  forall w, exists l k,
    Route.filterM Route.isRelevant events w = (l, atTick k w)
    /\ incl l events.
Proof.
  induction events as [|event events IH]; intros w; simpl.
  - exists [], (ticks w). unfold ret, atTick. destruct w; simpl.
    split; [reflexivity|]. apply incl_refl.
  - destruct (isRelevant_reads_only event w) as (b & k & E).
    rewrite (bind_run _ _ _ _ _ E).
    destruct (IH (atTick k w)) as (l & k' & E' & Hincl).
    rewrite (bind_run _ _ _ _ _ E'). unfold ret.
    exists (if b then event :: l else l), k'. split; [reflexivity|].
    destruct b.
    + intros x [<- | Hx]; [left; reflexivity|right; apply Hincl; exact Hx].
    + intros x Hx. right. apply Hincl. exact Hx.
Qed.

(** Saving events that all have a cached record, with analyses that do not
    carry the re-analysis property, writes nothing. *)
Lemma saveAll_cached (hid : string) (results : gmap string EventAnalysis)
    (events : list CalendarEvent) (w : World) :
  (forall event, In event events -> cached event w) ->
  (forall eid a, results !! eid = Some a -> forceReanalysis a = false) ->
  forall k0, exists saved k,
    Route.saveAll hid results events (atTick k0 w) = (saved, atTick k w).
Proof.
  intros Hc Hf. induction events as [|event events IH]; intros k0; simpl.
  - exists [], k0. reflexivity.
  - destruct (results !! ev_id event) as [a|] eqn:Hl.
    + destruct (Hc event (or_introl eq_refl)) as [r Hr].
      destruct (save_cached hid event a (atTick k0 w) r Hr (Hf _ _ Hl)) as [k E].
      rewrite (bind_run _ _ _ _ _ E).
      destruct (IH (fun e He => Hc e (or_intror He)) k) as (saved & k' & E').
      change {| analyzedEvent := analyzedEvent (atTick k0 w);
                suggestedTask := suggestedTask (atTick k0 w);
                nextId := nextId (atTick k0 w); ticks := k |}
        with (atTick k w).
      rewrite (bind_run _ _ _ _ _ E'). unfold ret. eauto.
    + apply IH. intros e He. apply Hc. right. exact He.
Qed.

Lemma getUpcomingTasks_atTick (hid : string) (options : Options) (w : World) :
  snd (getUpcomingTasks hid options w) = atTick (5 + ticks w) w.
Proof. reflexivity. Qed.

(** C9, on the code.  The route reads [skipCache] only to write a console
    line: the response and the database after a request are the same with
    the flag set as without it.  In particular, when every event of the
    request already has a cached record (and the analyzer's results do not
    carry the re-analysis property, which neither analyzer sets), a request
    with [skipCache] set leaves both tables as they were: no stored analysis
    or task is overwritten. *)
Theorem skipCache_does_not_force_reanalysis (userId nodeEnv : string)
    (events : option (list CalendarEvent)) (w : World) :
  let run := fun flag =>
    Route.POST analyzeBatchEvents getOrCreateHousehold (Some userId) nodeEnv
      {| Route.events := events; Route.skipCache := flag |} w in
  fst (fst (run (Some true))) = fst (fst (run None))
  /\ snd (run (Some true)) = snd (run None)
  /\ ((forall l eid a, analyzeBatchEvents l !! eid = Some a ->
                       forceReanalysis a = false) ->
      (forall evs event, events = Some evs -> In event evs -> cached event w) ->
      analyzedEvent (snd (run (Some true))) = analyzedEvent w
      /\ suggestedTask (snd (run (Some true))) = suggestedTask w).
Proof.
  cbv zeta. unfold Route.POST. simpl.
  destruct events as [evs|]; [|simpl; auto].
  destruct (filterM_reads_only evs w) as (l & k & E & Hincl).
  rewrite !(bind_run _ _ _ _ _ E).
  split; [|split].
  - unfold bind.
    destruct (Route.saveAll _ _ _ _) as [saved w1].
    destruct (getUpcomingTasks _ _ _) as [up w2]. reflexivity.
  - unfold bind.
    destruct (Route.saveAll _ _ _ _) as [saved w1].
    destruct (getUpcomingTasks _ _ _) as [up w2]. reflexivity.
  - intros Hforce Hcached.
    destruct (saveAll_cached (getOrCreateHousehold userId)
                (analyzeBatchEvents (take 10 l)) (take 10 l) w) with (k0 := k)
      as (saved & k' & E').
    { intros event Hin. apply (Hcached evs event eq_refl).
      apply Hincl. apply list_elem_of_In. apply (subseteq_take 10 l).
      apply list_elem_of_In. exact Hin. }
    { apply Hforce. }
    rewrite (bind_run _ _ _ _ _ E').
    unfold bind at 1.
    pose proof (getUpcomingTasks_atTick (getOrCreateHousehold userId) noOptions
                  (atTick k' w)) as Hup.
    destruct (getUpcomingTasks _ _ _) as [up w2]. simpl in Hup. subst w2.
    unfold ret. simpl. auto.
Qed.

End RouteFacts.

Lemma partySaved_cached : cached Examples.birthdayParty Examples.partySaved.
Proof. eexists. reflexivity. Qed.

Lemma skipCache_does_not_force_reanalysis_witness :
  let w' :=
    snd (@Route.POST Examples.utc0 Examples.mockAnalyzer Examples.mockHousehold
           (Some "user-1") "development" Examples.skipCacheRequest
           Examples.partySaved) in
  analyzedEvent w' = analyzedEvent Examples.partySaved
  /\ suggestedTask w' = suggestedTask Examples.partySaved.
Proof.
  apply (@skipCache_does_not_force_reanalysis Examples.utc0 Examples.mockAnalyzer
           Examples.mockHousehold "user-1" "development"
           (Some [Examples.birthdayParty]) Examples.partySaved).
  - intros l eid a Hl. unfold Examples.mockAnalyzer in Hl.
    apply lookup_singleton_Some in Hl as [_ <-]. reflexivity.
  - intros evs event [= <-] [<- | []]. exact partySaved_cached.
Defined.

(** C9, at the failing input: the party has been analyzed and saved (one
    task, "Book babysitter"); a development request with [skipCache] set
    arrives, and a fresh analysis would suggest "Buy a gift" instead.  The
    route reports one saved event, but the stored analysis and the stored
    task are the old ones. *)
Lemma skipCache_request_keeps_old_tasks :
  let '((response, lines), w') :=
    @Route.POST Examples.utc0 Examples.mockAnalyzer Examples.mockHousehold
      (Some "user-1") "development" Examples.skipCacheRequest
      Examples.partySaved in
  lines = [Route.LogSkipCache; Route.LogAnalyzingCount 1 1]
  /\ map title (suggestedTask w') = ["Book babysitter"]
  /\ map analysisData (analyzedEvent w') = [Examples.partyAnalysis]
  /\ Examples.mockAnalyzer [Examples.birthdayParty] !! "evt-party"
     = Some Examples.partySecondOpinion
  /\ map st_title (suggestedTasks Examples.partySecondOpinion) = ["Buy a gift"].
Proof.
  vm_compute. repeat split.
Qed.

(* ================================================================== *)
(** * Part III: further properties of the code *)
(* ================================================================== *)

Import MoreSpec.

(** ** Extracting the JSON span *)

Section JsonMatchFacts.

Lemma toLastClose_none (s : string) :
  ~ occurs "}"%char s -> toLastClose s = None.
Proof.
  induction s as [|c s IH]; simpl; [reflexivity|].
  intros Hn. rewrite IH by tauto.
  destruct (Ascii.eqb_spec c "}"%char); [tauto|reflexivity].
Qed.

Lemma fromFirstOpen_some (s tail : string) :
  fromFirstOpen s = Some tail <->
  exists pre rest,
    s = String.append pre (String "{"%char rest)
    /\ ~ occurs "{"%char pre
    /\ tail = String "{"%char rest.
Proof.
  revert tail. induction s as [|c s IH]; intros tail; simpl.
  - split; [discriminate|].
    intros (pre & rest & E & _). destruct pre; discriminate.
  - destruct (Ascii.eqb_spec c "{"%char) as [-> | Hne].
    + split.
      * intros [= <-]. exists EmptyString, s. simpl. tauto.
      * intros (pre & rest & E & Hn & ->).
        destruct pre as [|d pre]; simpl in *.
        -- injection E as ->. reflexivity.
        -- injection E as <- _. tauto.
    + rewrite IH. split.
      * intros (pre & rest & -> & Hn & ->).
        exists (String c pre), rest. simpl. intuition congruence.
      * intros (pre & rest & E & Hn & ->).
        destruct pre as [|d pre]; simpl in *.
        -- injection E as -> _. congruence.
        -- injection E as <- ->. exists pre, rest. tauto.
Qed.

Lemma toLastClose_some (s span : string) :
  toLastClose s = Some span <->
  exists mid post,
    s = String.append mid (String "}"%char post)
    /\ ~ occurs "}"%char post
    /\ span = String.append mid (String "}"%char EmptyString).
Proof.
  revert span. induction s as [|c s IH]; intros span; simpl.
  - split; [discriminate|].
    intros (mid & post & E & _). destruct mid; discriminate.
  - destruct (toLastClose s) as [inner|] eqn:Hs.
    + split.
      * intros [= <-].
        destruct (proj1 (IH inner) eq_refl) as (mid & post & -> & Hn & ->).
        exists (String c mid), post. simpl. tauto.
      * intros (mid & post & E & Hn & ->).
        destruct mid as [|d mid]; simpl in *.
        -- injection E as -> ->. rewrite (toLastClose_none _ Hn) in Hs.
           discriminate.
        -- injection E as <- ->.
           assert (Hi : Some inner
                        = Some (String.append mid (String "}"%char EmptyString))).
           { apply IH. exists mid, post. tauto. }
           injection Hi as ->. reflexivity.
    + destruct (Ascii.eqb_spec c "}"%char) as [-> | Hne].
      * split.
        -- intros [= <-]. exists EmptyString, s. simpl.
           split; [reflexivity|]. split; [|reflexivity].
           intros Ho. clear IH.
           induction s as [|d s IHs]; simpl in *; [tauto|].
           destruct (toLastClose s); [discriminate|].
           destruct (Ascii.eqb_spec d "}"%char); [discriminate|].
           destruct Ho as [Ho | Ho]; [congruence|]. apply IHs; auto.
        -- intros (mid & post & E & Hn & ->).
           destruct mid as [|d mid]; simpl in *; [reflexivity|].
           injection E as <- ->.
           assert (Hi : None
                        = Some (String.append mid (String "}"%char EmptyString))).
           { apply IH. exists mid, post. tauto. }
           discriminate.
      * split; [discriminate|].
        intros (mid & post & E & Hn & ->).
        destruct mid as [|d mid]; simpl in *.
        -- injection E as -> _. congruence.
        -- injection E as <- ->.
           assert (Hi : None
                        = Some (String.append mid (String "}"%char EmptyString))).
           { apply IH. exists mid, post. tauto. }
           discriminate.
Qed.

(** X1.  The span both analyzers cut out of the model's reply is the text
    from the first opening brace to the last closing brace after it: there
    is no opening brace before the span and no closing brace after it.  No
    span is found exactly when the reply has no opening brace followed,
    somewhere later, by a closing brace. *)
Theorem jsonMatch_is_first_open_to_last_close (text span : string) :
  jsonMatch text = Some span <->
  exists pre mid post,
    text = String.append pre
             (String "{"%char (String.append mid (String "}"%char post)))
    /\ ~ occurs "{"%char pre
    /\ ~ occurs "}"%char post
    /\ span = String "{"%char (String.append mid (String "}"%char EmptyString)).
Proof.
  unfold jsonMatch. split.
  - destruct (fromFirstOpen text) as [tail|] eqn:Hf; [|discriminate].
    apply fromFirstOpen_some in Hf as (pre & rest & -> & Hpre & ->).
    intros Hl. apply toLastClose_some in Hl as (mid & post & E & Hpost & ->).
    destruct mid as [|d mid]; simpl in E; [discriminate|].
    injection E as <- ->. exists pre, mid, post. simpl. tauto.
  - intros (pre & mid & post & -> & Hpre & Hpost & ->).
    assert (Hf : fromFirstOpen
                   (String.append pre
                      (String "{"%char (String.append mid (String "}"%char post))))
                 = Some (String "{"%char (String.append mid (String "}"%char post)))).
    { apply fromFirstOpen_some. eauto. }
    rewrite Hf. apply toLastClose_some.
    exists (String "{"%char mid), post. simpl. tauto.
Qed.

End JsonMatchFacts.

(** ** What the clients return *)

Section ClientInvariants.
Context `{Services}.

Lemma truthy_or (a d : Value) : truthy d = true -> truthy (or a d) = true.
Proof. unfold or. destruct (truthy a) eqn:Ha; auto. Qed.

Lemma fromReply_truthy (v : Value) (a : Enhanced.EventAnalysis) :
  Enhanced.fromReply v = Normal a ->
  truthy (Enhanced.eventType a) = true
  /\ truthy (Enhanced.tasks a) = true
  /\ truthy (Enhanced.confidence a) = true.
Proof.
  unfold Enhanced.fromReply.
  destruct v; simpl; try discriminate; intros [= <-]; simpl;
    repeat split; try reflexivity; apply truthy_or; reflexivity.
Qed.

(** X2.  Whatever the provider answers, an analysis returned by the client
    with settings has a truthy event type, a truthy task field and a
    nonzero confidence.  In particular a reply that states a confidence of
    0 comes back with confidence 0.8.  The client returns such an analysis
    for every event that has a start and an end; it rejects only for an
    event without start or end. *)
Theorem enhanced_result_never_has_zero_confidence (event : EventObject)
    (st : State) :
  match fst (Enhanced.analyzeCalendarEvent event st) with
  | Normal a =>
      truthy (Enhanced.eventType a) = true
      /\ truthy (Enhanced.tasks a) = true
      /\ truthy (Enhanced.confidence a) = true
      /\ (forall text rest fields q,
            messages_create (calls st) = Resolves (TextBlock text :: rest) ->
            JSON_parse (Enhanced.analysisTextOf text) = Some (JObj fields) ->
            lookupField "confidence" fields = JNum q ->
            Qeq_bool q 0 = true ->
            Enhanced.confidence a = JNum (8 # 10)%Q)
  | Throw _ => obj_start event = None \/ obj_end event = None
  end.
Proof.
  destruct (complete event) eqn:Hc.
  - destruct (enhanced_client_returns event st Hc) as (st' & E & _).
    rewrite E. simpl. unfold clientResult.
    destruct (Enhanced.tryBlock (messages_create (calls st))) as [a|e] eqn:Ht.
    + assert (Hinv : truthy (Enhanced.eventType a) = true
                     /\ truthy (Enhanced.tasks a) = true
                     /\ truthy (Enhanced.confidence a) = true).
      { unfold Enhanced.tryBlock in Ht.
        destruct (messages_create (calls st)) as [[|[text|] rest]|err];
          try discriminate.
        destruct (JSON_parse _) as [v|]; [|discriminate].
        exact (fromReply_truthy v a Ht). }
      destruct Hinv as (H1 & H2 & H3). repeat split; auto.
      intros text rest fields q Ho Hp Hq Hz.
      rewrite Ho in Ht. rewrite (enhanced_object_reply text rest fields Hp) in Ht.
      injection Ht as <-. simpl. rewrite Hq. unfold or. simpl. rewrite Hz.
      reflexivity.
    + repeat split; try reflexivity.
      intros text rest fields q Ho Hp Hq Hz.
      rewrite Ho in Ht. rewrite (enhanced_object_reply text rest fields Hp) in Ht.
      discriminate.
  - rewrite (enhanced_client_rejects event st Hc). simpl.
    apply incomplete_times. exact Hc.
Qed.

(** X3.  Whatever the provider answers, a value returned by the client
    without settings is an object with a truthy [eventType] and an array
    under [suggestedTasks]: either a reply that passed the validation, or
    the default.  The client returns such a value for every event that has
    a start and an end; it rejects only for an event without start or
    end. *)
Theorem simple_result_is_always_validated (event : EventObject) (st : State) :
  match fst (Simple.analyzeCalendarEvent event st) with
  | Normal v =>
      exists fields,
        v = JObj fields
        /\ truthy (lookupField "eventType" fields) = true
        /\ isArray (lookupField "suggestedTasks" fields) = true
  | Throw _ => obj_start event = None \/ obj_end event = None
  end.
Proof.
  destruct (complete event) eqn:Hc.
  - destruct (simple_client_returns event st Hc) as (st' & E & _).
    rewrite E. simpl. unfold simpleResult.
    destruct (Simple.tryBlock (messages_create (calls st))) as [v|e] eqn:Ht.
    + unfold Simple.tryBlock in Ht.
      destruct (messages_create (calls st)) as [[|[text|] rest]|err];
        try discriminate.
      destruct (jsonMatch text) as [span|]; [|discriminate].
      destruct (JSON_parse span) as [analysis|]; [|discriminate].
      destruct analysis as [| | | | | |fields]; simpl in Ht; try discriminate.
      destruct (truthy (lookupField "eventType" fields)) eqn:H1;
        simpl in Ht; [|discriminate].
      destruct (isArray (lookupField "suggestedTasks" fields)) eqn:H2;
        simpl in Ht; [|discriminate].
      injection Ht as <-. exists fields. auto.
    + eexists. split; [reflexivity|]. split; reflexivity.
  - rewrite (simple_client_rejects event st Hc). simpl.
    apply incomplete_times. exact Hc.
Qed.

End ClientInvariants.

(** ** Pacing, repeated ids and batch sizes *)

Section PacingFacts.
Context `{Services}.

(** X4.  A run of the dispatcher with settings makes exactly one provider
    call for each event that has a start and an end, and pauses for 1500 ms
    after each such event unless it is the last of the list; for an event
    without start or end, whose call rejects, it neither calls the provider
    nor pauses.  So over [n] events that all have a start and an end it
    makes [n] calls and takes [n - 1] pauses: one between consecutive
    events, none after the last, and none for an empty list. *)
Theorem dispatcher_pauses_between_events_only (events : list EventObject)
    (st : State) (extra : nat) :
  exists results st',
    Enhanced.analyzeBatchEvents (length events + extra) events st
    = Some (results, st')
    /\ calls st' = (calls st + length (List.filter complete events))%nat
    /\ sleeps st'
       = sleeps st
         ++ replicate (length (List.filter complete (removelast events))) 1500
    /\ (Forall (fun event => complete event = true) events ->
        calls st' = (calls st + length events)%nat
        /\ sleeps st' = sleeps st ++ replicate (length events - 1) 1500).
Proof.
  destruct (dispatch_real events (length events + extra) st)
    as (st' & E & Hc & _ & Hs); [lia|].
  rewrite pausesFor_delay in Hs. unfold callsFor in *.
  eexists _, st'. split; [exact E|]. split; [exact Hc|]. split; [exact Hs|].
  intros Hall. rewrite Hc, Hs.
  pose proof (callsFor_complete events Hall) as Hn. unfold callsFor in Hn.
  rewrite Hn. split; [reflexivity|].
  assert (Hrl : Forall (fun event => complete event = true) (removelast events)).
  { apply List.Forall_forall. intros e He.
    apply (proj1 (List.Forall_forall _ _) Hall).
    clear -He. induction events as [|x l IH]; [destruct He|].
    destruct l as [|y l]; [destruct He|].
    change (removelast (x :: y :: l)) with (x :: removelast (y :: l)) in He.
    destruct He as [<- | He]; [left; reflexivity|right; apply IH; exact He]. }
  pose proof (callsFor_complete _ Hrl) as Hm. unfold callsFor in Hm.
  rewrite Hm. f_equal. f_equal.
  clear. induction events as [|x l IH]; [reflexivity|].
  destruct l as [|y l]; [reflexivity|].
  change (removelast (x :: y :: l)) with (x :: removelast (y :: l)).
  simpl in *. lia.
Qed.

End PacingFacts.

Section CollectFacts.

Lemma collect_absent {V} (result : nat -> V) (fallback : option V)
    (events : list EventObject) :
  forall (k : nat) (results : gmap string V) (eid : string),
    (forall j event, events !! j = Some event -> obj_id event <> eid) ->
    collect result fallback k events results !! eid = results !! eid.
Proof.
  induction events as [|event events IH]; intros k results eid Hno; simpl.
  - reflexivity.
  - assert (Hne : obj_id event <> eid) by exact (Hno 0%nat event eq_refl).
    assert (Hrest : forall j e, events !! j = Some e -> obj_id e <> eid)
      by (intros j e He; exact (Hno (S j) e He)).
    destruct (complete event); rewrite IH by exact Hrest.
    + apply lookup_insert_ne. exact Hne.
    + destruct fallback; [apply lookup_insert_ne; exact Hne|reflexivity].
Qed.

Lemma collect_last {V} (result : nat -> V) (d : V) (events : list EventObject) :
  forall (k j : nat) (results : gmap string V) (event : EventObject),
    events !! j = Some event ->
    (forall j' other, (j < j')%nat -> events !! j' = Some other ->
                      obj_id other <> obj_id event) ->
    collect result (Some d) k events results !! obj_id event
    = Some (if complete event
            then result (k + callsFor (take j events))%nat
            else d).
Proof.
  induction events as [|e events IH]; intros k j results event Hj Hlast.
  - discriminate.
  - destruct j as [|j]; simpl in *.
    + injection Hj as ->.
      assert (Hno : forall j' other, events !! j' = Some other ->
                                     obj_id other <> obj_id event)
        by (intros j' other Ho; apply (Hlast (S j') other); [lia|exact Ho]).
      destruct (complete event); rewrite collect_absent by exact Hno;
        rewrite lookup_insert_eq; [|reflexivity].
      unfold callsFor. simpl. rewrite Nat.add_0_r. reflexivity.
    + assert (Hrest : forall j' other, (j < j')%nat -> events !! j' = Some other ->
                                       obj_id other <> obj_id event)
        by (intros j' other Hlt Ho; apply (Hlast (S j') other); [lia|exact Ho]).
      unfold callsFor. simpl.
      destruct (complete e); rewrite (IH _ j _ event Hj Hrest);
        unfold callsFor; simpl; [|reflexivity].
      destruct (complete event); [|reflexivity].
      f_equal. f_equal. lia.
Qed.

End CollectFacts.

Section RepeatedIds.
Context `{Services}.

(** X5.  When several events of the input carry the same id, each of them
    is still gone through (and sent to the provider when it has a start and
    an end), and the entry kept under the id is that of the last of them:
    the analysis the client returned for it, or the default of the
    dispatcher when it has no start or no end. *)
Theorem last_event_with_an_id_wins (events : list EventObject) (st : State)
    (extra j : nat) (event : EventObject) :
  events !! j = Some event ->
  (forall j' other, (j < j')%nat -> events !! j' = Some other ->
                    obj_id other <> obj_id event) ->
  exists results st',
    Enhanced.analyzeBatchEvents (length events + extra) events st
    = Some (results, st')
    /\ calls st' = (calls st + length (List.filter complete events))%nat
    /\ exists a,
         results !! obj_id event = Some a
         /\ if complete event
            then
              forall st0,
                calls st0
                = (calls st + length (List.filter complete (take j events)))%nat ->
                fst (Enhanced.analyzeCalendarEvent event st0) = Normal a
            else a = Enhanced.dispatcherDefault.
Proof.
  intros Hj Hlast.
  destruct (dispatch_real events (length events + extra) st) as (st' & E & Hc & _);
    [lia|].
  eexists _, st'. split; [exact E|]. split; [exact Hc|].
  eexists. split.
  - unfold expected.
    apply (collect_last clientResult Enhanced.dispatcherDefault events (calls st) j ∅
             event Hj Hlast).
  - destruct (complete event) eqn:Hce; [|reflexivity].
    intros st0 Hst0.
    destruct (enhanced_client_returns event st0 Hce) as (st1 & E1 & _).
    rewrite E1, Hst0. reflexivity.
Qed.

(** X6.  In the dispatcher without settings the batch size does not matter
    to the outcome: for any two positive values of [maxConcurrent] the
    runs end with the same mapping and the same number of provider calls,
    one per event that has a start and an end, that is, one per event when
    all events have both. *)
Theorem batch_size_does_not_change_the_mapping (events : list EventObject)
    (st : State) (extra m1 m2 : nat) :
  (0 < m1)%nat -> (0 < m2)%nat ->
  exists results st1 st2,
    Simple.analyzeBatchEvents (length events + extra) events (Some m1) st
    = Some (results, st1)
    /\ Simple.analyzeBatchEvents (length events + extra) events (Some m2) st
       = Some (results, st2)
    /\ calls st1 = (calls st + length (List.filter complete events))%nat
    /\ calls st2 = (calls st + length (List.filter complete events))%nat
    /\ (Forall (fun event => complete event = true) events ->
        calls st1 = (calls st + length events)%nat
        /\ calls st2 = (calls st + length events)%nat).
Proof.
  intros H1 H2. unfold Simple.analyzeBatchEvents. simpl.
  destruct (simple_loop_collects events m1 H1 (length events + extra)%nat 0%nat ∅ st)
    as (st1 & E1 & Hc1 & _); [rewrite drop_0; lia|].
  destruct (simple_loop_collects events m2 H2 (length events + extra)%nat 0%nat ∅ st)
    as (st2 & E2 & Hc2 & _); [rewrite drop_0; lia|].
  rewrite drop_0 in *. unfold callsFor in *.
  eexists _, st1, st2.
  split; [exact E1|]. split; [exact E2|]. split; [exact Hc1|]. split; [exact Hc2|].
  intros Hall. pose proof (callsFor_complete events Hall) as Hn.
  unfold callsFor in Hn. rewrite Hc1, Hc2, Hn. split; reflexivity.
Qed.

(** X7.  With [maxConcurrent] 0 the loop of the dispatcher without settings
    never advances: on a non-empty list no number of passes ends it. *)
Theorem zero_batch_size_never_ends (events : list EventObject) (st : State) :
  events <> [] ->
  forall fuel, Simple.analyzeBatchEvents fuel events (Some 0%nat) st = None.
Proof.
  intros Hne fuel. unfold Simple.analyzeBatchEvents. simpl.
  assert (Hlt : (0 <? length events)%nat = true).
  { destruct events; [congruence|reflexivity]. }
  generalize (∅ : gmap string Value) as results.
  induction fuel as [|fuel IH]; intros results; simpl; rewrite Hlt;
    [reflexivity|].
  unfold Simple.slice. simpl. apply IH.
Qed.

End RepeatedIds.

Section HandlerFacts.
Variable client : EventObject -> State -> Completion Enhanced.EventAnalysis * State.

(** X8.  The [catch] of the dispatcher with settings, for a callee that lets
    an error through.  If the callee fails on the event at index [i] with an
    [Error] whose message contains "429" and succeeds when called again, two
    passes leave the loop at index [i+1] with the successful analysis as the
    event's entry, after a pause of 60000 ms and one "Failed to analyze" and
    one "Rate limited" line; the failed attempt leaves no entry. *)
Theorem retry_after_rate_limit_keeps_the_success (events : list EventObject)
    (i fuel : nat) (event : EventObject)
    (results : gmap string Enhanced.EventAnalysis) (st st1 st2 : State)
    (error : Thrown) (analysis : Enhanced.EventAnalysis) :
  events !! i = Some event ->
  Enhanced.isRateLimit error = true ->
  client event
    (log (LogAnalyzing (i + 1) (length events)
            (orString (obj_summary event) "Untitled")) st)
  = (Throw error, st1) ->
  client event
    (log (LogAnalyzing (i + 1) (length events)
            (orString (obj_summary event) "Untitled"))
       (sleep 60000 (log LogRateLimited (log (ErrFailed (obj_id event) error) st1))))
  = (Normal analysis, st2) ->
  Enhanced.loop client (S (S fuel)) events i results st
  = Enhanced.loop client fuel events (S i)
      (<[obj_id event := analysis]> results)
      (if (S i <? length events)%nat
       then sleep Enhanced.delayBetweenRequests st2 else st2).
Proof.
  intros Hl Hr E1 E2.
  change (Enhanced.loop client (S (S fuel)) events i results st)
    with (match events !! i with
          | None => Some (results, st)
          | Some event0 =>
              let '(i', results', st') :=
                Enhanced.iteration client (length events) i event0 results st in
              Enhanced.loop client (S fuel) events i' results' st'
          end).
  rewrite Hl. unfold Enhanced.iteration at 1. rewrite E1, Hr.
  change (Enhanced.loop client (S fuel) events i results ?s)
    with (match events !! i with
          | None => Some (results, s)
          | Some event0 =>
              let '(i', results', st') :=
                Enhanced.iteration client (length events) i event0 results s in
              Enhanced.loop client fuel events i' results' st'
          end).
  rewrite Hl. unfold Enhanced.iteration at 1. rewrite E2. reflexivity.
Qed.

End HandlerFacts.

Lemma last_event_with_an_id_wins_witness :
  exists results st',
    @Enhanced.analyzeBatchEvents Examples.sampleServices 2
      [Examples.party; asObject MoreExamples.partyAgain] initial
    = Some (results, st')
    /\ calls st' = 2%nat
    /\ exists a,
         results !! "evt-party" = Some a
         /\ forall st0, calls st0 = 1%nat ->
              fst (@Enhanced.analyzeCalendarEvent Examples.sampleServices
                     (asObject MoreExamples.partyAgain) st0) = Normal a.
Proof.
  apply (@last_event_with_an_id_wins Examples.sampleServices
           [Examples.party; asObject MoreExamples.partyAgain] initial 0 1
           (asObject MoreExamples.partyAgain) eq_refl).
  intros j' other Hlt Ho. destruct j' as [|[|j']]; [lia|lia|discriminate].
Defined.

(** The same with the last event lacking an end: the entry kept is the
    default of the dispatcher, although the first event was analyzed. *)
Example last_event_without_end_wins :
  exists st',
    @Enhanced.analyzeBatchEvents Examples.sampleServices 2
      [Examples.party; Examples.partyWithoutEnd] (Examples.afterCalls 1)
    = Some ({[ "evt-party" := Enhanced.dispatcherDefault ]}, st')
    /\ calls st' = 2%nat
    /\ sleeps st' = [1500].
Proof.
  eexists. split; [reflexivity|]. split; reflexivity.
Qed.

Lemma batch_size_does_not_change_the_mapping_witness :
  exists results st1 st2,
    @Simple.analyzeBatchEvents Examples.sampleServices 2
      [Examples.party; asObject MoreExamples.dinnerTomorrow] (Some 1%nat) initial
    = Some (results, st1)
    /\ @Simple.analyzeBatchEvents Examples.sampleServices 2
         [Examples.party; asObject MoreExamples.dinnerTomorrow] (Some 5%nat) initial
       = Some (results, st2)
    /\ calls st1 = 2%nat
    /\ calls st2 = 2%nat.
Proof.
  destruct (@batch_size_does_not_change_the_mapping Examples.sampleServices
              [Examples.party; asObject MoreExamples.dinnerTomorrow] initial 0 1 5)
    as (results & st1 & st2 & E1 & E2 & H1 & H2 & _); [lia|lia|].
  exists results, st1, st2. auto.
Defined.

Lemma zero_batch_size_never_ends_witness :
  @Simple.analyzeBatchEvents Examples.sampleServices 1000
    [Examples.party] (Some 0%nat) initial = None.
Proof.
  apply (@zero_batch_size_never_ends Examples.sampleServices
           [Examples.party] initial).
  discriminate.
Defined.

Lemma retry_after_rate_limit_keeps_the_success_witness :
  Enhanced.loop Examples.flakyClient 2 [Examples.party] 0 ∅ initial
  = Enhanced.loop Examples.flakyClient 0 [Examples.party] 1
      (<["evt-party" := Examples.socialAnalysis]> ∅)
      (called
         (log (LogAnalyzing 1 1 "Birthday Party")
            (sleep 60000
               (log LogRateLimited
                  (log (ErrFailed "evt-party" Examples.rateLimited)
                     (called (log (LogAnalyzing 1 1 "Birthday Party") initial))))))).
Proof.
  exact (retry_after_rate_limit_keeps_the_success Examples.flakyClient
           [Examples.party] 0 0 Examples.party ∅ initial _ _
           Examples.rateLimited Examples.socialAnalysis
           eq_refl eq_refl eq_refl eq_refl).
Defined.

(** ** More on the Task Materializer *)

Section MaterializerMore.
Context `{Host}.

Lemma mapM_create_rows (aeid : nat) (hid : string) (startDate : Z)
    (sts : list SuggestedTask) :
  forall w,
    fst (mapM (fun task =>
                 create aeid hid task
                   (setDate startDate (getDate startDate - daysBeforeEvent task)))
              sts w)
    = materialized aeid hid startDate (nextId w) sts.
Proof.
  induction sts as [|s sts IH]; intros w; simpl; [reflexivity|].
  erewrite bind_run by (unfold create; reflexivity).
  match goal with |- context [bind (mapM ?f sts) _ ?w1] =>
    specialize (IH w1); destruct (mapM f sts w1) as [rows w2] eqn:E end.
  erewrite bind_run by exact E. unfold ret. simpl in *.
  rewrite IH, setDate_getDate_minus. reflexivity.
Qed.

(** The rows returned on the write path, spelled out. *)
Lemma save_write_rows (hid : string) (event : CalendarEvent)
    (analysis : EventAnalysis) (w : World) :
  List.find (hasEventId (ev_id event)) (analyzedEvent w) = None
  \/ forceReanalysis analysis = true ->
  let '((ae, tasks), _) := saveAnalyzedEvent hid event analysis w in
  tasks = materialized (ae_id ae) hid (startOf event w)
            match List.find (hasEventId (ev_id event)) (analyzedEvent w) with
            | Some _ => nextId w
            | None => S (nextId w)
            end
            (suggestedTasks analysis).
Proof.
  intros Hwrite. unfold saveAnalyzedEvent.
  destruct (resolveDate_tables (start event) w) as [k1 E1].
  rewrite (bind_run _ _ _ _ _ E1). rewrite (resolveDate_start event w).
  match goal with |- context [bind (resolveDate (end_ event)) _ ?w1] =>
    destruct (resolveDate_tables (end_ event) w1) as [k2 E2] end.
  rewrite (bind_run _ _ _ _ _ E2). simpl.
  erewrite bind_run by (unfold findUnique; simpl; reflexivity).
  destruct (List.find (hasEventId (ev_id event)) (analyzedEvent w)) as [r|] eqn:Hfind.
  - destruct Hwrite as [Hw | Hw]; [discriminate|]. rewrite Hw. simpl.
    erewrite bind_run by (unfold newDate; simpl; reflexivity).
    erewrite bind_run by (unfold upsert; simpl; rewrite Hfind; reflexivity).
    erewrite bind_run by (unfold deleteMany; simpl; reflexivity).
    match goal with |- context [bind (mapM ?f ?l) _ ?w1] =>
      pose proof (mapM_create_rows (ae_id r) hid (startOf event w) l w1
                  : fst (mapM f l w1) = _) as R;
      destruct (mapM f l w1) as [rows w2] eqn:E end.
    erewrite bind_run by exact E. unfold ret. simpl in *. exact R.
  - erewrite bind_run by (unfold newDate; simpl; reflexivity).
    erewrite bind_run by (unfold upsert; simpl; rewrite Hfind; reflexivity).
    erewrite bind_run by (unfold deleteMany; simpl; reflexivity).
    match goal with |- context [bind (mapM ?f ?l) _ ?w1] =>
      pose proof (mapM_create_rows (nextId w) hid (startOf event w) l w1
                  : fst (mapM f l w1) = _) as R;
      destruct (mapM f l w1) as [rows w2] eqn:E end.
    erewrite bind_run by exact E. unfold ret. simpl in *. exact R.
Qed.

Lemma materialized_keys (aeid : nat) (hid : string) (startDate : Z)
    (sts : list SuggestedTask) :
  forall base,
    map task_id (materialized aeid hid startDate base sts) = seq base (length sts).
Proof.
  induction sts as [|s sts IH]; intros base; simpl; [reflexivity|].
  rewrite IH. reflexivity.
Qed.

Lemma map_id_updateFirst (p : AnalyzedEvent -> bool)
    (f : AnalyzedEvent -> AnalyzedEvent) (l : list AnalyzedEvent) :
  (forall r, ae_id (f r) = ae_id r) ->
  map ae_id (updateFirst p f l) = map ae_id l.
Proof.
  intros Hf. induction l as [|x l IH]; simpl; [reflexivity|].
  destruct (p x); simpl; [rewrite Hf|rewrite IH]; reflexivity.
Qed.

Lemma NoDup_map_filter {A B} (f : A -> B) (p : A -> bool) (l : list A) :
  List.NoDup (map f l) -> List.NoDup (map f (List.filter p l)).
Proof.
  induction l as [|x l IH]; simpl; [auto|].
  intros Hnd. inversion Hnd as [|? ? Hx Hl]; subst.
  destruct (p x); simpl; [|auto].
  constructor; [|auto].
  intros Hin. apply Hx. apply in_map_iff in Hin as (y & Ey & Hy).
  apply filter_In in Hy as [Hy _]. apply in_map_iff. eauto.
Qed.

(** The whole result of the write path: the record, the rows, the tables. *)
Lemma save_write_full (hid : string) (event : CalendarEvent)
    (analysis : EventAnalysis) (w : World) :
  List.find (hasEventId (ev_id event)) (analyzedEvent w) = None
  \/ forceReanalysis analysis = true ->
  exists ae endDate now k,
    let base := match List.find (hasEventId (ev_id event)) (analyzedEvent w) with
                | Some _ => nextId w
                | None => S (nextId w)
                end in
    let rows := materialized (ae_id ae) hid (startOf event w) base
                  (suggestedTasks analysis) in
    saveAnalyzedEvent hid event analysis w =
    ((ae, rows),
     {| analyzedEvent :=
          match List.find (hasEventId (ev_id event)) (analyzedEvent w) with
          | Some _ =>
              updateFirst (hasEventId (ev_id event))
                (updateRow event (startOf event w) endDate analysis now)
                (analyzedEvent w)
          | None => analyzedEvent w ++ [ae]
          end;
        suggestedTask :=
          List.filter (fun t => negb (ownedBy (ae_id ae) t)) (suggestedTask w) ++ rows;
        nextId := (base + length (suggestedTasks analysis))%nat;
        ticks := k |})
    /\ ae = match List.find (hasEventId (ev_id event)) (analyzedEvent w) with
            | Some r => updateRow event (startOf event w) endDate analysis now r
            | None => createRow (nextId w) hid event (startOf event w) endDate analysis
            end.
Proof.
  intros Hwrite.
  destruct (save_write hid event analysis w Hwrite)
    as (ae & rows & endDate & now & k & E & Hae & _).
  pose proof (save_write_rows hid event analysis w Hwrite) as R.
  rewrite E in R. subst rows.
  exists ae, endDate, now, k. cbv zeta. split; [exact E|exact Hae].
Qed.

(** X9.  [saveAnalyzedEvent] keeps the invariant of the database: if event
    ids are unique, primary keys are below the counter and no primary key is
    repeated, the same holds after the call, on either path. *)
Theorem save_keeps_database_invariant (hid : string) (event : CalendarEvent)
    (analysis : EventAnalysis) (w : World) :
  wellFormed w -> keysDistinct w ->
  let w' := snd (saveAnalyzedEvent hid event analysis w) in
  wellFormed w' /\ keysDistinct w'.
Proof.
  intros Hwf [Hke Hkt]. cbv zeta.
  split; [apply save_wellFormed; exact Hwf|].
  destruct Hwf as [Hu Ht He].
  destruct (List.find (hasEventId (ev_id event)) (analyzedEvent w)) as [r|] eqn:Hfind;
    [destruct (forceReanalysis analysis) eqn:Hforce|].
  - destruct (save_write_full hid event analysis w (or_intror Hforce))
      as (ae & endDate & now & k & E & Hae).
    cbv zeta in E. rewrite Hfind in E, Hae. rewrite E. simpl. split; simpl.
    + rewrite map_id_updateFirst; [exact Hke|reflexivity].
    + rewrite map_app, materialized_keys. apply NoDup_app. split; [|split].
      * apply NoDup_ListNoDup, NoDup_map_filter, NoDup_ListNoDup. exact Hkt.
      * intros x Hx Hs. apply list_elem_of_In in Hx, Hs.
        apply in_map_iff in Hx as (t & <- & Hin). apply filter_In in Hin as [Hin _].
        rewrite List.Forall_forall in Ht. specialize (Ht t Hin).
        apply in_seq in Hs. lia.
      * apply NoDup_ListNoDup, seq_NoDup.
  - destruct (save_cached hid event analysis w r Hfind Hforce) as [k E].
    rewrite E. split; simpl; assumption.
  - destruct (save_write_full hid event analysis w (or_introl Hfind))
      as (ae & endDate & now & k & E & Hae).
    cbv zeta in E. rewrite Hfind in E, Hae. rewrite E. simpl. split; simpl.
    + rewrite map_app. simpl. apply NoDup_app. split; [exact Hke|]. split.
      * intros x Hx Hin. apply list_elem_of_In in Hin. simpl in Hin.
        destruct Hin as [<- | []]. subst ae. simpl in Hx.
        apply list_elem_of_In, in_map_iff in Hx as (y & Ey & Hy).
        rewrite List.Forall_forall in He. specialize (He y Hy). lia.
      * apply NoDup_singleton.
    + rewrite map_app, materialized_keys. apply NoDup_app. split; [|split].
      * apply NoDup_ListNoDup, NoDup_map_filter, NoDup_ListNoDup. exact Hkt.
      * intros x Hx Hs. apply list_elem_of_In in Hx, Hs.
        apply in_map_iff in Hx as (t & <- & Hin). apply filter_In in Hin as [Hin _].
        rewrite List.Forall_forall in Ht. specialize (Ht t Hin).
        apply in_seq in Hs. lia.
      * apply NoDup_ListNoDup, seq_NoDup.
Qed.

Lemma In_updateFirst_other {A} (p : A -> bool) (f : A -> A) (l : list A) (x : A) :
  p x = false -> In x l -> In x (updateFirst p f l).
Proof.
  intros Hp. induction l as [|y l IH]; simpl; [auto|].
  intros [-> | Hin].
  - rewrite Hp. left. reflexivity.
  - destruct (p y); [right; exact Hin|right; auto].
Qed.

Lemma filter_owned_other (a b : nat) (l : list Task) :
  a <> b ->
  List.filter (ownedBy a) (List.filter (fun t => negb (ownedBy b t)) l)
  = List.filter (ownedBy a) l.
Proof.
  intros Hab. induction l as [|t l IH]; simpl; [reflexivity|].
  destruct (ownedBy b t) eqn:Ob; destruct (ownedBy a t) eqn:Oa; simpl;
    rewrite ?Oa, ?IH; try reflexivity.
  unfold ownedBy in Ob, Oa. apply Nat.eqb_eq in Ob, Oa. lia.
Qed.

Lemma filter_owned_materialized (a b : nat) (hid : string) (startDate : Z)
    (sts : list SuggestedTask) :
  a <> b ->
  forall base,
    List.filter (ownedBy a) (materialized b hid startDate base sts) = [].
Proof.
  intros Hab. induction sts as [|s sts IH]; intros base; simpl; [reflexivity|].
  match goal with |- (if ownedBy a ?t then _ else _) = _ =>
    destruct (ownedBy a t) eqn:Oa end; [|apply IH].
  unfold ownedBy in Oa. simpl in Oa. apply Nat.eqb_eq in Oa. lia.
Qed.

Lemma distinct_event_distinct_key (l : list AnalyzedEvent) (r r' : AnalyzedEvent) :
  List.NoDup (map ae_id l) -> In r l -> In r' l ->
  ae_eventId r <> ae_eventId r' -> ae_id r <> ae_id r'.
Proof.
  induction l as [|x l IH]; simpl; [tauto|].
  intros Hnd Hr Hr' Hne Hid. inversion Hnd as [|? ? Hx Hl]; subst.
  destruct Hr as [-> | Hr], Hr' as [-> | Hr'].
  - congruence.
  - apply Hx. rewrite Hid. apply in_map. exact Hr'.
  - apply Hx. rewrite <- Hid. apply in_map. exact Hr.
  - exact (IH Hl Hr Hr' Hne Hid).
Qed.

(** X10.  Saving one event never touches another event's record or tasks:
    every record with a different event id is still in the table, unchanged,
    and owns exactly the tasks it owned before. *)
Theorem save_leaves_other_events_alone (hid : string) (event : CalendarEvent)
    (analysis : EventAnalysis) (w : World) (other : AnalyzedEvent) :
  wellFormed w -> keysDistinct w ->
  In other (analyzedEvent w) ->
  ae_eventId other <> ev_id event ->
  let w' := snd (saveAnalyzedEvent hid event analysis w) in
  In other (analyzedEvent w')
  /\ ownedTasks (ae_id other) w' = ownedTasks (ae_id other) w.
Proof.
  intros [Hu Ht He] [Hke Hkt] Hin Hne. cbv zeta.
  assert (Hp : hasEventId (ev_id event) other = false).
  { destruct (hasEventId (ev_id event) other) eqn:Hp; [|reflexivity].
    apply hasEventId_true in Hp. congruence. }
  destruct (List.find (hasEventId (ev_id event)) (analyzedEvent w)) as [r|] eqn:Hfind;
    [destruct (forceReanalysis analysis) eqn:Hforce|].
  - destruct (save_write_full hid event analysis w (or_intror Hforce))
      as (ae & endDate & now & k & E & Hae).
    cbv zeta in E. rewrite Hfind in E, Hae. rewrite E. unfold ownedTasks. simpl.
    split; [apply In_updateFirst_other; assumption|].
    assert (Hid : ae_id other <> ae_id ae).
    { subst ae. simpl. apply find_some in Hfind as [Hr Hpr].
      apply hasEventId_true in Hpr.
      apply (distinct_event_distinct_key (analyzedEvent w));
        [apply NoDup_ListNoDup; exact Hke|exact Hin|exact Hr|congruence]. }
    rewrite List.filter_app, filter_owned_other, filter_owned_materialized by auto.
    apply app_nil_r.
  - destruct (save_cached hid event analysis w r Hfind Hforce) as [k E].
    rewrite E. unfold ownedTasks. simpl. auto.
  - destruct (save_write_full hid event analysis w (or_introl Hfind))
      as (ae & endDate & now & k & E & Hae).
    cbv zeta in E. rewrite Hfind in E, Hae. rewrite E. unfold ownedTasks. simpl.
    split; [apply in_or_app; left; exact Hin|].
    assert (Hid : ae_id other <> ae_id ae).
    { subst ae. simpl. rewrite List.Forall_forall in He.
      specialize (He other Hin). lia. }
    rewrite List.filter_app, filter_owned_other, filter_owned_materialized by auto.
    apply app_nil_r.
Qed.

(** X11.  A forced re-analysis rewrites the cached record but never moves
    it: the record keeps its primary key, event id and household, whatever
    household the caller passes, while every new task is filed under the
    caller's household. *)
Theorem forced_save_keeps_the_record_household (hid : string)
    (event : CalendarEvent) (analysis : EventAnalysis) (w : World)
    (r : AnalyzedEvent) :
  List.find (hasEventId (ev_id event)) (analyzedEvent w) = Some r ->
  forceReanalysis analysis = true ->
  let '((ae, tasks), w') := saveAnalyzedEvent hid event analysis w in
  ae_id ae = ae_id r
  /\ ae_eventId ae = ae_eventId r
  /\ ae_householdId ae = ae_householdId r
  /\ Forall (fun t => householdId t = hid /\ analyzedEventId t = ae_id r) tasks
  /\ length tasks = length (suggestedTasks analysis).
Proof.
  intros Hfind Hforce.
  destruct (save_write hid event analysis w (or_intror Hforce))
    as (ae & rows & endDate & now & k & E & Hae & F2 & _).
  rewrite Hfind in Hae. rewrite E. subst ae. simpl in *.
  repeat split; try reflexivity.
  - clear E. induction F2 as [|s t sts rows Hm _ IH]; constructor; [|exact IH].
    unfold materializes in Hm. tauto.
  - symmetry. eapply Forall2_length. exact F2.
Qed.

End MaterializerMore.

Lemma save_keeps_database_invariant_witness :
  let w' := snd (@saveAnalyzedEvent Examples.utc0 "household-1"
                   Examples.birthdayParty Examples.partyAnalysis emptyWorld) in
  wellFormed w' /\ keysDistinct w'.
Proof.
  apply (@save_keeps_database_invariant Examples.utc0 "household-1"
           Examples.birthdayParty Examples.partyAnalysis emptyWorld).
  - exact emptyWorld_wellFormed.
  - split; simpl; constructor.
Defined.

Lemma partySaved_sound : wellFormed Examples.partySaved /\ keysDistinct Examples.partySaved.
Proof.
  split; [apply save_wellFormed; exact emptyWorld_wellFormed|].
  split; apply NoDup_ListNoDup; vm_compute;
    (constructor; [simpl; tauto|constructor]).
Qed.

Lemma save_leaves_other_events_alone_witness :
  exists other,
    In other (analyzedEvent Examples.partySaved)
    /\ ae_eventId other = "evt-party"
    /\ let w' := snd (@saveAnalyzedEvent Examples.utc0 "household-1"
                        MoreExamples.dinnerTomorrow Examples.partyAnalysis
                        Examples.partySaved) in
       In other (analyzedEvent w')
       /\ ownedTasks (ae_id other) w' = ownedTasks (ae_id other) Examples.partySaved.
Proof.
  eexists. split; [left; reflexivity|]. split; [reflexivity|].
  apply (@save_leaves_other_events_alone Examples.utc0 "household-1"
           MoreExamples.dinnerTomorrow Examples.partyAnalysis Examples.partySaved).
  - exact (proj1 partySaved_sound).
  - exact (proj2 partySaved_sound).
  - left. reflexivity.
  - discriminate.
Defined.

Lemma forced_save_keeps_the_record_household_witness :
  let '((ae, tasks), w') :=
    @saveAnalyzedEvent Examples.utc0 "household-2" Examples.birthdayParty
      Examples.partyReanalysis Examples.partySaved in
  ae_householdId ae = "household-1"
  /\ Forall (fun t => householdId t = "household-2") tasks.
Proof.
  pose proof (@forced_save_keeps_the_record_household Examples.utc0 "household-2"
                Examples.birthdayParty Examples.partyReanalysis Examples.partySaved
                _ eq_refl eq_refl) as Hw.
  destruct (@saveAnalyzedEvent Examples.utc0 "household-2" Examples.birthdayParty
              Examples.partyReanalysis Examples.partySaved) as [[ae tasks] w'].
  destruct Hw as (_ & _ & Hh & Ht & _). split; [exact Hh|].
  eapply Forall_impl; [exact Ht|]. simpl. tauto.
Defined.

(** ** More on the Task Bucketizer *)

Section BucketizerMore.
Context `{Host}.

Lemma In_materialized (aeid : nat) (hid : string) (startDate : Z)
    (sts : list SuggestedTask) (t : Task) :
  forall base,
    In t (materialized aeid hid startDate base sts) ->
    exists s, In s sts
              /\ dueDate t = startDate - daysBeforeEvent s * msPerDay
              /\ householdId t = hid
              /\ status t = "pending".
Proof.
  induction sts as [|s sts IH]; intros base; simpl; [tauto|].
  intros [<- | Hin].
  - exists s. simpl. auto.
  - destruct (IH _ Hin) as (s' & Hs' & Hrest). exists s'. auto.
Qed.

(** X12.  Saving and then listing, with the clock held at [now]: a task
    just materialized for household [hid] is returned by [getUpcomingTasks]
    exactly when its due date, the event's start minus the suggestion's lead
    time, lies between [now] and [now] plus 30 days.  A task whose lead
    time is longer than the time left until the event is stored but never
    listed. *)
Theorem materialized_task_is_listed_iff_due_in_window (hid : string)
    (event : CalendarEvent) (analysis : EventAnalysis) (w : World) (now : Z) :
  (forall k, clock k = now) ->
  List.find (hasEventId (ev_id event)) (analyzedEvent w) = None
  \/ forceReanalysis analysis = true ->
  let '((ae, tasks), w') := saveAnalyzedEvent hid event analysis w in
  let r := fst (getUpcomingTasks hid noOptions w') in
  Forall (fun t =>
            In t (suggestedTask w')
            /\ (exists s, In s (suggestedTasks analysis)
                          /\ dueDate t = startOf event w - daysBeforeEvent s * msPerDay)
            /\ (In t (all r) <-> now <= dueDate t <= now + 30 * msPerDay))
         tasks.
Proof.
  intros Hclock Hwrite.
  destruct (save_write_full hid event analysis w Hwrite)
    as (ae & endDate & t0 & k & E & Hae).
  cbv zeta in E. rewrite E. cbv zeta.
  match goal with |- context [getUpcomingTasks hid noOptions ?w1] =>
    pose proof (getUpcomingTasks_readings hid noOptions w1) as R end.
  cbv zeta in R. rewrite R. clear R. simpl. rewrite !Hclock.
  apply List.Forall_forall. intros t Hin.
  destruct (In_materialized _ _ _ _ _ _ Hin) as (s & Hs & Hdue & Hhid & Hst).
  split; [apply in_or_app; right; exact Hin|].
  split; [exists s; auto|].
  rewrite sortRows_In, filter_In, whereClause_spec.
  split; [tauto|]. intros Hw. split; [apply in_or_app; right; exact Hin|].
  auto.
Qed.

Lemma sorted_four_way (a b c : Z) (l : list Task) :
  a <= b -> b <= c ->
  StronglySorted dueLe l ->
  l = List.filter (fun t => dueDate t <? a) l
      ++ List.filter (fun t => (a <=? dueDate t) && (dueDate t <? b)) l
      ++ List.filter (fun t => (b <=? dueDate t) && (dueDate t <? c)) l
      ++ List.filter (fun t => c <=? dueDate t) l.
Proof.
  intros Hab Hbc Hs.
  rewrite <- (sorted_split a l Hs) at 1. f_equal.
  rewrite (sorted_three_way b c _ Hbc
             (filter_dueSorted (fun t => a <=? dueDate t) l Hs)) at 1.
  rewrite !filter_filter.
  apply (f_equal2 (@app Task)); [|apply (f_equal2 (@app Task))].
  - apply filter_ext. intros t. reflexivity.
  - apply filter_ext. intros t.
    destruct (Z.leb_spec a (dueDate t)), (Z.leb_spec b (dueDate t)); simpl;
      try reflexivity; lia.
  - apply filter_ext. intros t.
    destruct (Z.leb_spec a (dueDate t)), (Z.leb_spec c (dueDate t)); simpl;
      try reflexivity; lia.
Qed.

(** X13.  Whatever the options, and with any clock that does not run
    backwards between the readings the function takes, the four buckets cut
    the returned list into four consecutive segments: the list is the
    overdue bucket followed by this-week, next-week and later, so every
    returned task is in exactly one bucket and the buckets are in ascending
    order of due date. *)
Theorem buckets_partition_the_list (hid : string) (options : Options) (w : World) :
  monotone ->
  let r := fst (getUpcomingTasks hid options w) in
  all r = overdue r ++ thisWeek r ++ nextWeek r ++ later r
  /\ StronglySorted dueLe (all r).
Proof.
  intros Hmono.
  pose proof (getUpcomingTasks_readings hid options w) as E.
  cbv zeta in *. rewrite E. clear E. simpl.
  set (tasks := sortRows _).
  assert (Hs : StronglySorted dueLe tasks) by apply sortRows_dueSorted.
  split; [|exact Hs].
  assert (H23 : clock (ticks w + 2)%nat <= clock (ticks w + 3)%nat)
    by (apply Hmono; lia).
  assert (H34 : clock (ticks w + 3)%nat <= clock (ticks w + 4)%nat)
    by (apply Hmono; lia).
  apply sorted_four_way; [unfold msPerDay; lia|unfold msPerDay; lia|exact Hs].
Qed.

Lemma filter_nothing {A} (p : A -> bool) (l : list A) :
  (forall x, In x l -> p x = false) -> List.filter p l = [].
Proof.
  induction l as [|x l IH]; simpl; [reflexivity|].
  intros Hall. rewrite (Hall x (or_introl eq_refl)). apply IH.
  intros y Hy. apply Hall. right. exact Hy.
Qed.

(** X14.  A negative lookahead returns nothing: with a clock that does not
    run backwards and [daysAhead] below zero, the window ends before it
    starts, so the list and all four buckets are empty whatever the table
    holds. *)
Theorem negative_lookahead_returns_nothing (hid : string) (days : Z)
    (completedToo : option bool) (w : World) :
  monotone ->
  days < 0 ->
  fst (getUpcomingTasks hid
         {| daysAhead := Some days; includeCompleted := completedToo |} w)
  = {| overdue := []; thisWeek := []; nextWeek := []; later := []; all := [] |}.
Proof.
  intros Hmono Hneg.
  pose proof (getUpcomingTasks_readings hid
                {| daysAhead := Some days; includeCompleted := completedToo |} w) as E.
  cbv zeta in *. rewrite E. clear E. simpl.
  assert (H01 : clock (ticks w + 0)%nat <= clock (ticks w + 1)%nat)
    by (apply Hmono; lia).
  match goal with |- context [sortRows (List.filter ?p ?l)] =>
    assert (Hempty : List.filter p l = []) end; [|rewrite Hempty; reflexivity].
  apply filter_nothing.
  intros t _. unfold whereClause.
  destruct (Z.leb_spec (dueDate t) (clock (ticks w + 0)%nat + days * msPerDay));
    [|rewrite andb_false_r; reflexivity].
  destruct (Z.leb_spec (clock (ticks w + 1)%nat) (dueDate t));
    [|rewrite andb_false_r; reflexivity].
  unfold msPerDay in *. lia.
Qed.

End BucketizerMore.

Lemma materialized_task_is_listed_iff_due_in_window_witness :
  let '((ae, tasks), w') :=
    @saveAnalyzedEvent Examples.utc0 "household-1" MoreExamples.dinnerTomorrow
      Examples.partyAnalysis emptyWorld in
  let r := fst (@getUpcomingTasks Examples.utc0 "household-1" noOptions w') in
  Forall (fun t =>
            In t (suggestedTask w')
            /\ (exists s, In s (suggestedTasks Examples.partyAnalysis)
                          /\ dueDate t
                             = @startOf Examples.utc0 MoreExamples.dinnerTomorrow emptyWorld
                               - daysBeforeEvent s * msPerDay)
            /\ (In t (all r)
                <-> Examples.now0 <= dueDate t <= Examples.now0 + 30 * msPerDay))
         tasks.
Proof.
  apply (@materialized_task_is_listed_iff_due_in_window Examples.utc0 "household-1"
           MoreExamples.dinnerTomorrow Examples.partyAnalysis emptyWorld
           Examples.now0).
  - intros k. reflexivity.
  - left. reflexivity.
Defined.

(** The dinner is tomorrow and the sitter should have been booked seven days
    ahead: the task is stored, due six days ago, and the list is empty. *)
Example late_task_is_stored_but_not_listed :
  let '((ae, tasks), w') :=
    @saveAnalyzedEvent Examples.utc0 "household-1" MoreExamples.dinnerTomorrow
      Examples.partyAnalysis emptyWorld in
  map title (suggestedTask w') = ["Book babysitter"]
  /\ map dueDate (suggestedTask w') = [Examples.now0 - 6 * msPerDay]
  /\ all (fst (@getUpcomingTasks Examples.utc0 "household-1" noOptions w')) = [].
Proof. vm_compute. repeat split. Qed.

Lemma ticking_clock_monotone : @monotone MoreExamples.tickingUTC.
Proof. intros i j Hij. simpl. lia. Qed.

Lemma buckets_partition_the_list_witness :
  let r := fst (@getUpcomingTasks MoreExamples.tickingUTC "household-1" noOptions
                  Examples.worldWithFour) in
  all r = overdue r ++ thisWeek r ++ nextWeek r ++ later r
  /\ StronglySorted dueLe (all r).
Proof.
  apply (@buckets_partition_the_list MoreExamples.tickingUTC "household-1"
           noOptions Examples.worldWithFour).
  exact ticking_clock_monotone.
Defined.

Lemma negative_lookahead_returns_nothing_witness :
  fst (@getUpcomingTasks MoreExamples.tickingUTC "household-1"
         {| daysAhead := Some (-1); includeCompleted := None |}
         Examples.worldWithFour)
  = {| overdue := []; thisWeek := []; nextWeek := []; later := []; all := [] |}.
Proof.
  apply (@negative_lookahead_returns_nothing MoreExamples.tickingUTC "household-1"
           (-1) None Examples.worldWithFour).
  - exact ticking_clock_monotone.
  - lia.
Defined.

(** ** Completing and dismissing tasks *)

Import TaskUpdates.

Section UpdateFacts.
Context `{Host}.

Lemma updateTaskStatus_found (taskId : nat) (status : NewStatus) (w : World)
    (t : Task) :
  List.find (hasTaskId taskId) (suggestedTask w) = Some t ->
  updateTaskStatus taskId status w =
  (Normal (updateData status (clock (ticks w)) t),
   {| analyzedEvent := analyzedEvent w;
      suggestedTask :=
        updateFirst (hasTaskId taskId) (updateData status (clock (ticks w)))
          (suggestedTask w);
      nextId := nextId w; ticks := S (ticks w) |}).
Proof.
  intros Hfind. unfold updateTaskStatus.
  erewrite bind_run by (unfold newDate; reflexivity).
  unfold update. simpl. rewrite Hfind. reflexivity.
Qed.

Lemma updateTaskStatus_missing (taskId : nat) (status : NewStatus) (w : World) :
  List.find (hasTaskId taskId) (suggestedTask w) = None ->
  exists e,
    updateTaskStatus taskId status w = (Throw e, atTick (S (ticks w)) w).
Proof.
  intros Hfind. unfold updateTaskStatus.
  erewrite bind_run by (unfold newDate; reflexivity).
  unfold update. simpl. rewrite Hfind. eexists. reflexivity.
Qed.

Lemma hasTaskId_true (taskId : nat) (t : Task) :
  hasTaskId taskId t = true <-> task_id t = taskId.
Proof. unfold hasTaskId. apply Nat.eqb_eq. Qed.

(** With distinct keys, updating the row under a key replaces that row and
    leaves every other row in place. *)
Lemma In_updateFirst_key (taskId : nat) (f : Task -> Task) (l : list Task)
    (t : Task) :
  (forall x, task_id (f x) = task_id x) ->
  List.NoDup (map task_id l) ->
  List.find (hasTaskId taskId) l = Some t ->
  forall x,
    In x (updateFirst (hasTaskId taskId) f l) <->
    x = f t \/ (In x l /\ task_id x <> taskId).
Proof.
  intros Hf. induction l as [|y l IH]; simpl; [discriminate|].
  intros Hnd Hfind x. inversion Hnd as [|? ? Hy Hl]; subst.
  destruct (hasTaskId taskId y) eqn:Py.
  - injection Hfind as ->. apply hasTaskId_true in Py. simpl.
    split.
    + intros [<- | Hin]; [left; reflexivity|].
      right. split; [right; exact Hin|].
      intros Hx. apply Hy. rewrite Py, <- Hx. apply in_map. exact Hin.
    + intros [-> | [[-> | Hin] Hne]]; [left; reflexivity|congruence|].
      right. exact Hin.
  - simpl. rewrite (IH Hl Hfind x).
    assert (Hny : task_id y <> taskId).
    { intros Hk. apply hasTaskId_true in Hk. congruence. }
    split.
    + intros [<- | [-> | [Hin Hne]]]; auto.
    + intros [-> | [[<- | Hin] Hne]]; auto.
Qed.

Lemma map_key_updateFirst (p : Task -> bool) (f : Task -> Task) (l : list Task) :
  (forall x, task_id (f x) = task_id x) ->
  map task_id (updateFirst p f l) = map task_id l.
Proof.
  intros Hf. induction l as [|x l IH]; simpl; [reflexivity|].
  destruct (p x); simpl; [rewrite Hf|rewrite IH]; reflexivity.
Qed.

(** X15.  [updateTaskStatus] on the key of a stored task returns the task
    with the new status and the matching timestamp set to the time of the
    call; the other timestamp and every other column are left as they were.
    In the tables, that row is replaced and nothing else changes: the
    analyzed events are untouched, every other task is still there, no task
    appears, and the keys are the same. *)
Theorem update_changes_exactly_one_task (taskId : nat) (status : NewStatus)
    (w : World) (t : Task) :
  keysDistinct w ->
  List.find (hasTaskId taskId) (suggestedTask w) = Some t ->
  let '(result, w') := updateTaskStatus taskId status w in
  exists t',
    result = Normal t'
    /\ Tasks.status t' = statusText status
    /\ match status with
       | completed =>
           completedAt t' = Some (clock (ticks w)) /\ dismissedAt t' = dismissedAt t
       | dismissed =>
           dismissedAt t' = Some (clock (ticks w)) /\ completedAt t' = completedAt t
       end
    /\ (task_id t', analyzedEventId t', householdId t', title t', dueDate t',
        priority t', type t', task_description t')
       = (task_id t, analyzedEventId t, householdId t, title t, dueDate t,
          priority t, type t, task_description t)
    /\ analyzedEvent w' = analyzedEvent w
    /\ map task_id (suggestedTask w') = map task_id (suggestedTask w)
    /\ (forall x, In x (suggestedTask w') <->
                  x = t' \/ (In x (suggestedTask w) /\ task_id x <> taskId)).
Proof.
  intros [_ Hkt] Hfind. rewrite (updateTaskStatus_found taskId status w t Hfind).
  exists (updateData status (clock (ticks w)) t). simpl.
  split; [reflexivity|]. split; [reflexivity|].
  split; [destruct status; simpl; auto|].
  split; [reflexivity|]. split; [reflexivity|]. split.
  - apply map_key_updateFirst. reflexivity.
  - apply In_updateFirst_key; [reflexivity|apply NoDup_ListNoDup; exact Hkt|exact Hfind].
Qed.

(** X16.  Either task route.  Without a session it answers "not
    authenticated" and does nothing else, whether the key names a task or
    not: [updateTaskStatus] is not called, so no table changes and the
    clock is not even read.  With a session and a key that names no task,
    [update] rejects, the route answers with its failure response, and the
    tables are as they were; the one thing that happened is the clock
    reading of [updateTaskStatus]. *)
Theorem task_route_on_unknown_key_changes_nothing (status : NewStatus)
    (userId : string) (taskId : nat) (w : World) :
  TaskRoutes.POST status None taskId w = (TaskRoutes.NotAuthenticated, w)
  /\ (List.find (hasTaskId taskId) (suggestedTask w) = None ->
      TaskRoutes.POST status (Some userId) taskId w
      = (TaskRoutes.Failed,
         {| analyzedEvent := analyzedEvent w; suggestedTask := suggestedTask w;
            nextId := nextId w; ticks := S (ticks w) |})).
Proof.
  split; [reflexivity|].
  intros Hfind. unfold TaskRoutes.POST, updateTaskStatus, bind, newDate, update.
  simpl. rewrite Hfind. reflexivity.
Qed.

(** X17.  Completing or dismissing a task through its route, with the clock
    held at [now]: whoever is signed in, the route answers with the updated
    task; [getUpcomingTasks] with default options no longer lists it and
    lists every other task it listed before, and nothing else; with
    [includeCompleted] the task is still listed when its due date is in the
    window. *)
Theorem finished_task_leaves_the_default_list (status : NewStatus)
    (userId hid : string) (taskId : nat) (w : World) (t : Task) (now : Z) :
  (forall k, clock k = now) ->
  keysDistinct w ->
  List.find (hasTaskId taskId) (suggestedTask w) = Some t ->
  let '(response, w') := TaskRoutes.POST status (Some userId) taskId w in
  let before := fst (getUpcomingTasks hid noOptions w) in
  let after := fst (getUpcomingTasks hid noOptions w') in
  let afterAll :=
    fst (getUpcomingTasks hid
           {| daysAhead := None; includeCompleted := Some true |} w') in
  exists t',
    response = TaskRoutes.Success t'
    /\ task_id t' = taskId
    /\ (forall x, In x (all after) <-> In x (all before) /\ task_id x <> taskId)
    /\ (In t' (all afterAll) <->
        householdId t = hid /\ now <= dueDate t <= now + 30 * msPerDay).
Proof.
  intros Hclock [_ Hkt] Hfind. unfold TaskRoutes.POST.
  rewrite (bind_run _ _ _ _ _ (updateTaskStatus_found taskId status w t Hfind)).
  unfold ret. cbv zeta.
  exists (updateData status (clock (ticks w)) t).
  split; [reflexivity|].
  split; [simpl; apply hasTaskId_true; apply find_some in Hfind; tauto|].
  pose proof (In_updateFirst_key taskId (updateData status (clock (ticks w)))
                (suggestedTask w) t ltac:(reflexivity)
                ltac:(apply NoDup_ListNoDup; exact Hkt) Hfind) as Hin.
  match goal with |- context [getUpcomingTasks hid noOptions ?w1] =>
    match w1 with
    | w => fail 1
    | _ => pose proof (getUpcomingTasks_readings hid noOptions w1) as R1;
           pose proof (getUpcomingTasks_readings hid
                         {| daysAhead := None; includeCompleted := Some true |} w1)
             as R2
    end
  end.
  pose proof (getUpcomingTasks_readings hid noOptions w) as R0.
  cbv zeta in R0, R1, R2. rewrite R0, R1, R2. clear R0 R1 R2. simpl.
  rewrite !Hclock. rewrite Hclock in Hin. split.
  - intros x. rewrite !sortRows_In, !filter_In, Hin, !whereClause_spec.
    split.
    + intros [[-> | [Hx Hne]] (Hh & Hs & Hd)].
      * exfalso. destruct status; simpl in Hs; discriminate.
      * tauto.
    + intros [[Hx Hw] Hne]. tauto.
  - rewrite sortRows_In, filter_In, Hin. unfold whereClause. simpl.
    rewrite !andb_true_iff, String.eqb_eq, !Z.leb_le. tauto.
Qed.

(** X18.  The two statuses do not exclude each other in the store:
    dismissing a task that was completed makes its status "dismissed" and
    sets [dismissedAt], but keeps the [completedAt] of the earlier call. *)
Theorem dismissing_a_completed_task_keeps_completedAt (taskId : nat) (w : World)
    (t : Task) :
  List.find (hasTaskId taskId) (suggestedTask w) = Some t ->
  let '(_, w1) := updateTaskStatus taskId completed w in
  let '(result, w2) := updateTaskStatus taskId dismissed w1 in
  exists t',
    result = Normal t'
    /\ List.find (hasTaskId taskId) (suggestedTask w2) = Some t'
    /\ Tasks.status t' = "dismissed"
    /\ completedAt t' = Some (clock (ticks w))
    /\ dismissedAt t' = Some (clock (S (ticks w))).
Proof.
  intros Hfind.
  rewrite (updateTaskStatus_found taskId completed w t Hfind).
  assert (Hp : forall s now x, hasTaskId taskId x = true ->
                 hasTaskId taskId (updateData s now x) = true)
    by (intros s now x Hx; exact Hx).
  assert (Hf1 := find_updateFirst (hasTaskId taskId)
                   (updateData completed (clock (ticks w))) _ t Hfind
                   (Hp _ _ _ (proj2 (find_some _ _ Hfind)))).
  match goal with |- context [updateTaskStatus taskId dismissed ?w1] =>
    rewrite (updateTaskStatus_found taskId dismissed w1 _ Hf1) end.
  simpl. eexists. split; [reflexivity|]. split.
  - apply find_updateFirst; [exact Hf1|].
    apply Hp, Hp. exact (proj2 (find_some _ _ Hfind)).
  - simpl. auto.
Qed.

End UpdateFacts.

Lemma update_changes_exactly_one_task_witness :
  let '(result, w') :=
    @updateTaskStatus Examples.utc0 MoreExamples.sampleTaskKey completed Examples.partySaved in
  exists t',
    result = Normal t'
    /\ Tasks.status t' = "completed"
    /\ completedAt t' = Some Examples.now0
    /\ title t' = "Book babysitter"
    /\ analyzedEvent w' = analyzedEvent Examples.partySaved.
Proof.
  pose proof (@update_changes_exactly_one_task Examples.utc0 MoreExamples.sampleTaskKey
                completed Examples.partySaved _ (proj2 partySaved_sound) eq_refl)
    as Hw.
  destruct (@updateTaskStatus Examples.utc0 MoreExamples.sampleTaskKey completed
              Examples.partySaved) as [result w'].
  destruct Hw as (t' & Hr & Hs & [Hc _] & Hcols & He & _).
  exists t'. repeat split; auto.
  injection Hcols as _ _ _ Ht _ _ _ _. rewrite Ht. reflexivity.
Defined.

Lemma task_route_on_unknown_key_changes_nothing_witness :
  @TaskRoutes.POST Examples.utc0 dismissed None MoreExamples.sampleTaskKey
    Examples.partySaved
  = (TaskRoutes.NotAuthenticated, Examples.partySaved)
  /\ fst (@TaskRoutes.POST Examples.utc0 dismissed (Some "user-1") 99
            Examples.partySaved)
     = TaskRoutes.Failed
  /\ suggestedTask (snd (@TaskRoutes.POST Examples.utc0 dismissed (Some "user-1") 99
                           Examples.partySaved))
     = suggestedTask Examples.partySaved.
Proof.
  split.
  - exact (proj1 (@task_route_on_unknown_key_changes_nothing Examples.utc0
                    dismissed "user-1" MoreExamples.sampleTaskKey Examples.partySaved)).
  - rewrite (proj2 (@task_route_on_unknown_key_changes_nothing Examples.utc0
                      dismissed "user-1" 99 Examples.partySaved) eq_refl).
    split; reflexivity.
Defined.

Lemma finished_task_leaves_the_default_list_witness :
  exists t,
    List.find (hasTaskId MoreExamples.sampleTaskKey)
      (suggestedTask Examples.partySaved) = Some t
    /\ let '(response, w') :=
         @TaskRoutes.POST Examples.utc0 completed (Some "someone-else")
           MoreExamples.sampleTaskKey Examples.partySaved in
       let before :=
         fst (@getUpcomingTasks Examples.utc0 "household-1" noOptions
                Examples.partySaved) in
       let after := fst (@getUpcomingTasks Examples.utc0 "household-1" noOptions w') in
       let afterAll :=
         fst (@getUpcomingTasks Examples.utc0 "household-1"
                {| daysAhead := None; includeCompleted := Some true |} w') in
       exists t',
         response = TaskRoutes.Success t'
         /\ task_id t' = MoreExamples.sampleTaskKey
         /\ (forall x, In x (all after) <->
                       In x (all before) /\ task_id x <> MoreExamples.sampleTaskKey)
         /\ (In t' (all afterAll) <->
             householdId t = "household-1"
             /\ Examples.now0 <= dueDate t <= Examples.now0 + 30 * msPerDay).
Proof.
  eexists. split; [reflexivity|].
  apply (@finished_task_leaves_the_default_list Examples.utc0 completed
           "someone-else" "household-1" MoreExamples.sampleTaskKey
           Examples.partySaved _ Examples.now0).
  - intros k. reflexivity.
  - exact (proj2 partySaved_sound).
  - reflexivity.
Defined.

Lemma dismissing_a_completed_task_keeps_completedAt_witness :
  let '(_, w1) :=
    @updateTaskStatus Examples.utc0 MoreExamples.sampleTaskKey completed Examples.partySaved in
  let '(result, w2) := @updateTaskStatus Examples.utc0 MoreExamples.sampleTaskKey dismissed w1 in
  exists t',
    result = Normal t'
    /\ List.find (hasTaskId MoreExamples.sampleTaskKey) (suggestedTask w2) = Some t'
    /\ Tasks.status t' = "dismissed"
    /\ completedAt t' = Some (@clock Examples.utc0 (ticks Examples.partySaved))
    /\ dismissedAt t' = Some (@clock Examples.utc0 (S (ticks Examples.partySaved))).
Proof.
  apply (@dismissing_a_completed_task_keeps_completedAt Examples.utc0
           MoreExamples.sampleTaskKey Examples.partySaved _ eq_refl).
Defined.

(** ** Flushing a household, and finding or creating one *)

Import Households.

Section FlushFacts.
Context `{Host}.

Lemma flush_run (userId : string) (d : Directory) (w : World) (u : User)
    (h : Household) :
  findUser userId d = Some (u, Some h) ->
  Flush.POST "development" (Some userId) d w =
  (Flush.Flushed
     (length (List.filter (Flush.inHousehold (household_id h)) (suggestedTask w)))
     (length (List.filter (Flush.eventInHousehold (household_id h)) (analyzedEvent w))),
   {| analyzedEvent :=
        List.filter (fun r => negb (Flush.eventInHousehold (household_id h) r))
          (analyzedEvent w);
      suggestedTask :=
        List.filter (fun t => negb (Flush.inHousehold (household_id h) t))
          (suggestedTask w);
      nextId := nextId w; ticks := ticks w |}).
Proof.
  intros Hu. unfold Flush.POST. simpl. rewrite Hu. reflexivity.
Qed.

Lemma inHousehold_false (hid : string) (t : Task) :
  negb (Flush.inHousehold hid t) = true <-> householdId t <> hid.
Proof.
  unfold Flush.inHousehold. rewrite negb_true_iff.
  destruct (String.eqb_spec (householdId t) hid); split; congruence.
Qed.

Lemma eventInHousehold_false (hid : string) (r : AnalyzedEvent) :
  negb (Flush.eventInHousehold hid r) = true <-> ae_householdId r <> hid.
Proof.
  unfold Flush.eventInHousehold. rewrite negb_true_iff.
  destruct (String.eqb_spec (ae_householdId r) hid); split; congruence.
Qed.

(** X19.  The flush route in development, for a signed-in user with a
    household, on a database in which every task belongs to the household
    of its record: it reports how many tasks and analyzed events of the
    household there were, removes exactly those, keeps every row of every
    other household, and leaves no task pointing at a removed record. *)
Theorem flush_removes_exactly_one_household (userId : string) (d : Directory)
    (w : World) (u : User) (h : Household) :
  findUser userId d = Some (u, Some h) ->
  tenantConsistent w ->
  let '(response, w') := Flush.POST "development" (Some userId) d w in
  response
  = Flush.Flushed
      (length (List.filter (Flush.inHousehold (household_id h)) (suggestedTask w)))
      (length (List.filter (Flush.eventInHousehold (household_id h))
                 (analyzedEvent w)))
  /\ (forall t, In t (suggestedTask w') <->
                In t (suggestedTask w) /\ householdId t <> household_id h)
  /\ (forall r, In r (analyzedEvent w') <->
                In r (analyzedEvent w) /\ ae_householdId r <> household_id h)
  /\ (forall t r, In t (suggestedTask w') -> In r (analyzedEvent w) ->
                  analyzedEventId t = ae_id r -> In r (analyzedEvent w')).
Proof.
  intros Hu Htc. rewrite (flush_run userId d w u h Hu). simpl.
  split; [reflexivity|].
  assert (Ht : forall t,
            In t (List.filter (fun t => negb (Flush.inHousehold (household_id h) t))
                    (suggestedTask w)) <->
            In t (suggestedTask w) /\ householdId t <> household_id h).
  { intros t. rewrite filter_In, inHousehold_false. tauto. }
  assert (Hr : forall r,
            In r (List.filter (fun r => negb (Flush.eventInHousehold (household_id h) r))
                    (analyzedEvent w)) <->
            In r (analyzedEvent w) /\ ae_householdId r <> household_id h).
  { intros r. rewrite filter_In, eventInHousehold_false. tauto. }
  split; [exact Ht|]. split; [exact Hr|].
  intros t r Hin Hrin Hown. apply Hr. split; [exact Hrin|].
  apply Ht in Hin as [Hin Hne].
  rewrite <- (Htc t r Hin Hrin Hown). exact Hne.
Qed.

(** X20.  The flush route changes the database only when it answers
    "flushed": outside development it answers "forbidden" whoever asks, and
    without a session, or for a user without a household, it answers so and
    leaves every table as it was. *)
Theorem flush_refused_changes_nothing (nodeEnv : string) (session : option string)
    (d : Directory) (w : World) :
  let '(response, w') := Flush.POST nodeEnv session d w in
  (nodeEnv <> "development" -> response = Flush.Forbidden)
  /\ (session = None -> response = Flush.Forbidden \/ response = Flush.NotAuthenticated)
  /\ match response with
     | Flush.Flushed _ _ => nodeEnv = "development" /\ session <> None
     | _ => w' = w
     end.
Proof.
  unfold Flush.POST.
  destruct (String.eqb_spec nodeEnv "development") as [-> | Hne]; simpl.
  - destruct session as [userId|]; simpl.
    + destruct (findUser userId d) as [[u [h|]]|]; simpl;
        (split; [congruence|]); (split; [discriminate|]);
        first [reflexivity | split; [reflexivity|discriminate]].
    + unfold ret. split; [congruence|]. split; auto.
  - unfold ret. split; [intros _; reflexivity|]. split; auto.
Qed.

(** X21.  After a flush, the household's task list is empty: whatever the
    options and the clock, [getUpcomingTasks] for the flushed household
    returns no task in any bucket. *)
Theorem flushed_household_has_no_upcoming_tasks (userId : string) (d : Directory)
    (w : World) (u : User) (h : Household) (options : Options) :
  findUser userId d = Some (u, Some h) ->
  tenantConsistent w ->
  let w' := snd (Flush.POST "development" (Some userId) d w) in
  fst (getUpcomingTasks (household_id h) options w')
  = {| overdue := []; thisWeek := []; nextWeek := []; later := []; all := [] |}.
Proof.
  intros Hu _. cbv zeta. rewrite (flush_run userId d w u h Hu). cbn [snd].
  match goal with |- fst (getUpcomingTasks ?hid options ?w1) = _ =>
    pose proof (getUpcomingTasks_readings hid options w1) as R end.
  cbv zeta in R. rewrite R. clear R. simpl.
  match goal with |- context [sortRows (List.filter ?p ?l)] =>
    assert (Hempty : List.filter p l = []) end; [|rewrite Hempty; reflexivity].
  apply filter_nothing. intros t Hin.
  apply filter_In in Hin as [_ Hne]. apply inHousehold_false in Hne.
  unfold whereClause.
  destruct (String.eqb_spec (householdId t) (household_id h)); [congruence|].
  reflexivity.
Qed.

Lemma find_nothing {A} (p : A -> bool) (l : list A) :
  (forall x, In x l -> p x = false) -> List.find p l = None.
Proof.
  induction l as [|x l IH]; simpl; [reflexivity|].
  intros Hall. rewrite (Hall x (or_introl eq_refl)). apply IH.
  intros y Hy. apply Hall. right. exact Hy.
Qed.

(** X22.  The flush is a working way around the cache: once the household
    that holds an event's record has been flushed, saving the event again,
    without any re-analysis flag, takes the write path.  A new record is
    created for the caller's household, caching the new analysis, and one
    pending task is materialized for each of its suggestions. *)
Theorem save_after_flush_materializes_again (userId hid : string) (d : Directory)
    (w : World) (u : User) (h : Household) (event : CalendarEvent)
    (analysis : EventAnalysis) (r : AnalyzedEvent) :
  findUser userId d = Some (u, Some h) ->
  tenantConsistent w ->
  wellFormed w ->
  List.find (hasEventId (ev_id event)) (analyzedEvent w) = Some r ->
  ae_householdId r = household_id h ->
  let w1 := snd (Flush.POST "development" (Some userId) d w) in
  let '((ae, tasks), w2) := saveAnalyzedEvent hid event analysis w1 in
  List.find (hasEventId (ev_id event)) (analyzedEvent w1) = None
  /\ ae_id ae = nextId w
  /\ ae_householdId ae = hid
  /\ analysisData ae = analysis
  /\ Forall2 (materializes (ae_id ae) hid (startOf event w1))
             (suggestedTasks analysis) tasks
  /\ ownedTasks (ae_id ae) w2 = tasks.
Proof.
  intros Hu _ [Huniq Ht He] Hfind Hh. cbv zeta.
  rewrite (flush_run userId d w u h Hu). simpl.
  set (w1 := {| analyzedEvent := _; suggestedTask := _; nextId := nextId w;
                ticks := ticks w |}).
  assert (Hnone : List.find (hasEventId (ev_id event)) (analyzedEvent w1) = None).
  { apply find_nothing. intros x Hx. simpl in Hx.
    apply filter_In in Hx as [Hx Hkeep]. apply eventInHousehold_false in Hkeep.
    destruct (hasEventId (ev_id event) x) eqn:Px; [|reflexivity].
    exfalso. apply Hkeep.
    assert (Hxr : In x (List.filter (hasEventId (ev_id event)) (analyzedEvent w)))
      by (apply filter_In; auto).
    rewrite (unique_rows _ _ _ Huniq Hfind) in Hxr.
    destruct Hxr as [<- | []]. exact Hh. }
  destruct (save_write hid event analysis w1 (or_introl Hnone))
    as (ae & rows & endDate & now & k & E & Hae & F2 & _).
  rewrite E. rewrite Hnone in Hae. subst ae. simpl.
  split; [exact Hnone|]. repeat split; auto.
  unfold ownedTasks. simpl.
  apply owned_after_replace. eapply materializes_owned. exact F2.
Qed.

End FlushFacts.

Section HouseholdFacts.
Context `{IdSource}.

Lemma find_updateFirst_same {A} (p : A -> bool) (f : A -> A) (l : list A) (x : A) :
  List.find p l = Some x -> p (f x) = true ->
  List.find p (Tasks.updateFirst p f l) = Some (f x).
Proof. apply find_updateFirst. Qed.

Lemma find_app_fresh {A} (p : A -> bool) (l : list A) (x : A) :
  (forall y, In y l -> p y = false) -> p x = true ->
  List.find p (l ++ [x]) = Some x.
Proof.
  intros Hall Hx. apply find_app_new; [|exact Hx].
  apply find_nothing. exact Hall.
Qed.

(** X23.  [getOrCreateHousehold] for a user the store knows, when the key
    the store issues is not yet in use: the call returns a household, after
    it the user belongs to that household, and calling again returns the
    same household and changes nothing, so a user never gets a second
    household.  A household that is created is named after the user ("My
    Household" when the user has no name), and every other user and every
    existing household is left as it was.  For a user the store does not
    know the call rejects and creates nothing. *)
Theorem getOrCreateHousehold_is_idempotent (userId : string) (d : Directory) :
  (forall h, In h (household d) -> household_id h <> newId (issued d)) ->
  let '(first, d1) := getOrCreateHousehold userId d in
  match List.find (hasUserId userId) (user d) with
  | None => (exists e, first = Throw e) /\ d1 = d
  | Some u =>
      exists h,
        first = Normal h
        /\ findUser userId d1 = Some (connect (household_id h) u, Some h)
        /\ getOrCreateHousehold userId d1 = (Normal h, d1)
        /\ (forall h0, In h0 (household d) -> In h0 (household d1))
        /\ (forall u0, In u0 (user d) -> user_id u0 <> userId -> In u0 (user d1))
        /\ (d1 = d
            \/ household d1 = household d ++ [h]
               /\ household_name h
                  = String.append (orString (user_name u) "My") " Household")
  end.
Proof.
  intros Hfresh. unfold getOrCreateHousehold, findUser.
  destruct (List.find (hasUserId userId) (user d)) as [u|] eqn:Hu.
  - assert (Hpu : hasUserId userId u = true) by (apply find_some in Hu; tauto).
    destruct (match user_householdId u with
              | Some hid => List.find (hasHouseholdId hid) (household d)
              | None => None
              end) as [h|] eqn:Hh.
    + exists h. split; [reflexivity|].
      assert (Hc : connect (household_id h) u = u).
      { destruct (user_householdId u) as [hid|] eqn:Hid; [|discriminate].
        apply find_some in Hh as [_ Hp]. unfold hasHouseholdId in Hp.
        apply String.eqb_eq in Hp. destruct u; simpl in *. subst. reflexivity. }
      rewrite Hc, Hu, Hh. repeat split; auto.
    + unfold createHousehold. rewrite Hu.
      set (h := {| household_id := newId (issued d);
                   household_name :=
                     String.append (orString (user_name u) "My") " Household" |}).
      exists h. split; [reflexivity|]. simpl.
      assert (Hu1 : List.find (hasUserId userId)
                      (Tasks.updateFirst (hasUserId userId)
                         (connect (newId (issued d))) (user d))
                    = Some (connect (newId (issued d)) u)).
      { apply find_updateFirst; [exact Hu|exact Hpu]. }
      assert (Hh1 : List.find (hasHouseholdId (newId (issued d)))
                      (household d ++ [h]) = Some h).
      { apply find_app_fresh.
        - intros y Hy. unfold hasHouseholdId.
          destruct (String.eqb_spec (household_id y) (newId (issued d)));
            [exfalso; exact (Hfresh y Hy e)|reflexivity].
        - unfold hasHouseholdId. simpl. apply String.eqb_refl. }
      rewrite Hu1. simpl. rewrite Hh1.
      split; [reflexivity|]. split; [reflexivity|].
      split; [intros h0 Hin; apply in_or_app; left; exact Hin|].
      split.
      * intros u0 Hin Hne. apply In_updateFirst_other; [|exact Hin].
        unfold hasUserId. destruct (String.eqb_spec (user_id u0) userId);
          [congruence|reflexivity].
      * right. split; reflexivity.
  - unfold createHousehold. rewrite Hu. split; [eauto|reflexivity].
Qed.

End HouseholdFacts.

Lemma partySaved_tenantConsistent : tenantConsistent Examples.partySaved.
Proof.
  intros t r [<- | []] [<- | []] _. reflexivity.
Qed.

Lemma flush_removes_exactly_one_household_witness :
  let '(response, w') :=
    Flush.POST "development" (Some "user-1") MoreExamples.householdOne
      Examples.partySaved in
  response = Flush.Flushed 1 1
  /\ ~ In Examples.dueYesterday (suggestedTask w').
Proof.
  pose proof (flush_removes_exactly_one_household "user-1"
                MoreExamples.householdOne Examples.partySaved _ _ eq_refl
                partySaved_tenantConsistent) as Hw.
  destruct (Flush.POST "development" (Some "user-1") MoreExamples.householdOne
              Examples.partySaved) as [response w'].
  destruct Hw as (Hr & Ht & _). split; [exact Hr|].
  intros Hin. apply Ht in Hin as [_ Hne]. apply Hne. reflexivity.
Defined.

Lemma flushed_household_has_no_upcoming_tasks_witness :
  fst (@getUpcomingTasks Examples.utc0 "household-1" noOptions
         (snd (Flush.POST "development" (Some "user-1") MoreExamples.householdOne
                 Examples.partySaved)))
  = {| overdue := []; thisWeek := []; nextWeek := []; later := []; all := [] |}.
Proof.
  exact (@flushed_household_has_no_upcoming_tasks Examples.utc0 "user-1"
           MoreExamples.householdOne Examples.partySaved _ _ noOptions eq_refl
           partySaved_tenantConsistent).
Defined.

Lemma save_after_flush_materializes_again_witness :
  let w1 := snd (Flush.POST "development" (Some "user-1") MoreExamples.householdOne
                   Examples.partySaved) in
  let '((ae, tasks), w2) :=
    @saveAnalyzedEvent Examples.utc0 "household-1" Examples.birthdayParty
      Examples.partySecondOpinion w1 in
  List.find (hasEventId "evt-party") (analyzedEvent w1) = None
  /\ analysisData ae = Examples.partySecondOpinion
  /\ map title tasks = ["Buy a gift"]
  /\ ownedTasks (ae_id ae) w2 = tasks.
Proof.
  pose proof (@save_after_flush_materializes_again Examples.utc0 "user-1"
                "household-1" MoreExamples.householdOne Examples.partySaved _ _
                Examples.birthdayParty Examples.partySecondOpinion _
                eq_refl partySaved_tenantConsistent (proj1 partySaved_sound)
                eq_refl eq_refl) as Hw.
  cbv zeta in *.
  destruct (@saveAnalyzedEvent Examples.utc0 "household-1" Examples.birthdayParty
              Examples.partySecondOpinion _) as [[ae tasks] w2].
  destruct Hw as (Hn & _ & _ & Ha & F2 & Ho).
  repeat split; auto.
  inversion F2 as [|s t ss ts Hm F2']; subst. inversion F2'; subst.
  simpl. unfold materializes in Hm. destruct Hm as (_ & _ & _ & _ & -> & _).
  reflexivity.
Defined.

Lemma getOrCreateHousehold_is_idempotent_witness :
  let '(first, d1) :=
    @getOrCreateHousehold MoreExamples.ids "user-1" MoreExamples.oneUser in
  exists h,
    first = Normal h
    /\ household_name h = "Erin Household"
    /\ @getOrCreateHousehold MoreExamples.ids "user-1" d1 = (Normal h, d1).
Proof.
  pose proof (@getOrCreateHousehold_is_idempotent MoreExamples.ids "user-1"
                MoreExamples.oneUser ltac:(intros h [])) as Hw.
  destruct (@getOrCreateHousehold MoreExamples.ids "user-1" MoreExamples.oneUser)
    as [first d1] eqn:E.
  simpl in Hw. destruct Hw as (h & Hf & _ & Hagain & _ & _ & Hname).
  exists h. split; [exact Hf|]. split; [|exact Hagain].
  destruct Hname as [Hd | [_ Hn]]; [|exact Hn].
  exfalso. subst d1. vm_compute in E. injection E as _ Hd. discriminate Hd.
Defined.

(** ** The analyze route: what reaches the database *)

Section RouteMore.
Context `{Host}.
Variable analyzeBatchEvents : list CalendarEvent -> gmap string EventAnalysis.
Variable getOrCreateHousehold : string -> string.

Lemma isRelevant_run (event : CalendarEvent) (w : World) :
  Route.isRelevant event w =
  (match match dateTime (start event) with
         | Some x => Some x
         | None => date (start event)
         end with
   | Some d => clock (ticks w) - 7 * msPerDay <=? d
   | None => false
   end, atTick (S (ticks w)) w).
Proof.
  unfold Route.isRelevant, bind, newDate, ret, atTick. simpl.
  rewrite setDate_getDate_minus. reflexivity.
Qed.

Lemma filterM_recent (events : list CalendarEvent) :
  monotone ->
  forall w, exists l,
    Route.filterM Route.isRelevant events w
    = (l, atTick (ticks w + length events) w)
    /\ (length l <= length events)%nat
    /\ forall bound event,
         bound <= clock (ticks w) ->
         In event l ->
         In event events /\ startsNoEarlierThan (bound - 7 * msPerDay) event.
Proof.
  intros Hmono. induction events as [|event events IH]; intros w; simpl.
  - exists []. unfold ret, atTick. rewrite Nat.add_0_r. destruct w; simpl.
    split; [reflexivity|]. split; [lia|]. intros ? ? _ [].
  - rewrite (bind_run _ _ _ _ _ (isRelevant_run event w)).
    destruct (IH (atTick (S (ticks w)) w)) as (l & E & Hlen & Hl).
    rewrite (bind_run _ _ _ _ _ E). unfold ret. simpl.
    eexists. split.
    { f_equal. unfold atTick. simpl. f_equal. lia. }
    split.
    { destruct (match match dateTime (start event) with
                      | Some x => Some x
                      | None => date (start event)
                      end with
                | Some d => clock (ticks w) - 7 * msPerDay <=? d
                | None => false
                end); simpl; lia. }
    intros bound e Hb Hin.
    assert (Hrest : In e l ->
                    In e events /\ startsNoEarlierThan (bound - 7 * msPerDay) e).
    { apply Hl. simpl.
      pose proof (Hmono (ticks w) (S (ticks w)) ltac:(lia)). lia. }
    destruct (match dateTime (start event) with
              | Some x => Some x
              | None => date (start event)
              end) as [d|] eqn:Hd.
    + destruct (Z.leb_spec (clock (ticks w) - 7 * msPerDay) d) as [Hle|Hlt].
      * destruct Hin as [<- | Hin].
        -- split; [left; reflexivity|]. exists d. split; [exact Hd|lia].
        -- destruct (Hrest Hin). split; [right|]; assumption.
      * destruct (Hrest Hin). split; [right|]; assumption.
    + destruct (Hrest Hin). split; [right|]; assumption.
Qed.

Lemma save_eventIds (hid : string) (event : CalendarEvent)
    (analysis : EventAnalysis) (w : World) :
  map ae_eventId (analyzedEvent (snd (saveAnalyzedEvent hid event analysis w)))
  = (map ae_eventId (analyzedEvent w)
     ++ match List.find (hasEventId (ev_id event)) (analyzedEvent w) with
        | Some _ => []
        | None => [ev_id event]
        end)%list.
Proof.
  destruct (List.find (hasEventId (ev_id event)) (analyzedEvent w)) as [r|] eqn:Hfind.
  - destruct (forceReanalysis analysis) eqn:Hforce.
    + destruct (save_write hid event analysis w (or_intror Hforce))
        as (ae & rows & endDate & now & k & E & _).
      rewrite E, Hfind. simpl. rewrite app_nil_r.
      apply map_eventId_updateFirst. intros r0. apply updateRow_eventId.
    + destruct (save_cached hid event analysis w r Hfind Hforce) as [k E].
      rewrite E. simpl. rewrite app_nil_r. reflexivity.
  - destruct (save_write_full hid event analysis w (or_introl Hfind))
      as (ae & endDate & now & k & E & Hae).
    cbv zeta in E. rewrite E. rewrite Hfind in Hae |- *. simpl.
    rewrite map_app. subst ae. reflexivity.
Qed.

Lemma saveAll_eventIds (hid : string) (results : gmap string EventAnalysis)
    (events : list CalendarEvent) :
  forall w,
    (length (fst (Route.saveAll hid results events w)) <= length events)%nat
    /\ incl (map ae_eventId
               (analyzedEvent (snd (Route.saveAll hid results events w))))
            (map ae_eventId (analyzedEvent w) ++ map ev_id events).
Proof.
  induction events as [|event events IH]; intros w; simpl.
  - split; [lia|]. rewrite app_nil_r. apply incl_refl.
  - destruct (results !! ev_id event) as [a|].
    + pose proof (save_eventIds hid event a w) as Hs.
      destruct (saveAnalyzedEvent hid event a w) as [saved w1] eqn:E1.
      rewrite !(bind_run _ _ _ _ _ E1). simpl in Hs.
      specialize (IH w1).
      destruct (Route.saveAll hid results events w1) as [savedEvents w2] eqn:E2.
      rewrite !(bind_run _ _ _ _ _ E2). unfold ret.
      simpl in *. destruct IH as [Hlen Hincl]. split; [lia|].
      intros x Hx. apply Hincl in Hx. rewrite Hs in Hx.
      apply in_app_or in Hx as [Hx | Hx].
      * apply in_app_or in Hx as [Hx | Hx].
        -- apply in_or_app. left. exact Hx.
        -- apply in_or_app. right.
           destruct (List.find (hasEventId (ev_id event)) (analyzedEvent w));
             [destruct Hx|].
           destruct Hx as [<- | []]. left. reflexivity.
      * apply in_or_app. right. right. exact Hx.
    + destruct (IH w) as [Hlen Hincl]. split; [lia|].
      intros x Hx. apply Hincl in Hx.
      apply in_app_or in Hx as [Hx | Hx]; apply in_or_app; [left|right; right];
        exact Hx.
Qed.

(** X24.  What a request to the analyze route can put into the database,
    with a clock that does not run backwards: the count it reports is at
    most ten and at most the number of events sent, and every analysis
    record in the database afterwards either carries an event id that was
    already recorded before the request, or is the record of an event of the
    request that has a start no earlier than seven days before the moment
    the request was first timed.  An event that started earlier, or has no
    start, never gets a record. *)
Theorem analyze_route_records_only_recent_events (userId nodeEnv : string)
    (events : list CalendarEvent) (flag : option bool) (w : World) :
  monotone ->
  let '((response, _), w') :=
    Route.POST analyzeBatchEvents getOrCreateHousehold (Some userId) nodeEnv
      {| Route.events := Some events; Route.skipCache := flag |} w in
  (exists n tasks summary,
     response = Route.Analyzed n tasks summary
     /\ (n <= 10)%nat /\ (n <= length events)%nat
     /\ Route.totalAnalyzed summary = n)
  /\ forall r, In r (analyzedEvent w') ->
       In (ae_eventId r) (map ae_eventId (analyzedEvent w))
       \/ exists event,
            In event events /\ ev_id event = ae_eventId r
            /\ startsNoEarlierThan (clock (ticks w) - 7 * msPerDay) event.
Proof.
  intros Hmono. unfold Route.POST. simpl.
  destruct (filterM_recent events Hmono w) as (l & E & Hshort & Hl).
  rewrite (bind_run _ _ _ _ _ E).
  set (toAnalyze := firstn 10 l).
  set (hid := getOrCreateHousehold userId).
  pose proof (saveAll_eventIds hid (analyzeBatchEvents toAnalyze) toAnalyze
                (atTick (ticks w + length events) w)) as [Hlen Hincl].
  destruct (Route.saveAll hid (analyzeBatchEvents toAnalyze) toAnalyze
              (atTick (ticks w + length events) w)) as [savedEvents w1] eqn:E1.
  rewrite (bind_run _ _ _ _ _ E1).
  simpl in Hlen, Hincl.
  pose proof (getUpcomingTasks_atTick hid noOptions w1) as Hup.
  destruct (getUpcomingTasks hid noOptions w1) as [upcomingTasks w2] eqn:E2.
  rewrite (bind_run _ _ _ _ _ E2).
  simpl in Hup. subst w2. unfold ret.
  assert (Hten : (length toAnalyze <= 10)%nat)
    by (unfold toAnalyze; rewrite length_firstn; lia).
  assert (Hsub : forall e, In e toAnalyze -> In e l)
    by (intros e He; apply list_elem_of_In; apply (subseteq_take 10 l);
        apply list_elem_of_In; exact He).
  assert (Hll : (length toAnalyze <= length events)%nat).
  { unfold toAnalyze. rewrite length_firstn. lia. }
  split.
  - do 3 eexists. split; [reflexivity|]. simpl. repeat split; lia.
  - intros r Hr. simpl in Hr.
    assert (Hin : In (ae_eventId r) (map ae_eventId (analyzedEvent w1)))
      by (apply in_map; exact Hr).
    apply Hincl in Hin. apply in_app_or in Hin as [Hin | Hin]; [left; exact Hin|].
    right. apply in_map_iff in Hin as (event & Hid & Hev).
    exists event. destruct (Hl (clock (ticks w)) event (Z.le_refl _) (Hsub _ Hev)).
    repeat split; assumption.
Qed.

End RouteMore.

Lemma analyze_route_records_only_recent_events_witness :
  let '((response, _), w') :=
    @Route.POST MoreExamples.tickingUTC Examples.mockAnalyzer Examples.mockHousehold
      (Some "user-1") "production"
      {| Route.events := Some [MoreExamples.oldMeeting; Examples.birthdayParty];
         Route.skipCache := None |} emptyWorld in
  (exists n tasks summary,
     response = Route.Analyzed n tasks summary
     /\ (n <= 10)%nat /\ (n <= 2)%nat
     /\ Route.totalAnalyzed summary = n)
  /\ forall r, In r (analyzedEvent w') ->
       In (ae_eventId r) []
       \/ exists event,
            In event [MoreExamples.oldMeeting; Examples.birthdayParty]
            /\ ev_id event = ae_eventId r
            /\ startsNoEarlierThan
                 (@clock MoreExamples.tickingUTC 0 - 7 * msPerDay) event.
Proof.
  exact (@analyze_route_records_only_recent_events MoreExamples.tickingUTC
           Examples.mockAnalyzer Examples.mockHousehold "user-1" "production"
           [MoreExamples.oldMeeting; Examples.birthdayParty] None emptyWorld
           ticking_clock_monotone).
Defined.

(** The same request, run: of the two events only the party is recorded. *)
Example old_meeting_is_not_recorded :
  let '((response, lines), w') :=
    @Route.POST MoreExamples.tickingUTC Examples.mockAnalyzer Examples.mockHousehold
      (Some "user-1") "production"
      {| Route.events := Some [MoreExamples.oldMeeting; Examples.birthdayParty];
         Route.skipCache := None |} emptyWorld in
  lines = [Route.LogAnalyzingCount 1 1]
  /\ map ae_eventId (analyzedEvent w') = ["evt-party"].
Proof.
  vm_compute. repeat split.
Qed.

(** ** The date label of the task list *)

Section TaskListFacts.
Context `{Host}.

Lemma Day_next (t : Z) : Day (t + msPerDay) = Day t + 1.
Proof.
  unfold Day. replace (t + msPerDay) with (t + 1 * msPerDay) by lia.
  apply Z.div_add. unfold msPerDay. lia.
Qed.

Lemma Day_mono (a b : Z) : a <= b -> Day a <= Day b.
Proof.
  intros Hab. unfold Day. apply Z.div_le_mono; [unfold msPerDay; lia|exact Hab].
Qed.

(** X25.  [formatDate] labels a date by its distance in local calendar days
    from the moment of the call, not by the time that separates them: the
    label is "Today" exactly on the local day of the call, "Tomorrow"
    exactly on the next local day, in every month and zone, and the short
    date otherwise.  So any date from the moment of the call up to 24 hours
    later is labelled "Today" or "Tomorrow", and a date on an earlier local
    day, overdue or not, is never labelled "Today". *)
Theorem formatDate_goes_by_local_calendar_day (date : Z) (k : nat) :
  let ahead := Day (LocalTime date) - Day (LocalTime (clock k)) in
  TaskList.formatDate date k
  = (if ahead =? 0 then TaskList.Today
     else if ahead =? 1 then TaskList.Tomorrow
     else TaskList.ShortDate date)
  /\ (clock k <= date <= clock k + msPerDay ->
      TaskList.formatDate date k = TaskList.Today
      \/ TaskList.formatDate date k = TaskList.Tomorrow)
  /\ (ahead < 0 -> TaskList.formatDate date k = TaskList.ShortDate date).
Proof.
  cbv zeta.
  assert (E : TaskList.formatDate date k
              = (if Day (LocalTime date) - Day (LocalTime (clock k)) =? 0
                 then TaskList.Today
                 else if Day (LocalTime date) - Day (LocalTime (clock k)) =? 1
                      then TaskList.Tomorrow
                      else TaskList.ShortDate date)).
  { unfold TaskList.formatDate, TaskList.sameDateString.
    rewrite setDate_getDate_plus.
    replace (LocalTime (clock k + 1 * msPerDay))
      with (LocalTime (clock k) + msPerDay) by (unfold LocalTime; lia).
    rewrite Day_next.
    destruct (Z.eqb_spec (Day (LocalTime date)) (Day (LocalTime (clock k))));
      destruct (Z.eqb_spec (Day (LocalTime date) - Day (LocalTime (clock k))) 0);
      try lia; try reflexivity.
    destruct (Z.eqb_spec (Day (LocalTime date)) (Day (LocalTime (clock k)) + 1));
      destruct (Z.eqb_spec (Day (LocalTime date) - Day (LocalTime (clock k))) 1);
      try lia; reflexivity. }
  split; [exact E|]. split.
  - intros [Hlo Hhi]. rewrite E.
    assert (H1 : Day (LocalTime (clock k)) <= Day (LocalTime date))
      by (apply Day_mono; unfold LocalTime; lia).
    assert (H2 : Day (LocalTime date) <= Day (LocalTime (clock k)) + 1).
    { rewrite <- Day_next. apply Day_mono. unfold LocalTime. lia. }
    destruct (Z.eqb_spec (Day (LocalTime date) - Day (LocalTime (clock k))) 0);
      [left; reflexivity|].
    destruct (Z.eqb_spec (Day (LocalTime date) - Day (LocalTime (clock k))) 1);
      [right; reflexivity|lia].
  - intros Hneg. rewrite E.
    destruct (Z.eqb_spec (Day (LocalTime date) - Day (LocalTime (clock k))) 0);
      [lia|].
    destruct (Z.eqb_spec (Day (LocalTime date) - Day (LocalTime (clock k))) 1);
      [lia|reflexivity].
Qed.

End TaskListFacts.

(** One minute before local midnight, a task due two minutes later is
    already labelled "Tomorrow". *)
Example two_minutes_ahead_can_be_tomorrow :
  let lateEvening : Host :=
    {| LocalTZA := 0; MonthStart := gregorianMonthStart;
       clock := fun _ => 20760 * msPerDay - 60000 |} in
  @TaskList.formatDate lateEvening (20760 * msPerDay + 60000) 0 = TaskList.Tomorrow.
Proof. reflexivity. Qed.
